(** * PlagiarismGuard: the local scoring pipeline of [scripts/multi_api_checker.py]

    A shallow embedding of the Python module.  Texts are sequences of Unicode
    code points, Python's built-in string and list operations are written out
    as list functions, float arithmetic is an interface with two instances
    (IEEE binary64 and exact reals), a Python exception is a value of an error
    monad, and the external detection services and the clock are a record the
    analysis reads from. *)

From Stdlib Require Import ZArith NArith List String Ascii Bool Lia.
From Stdlib Require Import Permutation Sorted SpecFloat Reals Lra.
Import ListNotations.

(** ** Python values *)

(** A [str] is a sequence of code points. *)
Definition char := N.
Definition str := list char.

Definition str_eq_dec : forall a b : str, {a = b} + {a <> b} :=
  list_eq_dec N.eq_dec.

Definition str_eqb (a b : str) : bool := if str_eq_dec a b then true else false.

(** A literal of the source, all of whose characters are below 128. *)
Definition lit (s : string) : str := map N_of_ascii (list_ascii_of_string s).

Definition SPACE : char := 32%N.

Module Py.

(** [len(l)] *)
Definition len {A} (l : list A) : Z := Z.of_nat (List.length l).

(** [range(k)]: empty when [k <= 0]. *)
Definition range (k : Z) : list Z := map Z.of_nat (seq 0 (Z.to_nat k)).

(** A slice bound [i] of a sequence of length [n]: a negative one counts
    from the end, and both are clamped to [0..n]. *)
Definition clamp (n i : Z) : Z :=
  if (i <? 0)%Z then Z.max 0 (i + n) else Z.min i n.

(** [l[lo:hi]] *)
Definition slice {A} (l : list A) (lo hi : Z) : list A :=
  let lo' := clamp (len l) lo in
  let hi' := clamp (len l) hi in
  firstn (Z.to_nat (hi' - lo')) (skipn (Z.to_nat lo') l).

(** [sep.join(l)] *)
Fixpoint join (sep : str) (l : list str) : str :=
  match l with
  | [] => []
  | [x] => x
  | x :: rest => x ++ sep ++ join sep rest
  end.

(** [re.split('[...]', s)] for a class of single characters: one piece per
    separator occurrence plus one, empty pieces kept. *)
Fixpoint re_split (sep : char -> bool) (s : str) : list str :=
  match s with
  | [] => [[]]
  | c :: s' =>
      let r := re_split sep s' in
      if sep c then [] :: r
      else match r with
           | [] => [[c]]
           | w :: ws => (c :: w) :: ws
           end
  end.

Definition nonempty {A} (l : list A) : bool :=
  match l with [] => false | _ => true end.

(** [l.count(w)] *)
Definition count (w : str) (l : list str) : Z :=
  Z.of_nat (count_occ str_eq_dec l w).

(** [w in l] for a list or a set of strings. *)
Definition mem (w : str) (l : list str) : bool := existsb (str_eqb w) l.

Fixpoint startswith (p s : str) : bool :=
  match p, s with
  | [], _ => true
  | _ :: _, [] => false
  | a :: p', b :: s' => N.eqb a b && startswith p' s'
  end.

(** [p in s] for strings: [p] occurs in [s] as a substring. *)
Fixpoint contains (p s : str) : bool :=
  startswith p s || match s with [] => false | _ :: s' => contains p s' end.

Fixpoint dropwhile {A} (f : A -> bool) (l : list A) : list A :=
  match l with
  | [] => []
  | x :: l' => if f x then dropwhile f l' else l
  end.

(** A set built from a list, elements in order of first occurrence. *)
Fixpoint dedup (l : list str) : list str :=
  match l with
  | [] => []
  | x :: l' => x :: filter (fun y => negb (str_eqb x y)) (dedup l')
  end.

End Py.

(** ** What the interpreter supplies

    The Unicode tables behind [str.lower], [str.isspace] and the regular
    expression classes [\s] and [\w], and the order in which a [set] built
    from a list is iterated (it depends on the string hashes of the process).
    A set is kept as the list of its elements in iteration order.  The empty
    string has no character to lower. *)
Class Runtime := {
  isspace : char -> bool;
  isword : char -> bool;
  lower : str -> str;
  set_of : list str -> list str;
  lower_empty : lower [] = [];
  set_of_NoDup : forall l, NoDup (set_of l);
  set_of_In : forall l x, In x (set_of l) <-> In x l
}.

(** The tables restricted to code points below 128, where they agree with
    CPython's; sets iterate in order of first insertion.  Every concrete
    evaluation below is on texts within this range. *)
Definition ascii_isspace (c : char) : bool :=
  ((9 <=? c) && (c <=? 13) || (28 <=? c) && (c <=? 32))%N.

Definition ascii_isword (c : char) : bool :=
  ((48 <=? c) && (c <=? 57) || (65 <=? c) && (c <=? 90)
   || (97 <=? c) && (c <=? 122) || (c =? 95))%N.

Definition ascii_lower (s : str) : str :=
  map (fun c => if ((65 <=? c) && (c <=? 90))%N then (c + 32)%N else c) s.

(** ** Exceptions *)

Inductive exn := ZeroDivisionError.

Inductive result (A : Type) :=
| Ok (a : A)
| Raise (e : exn).

Arguments Ok {A} a.
Arguments Raise {A} e.

Definition bind {A B} (m : result A) (k : A -> result B) : result B :=
  match m with
  | Ok a => k a
  | Raise e => Raise e
  end.

Notation "x <- m ;; k" := (bind m (fun x => k))
  (at level 61, m at next level, right associativity).

(** A comprehension or loop whose body may raise: the first exception wins. *)
Fixpoint mapM {A B} (f : A -> result B) (l : list A) : result (list B) :=
  match l with
  | [] => Ok []
  | x :: l' => y <- f x ;; ys <- mapM f l' ;; Ok (y :: ys)
  end.

(** ** Float arithmetic *)

Class Arith (num : Type) := {
  of_int : Z -> num;
  fadd : num -> num -> num;
  fmul : num -> num -> num;
  fdiv : num -> num -> num;
  fsqrt : num -> num;
  feqb : num -> num -> bool;
  fltb : num -> num -> bool
}.

(** IEEE 754 binary64, round to nearest even: the floats of CPython. *)
Definition binary64 := spec_float.

#[global] Instance binary64_arith : Arith binary64 := {
  of_int z := binary_normalize 53 1024 z 0 false;
  fadd := SFadd 53 1024;
  fmul := SFmul 53 1024;
  fdiv := SFdiv 53 1024;
  fsqrt := SFsqrt 53 1024;
  feqb := SFeqb;
  fltb := SFltb
}.

(** Exact arithmetic on the reals. *)
#[global] Instance exact_arith : Arith R := {
  of_int := IZR;
  fadd := Rplus;
  fmul := Rmult;
  fdiv := Rdiv;
  fsqrt := sqrt;
  feqb x y := if Req_dec_T x y then true else false;
  fltb x y := if Rlt_dec x y then true else false
}.

Section Checker.

Context {RT : Runtime}.
Context {num : Type} {AR : Arith num}.

Definition zero : num := of_int 0.

(** [x / y] on floats, and on ints below 2^53. *)
Definition truediv (x y : num) : result num :=
  if feqb y zero then Raise ZeroDivisionError else Ok (fdiv x y).

(** [sum(l)]: left to right, from 0.  (CPython 3.12 and later add a
    compensation term to float sums; on at most two terms it changes
    nothing.) *)
Definition sum (l : list num) : num := fold_left fadd l zero.

(** A decimal literal such as [0.6] is the float nearest to [6/10], which
    the correctly rounded division of 6 by 10 returns. *)
Definition decimal (a b : Z) : num := fdiv (of_int a) (of_int b).

(** *** Normalizer *)

(** [re.sub(r'[^\w\s]', ' ', s)] *)
Definition punct_to_space (s : str) : str :=
  map (fun c => if negb (isword c || isspace c) then SPACE else c) s.

(** [re.sub(r'\s+', ' ', s)] *)
Fixpoint collapse_ws (s : str) : str :=
  match s with
  | [] => []
  | c :: s' =>
      if isspace c then
        match s' with
        | [] => [SPACE]
        | c' :: _ => if isspace c' then collapse_ws s' else SPACE :: collapse_ws s'
        end
      else c :: collapse_ws s'
  end.

(** [s.strip()] *)
Definition strip (s : str) : str :=
  rev (Py.dropwhile isspace (rev (Py.dropwhile isspace s))).

(** [s.split()]: the maximal runs of non-whitespace characters. *)
Definition split (s : str) : list str :=
  filter Py.nonempty (Py.re_split isspace s).

Definition clean_text (text : str) : str :=
  let text := punct_to_space (lower text) in
  strip (collapse_ws text).

(** *** NGramExtractor *)

Definition get_ngrams (text : str) (n : Z) : list str :=
  let words := split (clean_text text) in
  map (fun i => Py.join [SPACE] (Py.slice words i (i + n)))
      (Py.range (Py.len words - n + 1)).

(** *** SimilarityMeasures *)

(** A [dict] keyed by strings, entries in insertion order. *)
Definition dict (V : Type) := list (str * V).

Definition dict_get {V} (d : dict V) (k : str) (default : V) : V :=
  match find (fun kv => str_eqb k (fst kv)) d with
  | Some kv => snd kv
  | None => default
  end.

Definition dict_values {V} (d : dict V) : list V := map snd d.

(** [d[k] = v] *)
Fixpoint dict_set {V} (d : dict V) (k : str) (v : V) : dict V :=
  match d with
  | [] => [(k, v)]
  | (k', v') :: d' =>
      if str_eqb k k' then (k', v) :: d' else (k', v') :: dict_set d' k v
  end.

(** [{w: f(w) for w in keys}] over the distinct elements of a set. *)
Definition dict_comp {V} (keys : list str) (f : str -> result V)
  : result (dict V) :=
  mapM (fun w => v <- f w ;; Ok (w, v)) keys.

(** [v**2] and [x ** 0.5] are taken as the correctly rounded square and
    square root.  CPython computes both with the C library's [pow], which on
    some arguments returns a neighbouring float; the float values stated in
    the examples below are on arguments where the two agree. *)
Definition calculate_tfidf_similarity (text1 text2 : str) : result num :=
  let words1 := split (clean_text text1) in
  let words2 := split (clean_text text2) in
  if negb (Py.nonempty words1) || negb (Py.nonempty words2) then Ok zero
  else
    let vocab := set_of (words1 ++ words2) in
    tf1 <- dict_comp vocab
             (fun w => truediv (of_int (Py.count w words1))
                               (of_int (Py.len words1))) ;;
    tf2 <- dict_comp vocab
             (fun w => truediv (of_int (Py.count w words2))
                               (of_int (Py.len words2))) ;;
    let dot :=
      sum (map (fun w => fmul (dict_get tf1 w zero) (dict_get tf2 w zero))
               vocab) in
    let norm1 := fsqrt (sum (map (fun v => fmul v v) (dict_values tf1))) in
    let norm2 := fsqrt (sum (map (fun v => fmul v v) (dict_values tf2))) in
    if feqb norm1 zero || feqb norm2 zero then Ok zero
    else
      q <- truediv dot (fmul norm1 norm2) ;;
      Ok (fmul q (of_int 100)).

(** [a & b] *)
Definition set_inter (a b : list str) : list str :=
  filter (fun x => Py.mem x b) a.

Definition calculate_ngram_overlap (text1 text2 : str) (n : Z) : result num :=
  let ngrams1 := set_of (get_ngrams text1 n) in
  let ngrams2 := set_of (get_ngrams text2 n) in
  if negb (Py.nonempty ngrams1) then Ok zero
  else
    let overlap := Py.len (set_inter ngrams1 ngrams2) in
    q <- truediv (of_int overlap) (of_int (Py.len ngrams1)) ;;
    Ok (fmul q (of_int 100)).

(** *** KeyPhraseExtractor *)

(** The class [[.!?]]. *)
Definition is_terminator (c : char) : bool :=
  ((c =? 46) || (c =? 33) || (c =? 63))%N.

(** [re.sub(r'[^\w\s]', '', s)] *)
Definition strip_punct (s : str) : str :=
  filter (fun c => isword c || isspace c) s.

(** The [for sentence in sentences] loop, with the state it updates. *)
Fixpoint key_phrase_loop (sentences : list str) (min_words max_phrases : Z)
                         (phrases seen : list str) : list str :=
  match sentences with
  | [] => phrases
  | sentence :: rest =>
      let words := split (strip_punct sentence) in
      if (Py.len words >=? min_words)%Z then
        let phrase := Py.join [SPACE] (Py.slice words 0 min_words) in
        let phrase_lower := lower phrase in
        if negb (Py.mem phrase_lower seen) && (Py.len phrase >? 20)%Z then
          let seen := phrase_lower :: seen in
          let phrases := phrases ++ [phrase] in
          if (Py.len phrases >=? max_phrases)%Z then phrases
          else key_phrase_loop rest min_words max_phrases phrases seen
        else key_phrase_loop rest min_words max_phrases phrases seen
      else key_phrase_loop rest min_words max_phrases phrases seen
  end.

Definition extract_key_phrases (text : str) (min_words max_phrases : Z)
  : list str :=
  let sentences := Py.re_split is_terminator text in
  key_phrase_loop sentences min_words max_phrases [] [].

(** *** Reference corpus, configuration and collaborators *)

Record Reference := {
  ref_id : str;
  ref_name : str;
  ref_type : str;
  ref_text : str
}.

Record APIConfig := {
  copyleaks_email : option str;
  copyleaks_key : option str;
  zerogpt_key : option str;
  google_api_key : option str;
  google_cse_id : option str
}.

Record CopyleaksAPI := { cl_email : str; cl_api_key : str }.
Record ZeroGPTAPI := { zg_api_key : str }.
Record GoogleScholarSearch := { gs_api_key : str; gs_cse_id : str }.

Record PlagiarismChecker := {
  config : APIConfig;
  copyleaks : option CopyleaksAPI;
  zerogpt : option ZeroGPTAPI;
  google : option GoogleScholarSearch
}.

(** [PlagiarismChecker.__init__]: a key counts when it is set and not the
    empty string. *)
Definition new_checker (config : APIConfig) : PlagiarismChecker :=
  {| config := config;
     copyleaks :=
       match copyleaks_email config, copyleaks_key config with
       | Some (c :: e), Some (d :: k) =>
           Some {| cl_email := c :: e; cl_api_key := d :: k |}
       | _, _ => None
       end;
     zerogpt :=
       match zerogpt_key config with
       | Some (c :: k) => Some {| zg_api_key := c :: k |}
       | _ => None
       end;
     google :=
       match google_api_key config, google_cse_id config with
       | Some (c :: k), Some (d :: i) =>
           Some {| gs_api_key := c :: k; gs_cse_id := d :: i |}
       | _, _ => None
       end |}.

(** What lies outside the process at the time of one call: the clock, and
    whether each detection service answers with a result ([true]) or with
    [None] or an empty one ([false]); the wrappers catch every error. *)
Record World := {
  now_isoformat : str;
  copyleaks_check_plagiarism : CopyleaksAPI -> str -> bool -> bool;
  zerogpt_check : ZeroGPTAPI -> str -> bool
}.

(** The calls made to the detection services, oldest first. *)
Inductive event :=
| CopyleaksCheck (api : CopyleaksAPI) (text : str) (sandbox : bool)
| ZeroGPTCheck (api : ZeroGPTAPI) (text : str).

(** *** ScoringEngine *)

Record SourceMatch := {
  name : str;
  source_type : str;
  similarity : num;
  url : option str;
  matched_phrases : option (list str)
}.

Record KeyPhrase := {
  kp_text : str;
  kp_found : bool;
  kp_source : option str
}.

Record AnalysisResult := {
  overall_score : num;
  word_count : Z;
  unique_words : Z;
  max_match : num;
  sources_checked : Z;
  sources : list SourceMatch;
  key_phrases : list KeyPhrase;
  api_status : dict str;
  timestamp : str
}.

Definition initial_status (self : PlagiarismChecker) : dict str :=
  [ (lit "Copyleaks",
     match copyleaks self with None => lit "Not configured" | Some _ => lit "Ready" end);
    (lit "ZeroGPT",
     match zerogpt self with None => lit "Not configured" | Some _ => lit "Ready" end);
    (lit "Google Scholar",
     match google self with None => lit "Not configured" | Some _ => lit "Ready" end);
    (lit "Local TF-IDF", lit "Active");
    (lit "N-gram Analysis", lit "Active") ].

(** The [for ref in ACADEMIC_REFERENCES] loop, with the state it updates. *)
Fixpoint score_loop (refs : list Reference) (text : str)
                    (sources : list SourceMatch) (max_match : num)
  : result (list SourceMatch * num) :=
  match refs with
  | [] => Ok (sources, max_match)
  | ref :: rest =>
      tfidf_sim <- calculate_tfidf_similarity text (ref_text ref) ;;
      ngram_sim <- calculate_ngram_overlap text (ref_text ref) 3 ;;
      let combined :=
        fadd (fmul tfidf_sim (decimal 6 10)) (fmul ngram_sim (decimal 4 10)) in
      let sources :=
        sources ++ [ {| name := ref_name ref;
                        source_type := ref_type ref;
                        similarity := combined;
                        url := None;
                        matched_phrases := None |} ] in
      let max_match := if fltb max_match combined then combined else max_match in
      score_loop rest text sources max_match
  end.

Definition common_patterns : list str :=
  [lit "the results show"; lit "in this study"; lit "we found that"].

Definition classify_phrase (phrase : str) : KeyPhrase :=
  let found :=
    existsb (fun pattern => Py.contains pattern (lower phrase)) common_patterns in
  {| kp_text := phrase;
     kp_found := found;
     kp_source := if found then Some (lit "Common Pattern") else None |}.

(** The block under [if use_apis]. *)
Definition api_checks (self : PlagiarismChecker) (w : World) (text : str)
                      (use_apis verbose : bool) (api_status : dict str)
  : list event * dict str :=
  if use_apis then
    let '(ev1, api_status) :=
      match copyleaks self with
      | Some api =>
          if verbose then
            let result := copyleaks_check_plagiarism w api text true in
            ([CopyleaksCheck api text true],
             dict_set api_status (lit "Copyleaks")
                      (if result then lit "Submitted" else lit "Error"))
          else ([], api_status)
      | None => ([], api_status)
      end in
    let '(ev2, api_status) :=
      match zerogpt self with
      | Some api =>
          if verbose then
            let result := zerogpt_check w api text in
            ([ZeroGPTCheck api text],
             dict_set api_status (lit "ZeroGPT")
                      (if result then lit "Complete" else lit "Error"))
          else ([], api_status)
      | None => ([], api_status)
      end in
    (ev1 ++ ev2, api_status)
  else ([], api_status).

(** [sources.sort(key=lambda x: x.similarity, reverse=True)]: the stable
    sort by descending key. *)
Fixpoint insert_desc (x : SourceMatch) (l : list SourceMatch) : list SourceMatch :=
  match l with
  | [] => [x]
  | y :: l' =>
      if fltb (similarity x) (similarity y) then y :: insert_desc x l'
      else x :: l
  end.

Definition sort_by_similarity_desc (l : list SourceMatch) : list SourceMatch :=
  fold_right insert_desc [] l.

(** [analyze] over the reference list the module holds at the time of the
    call.  The result pairs the service calls made with the value returned
    or the exception raised; the progress lines printed under [verbose] are
    left out. *)
Definition analyze_corpus (refs : list Reference) (self : PlagiarismChecker)
                          (w : World) (text : str) (use_apis verbose : bool)
  : list event * result AnalysisResult :=
  let words := split text in
  let word_count := Py.len words in
  let unique_words := Py.len (set_of (map lower words)) in
  let api_status := initial_status self in
  match score_loop refs text [] zero with
  | Raise e => ([], Raise e)
  | Ok (sources, max_match) =>
      let key_phrases := extract_key_phrases text 6 15 in
      let phrase_results := map classify_phrase key_phrases in
      let '(events, api_status) :=
        api_checks self w text use_apis verbose api_status in
      let source_scores := map similarity sources in
      (events,
       overall_score <-
         (if Py.nonempty source_scores
          then truediv (sum source_scores) (of_int (Py.len source_scores))
          else Ok zero) ;;
       let sources := sort_by_similarity_desc sources in
       Ok {| overall_score := overall_score;
             word_count := word_count;
             unique_words := unique_words;
             max_match := max_match;
             sources_checked := Py.len sources;
             sources := sources;
             key_phrases := phrase_results;
             api_status := api_status;
             timestamp := now_isoformat w |})
  end.

End Checker.

Arguments SourceMatch : clear implicits.
Arguments AnalysisResult : clear implicits.

Definition NL : str := [10%N].

Definition ACADEMIC_REFERENCES : list Reference :=
  [ {| ref_id := lit "WHO2024";
       ref_name := lit "WHO Global TB Report 2024";
       ref_type := lit "Official Report";
       ref_text :=
         lit "Global tuberculosis report 2024. Tuberculosis remains one of the " ++ NL ++
         lit "            world's deadliest infectious diseases. India accounts for 26% of the global " ++ NL ++
         lit "            TB burden. Early diagnosis and prompt treatment are essential to end TB." |};
    {| ref_id := lit "Teo2021";
       ref_name := lit "Teo et al. 2021 - TB Delays Review";
       ref_type := lit "Meta-analysis";
       ref_text :=
         lit "Duration and determinants of delayed tuberculosis diagnosis and treatment " ++ NL ++
         lit "            in high-burden countries: a mixed-methods systematic review and meta-analysis." ++ NL ++
         lit "            Tuberculosis diagnostic and treatment delays continue to pose major challenges." |};
    {| ref_id := lit "Storla2008";
       ref_name := lit "Storla et al. 2008 - Delay Review";
       ref_type := lit "Systematic Review";
       ref_text :=
         lit "A systematic review of delay in the diagnosis and treatment of tuberculosis." ++ NL ++
         lit "            Delayed diagnosis and treatment results in increased infectivity and poor outcomes." ++ NL ++
         lit "            Delays are categorized into patient delay, health system delay, and total delay." |};
    {| ref_id := lit "Sreeramareddy2009";
       ref_name := lit "Sreeramareddy et al. 2009";
       ref_type := lit "Systematic Review";
       ref_text :=
         lit "Time delays in diagnosis of pulmonary tuberculosis: a systematic review." ++ NL ++
         lit "            We conducted a systematic review to estimate time delays in diagnosis." ++ NL ++
         lit "            Patient delay contributes significantly to the total delay." |};
    {| ref_id := lit "Subbaraman2016";
       ref_name := lit "Subbaraman et al. 2016 - India TB Cascade";
       ref_type := lit "Meta-analysis";
       ref_text :=
         lit "The tuberculosis cascade of care in India's public sector: " ++ NL ++
         lit "            a systematic review and meta-analysis. India has the highest TB burden globally." ++ NL ++
         lit "            We estimated the proportion of patients lost at each stage of the care cascade." |} ].

Section Analyze.
Context {RT : Runtime}.
Context {num : Type} {AR : Arith num}.

(** [PlagiarismChecker.analyze] *)
Definition analyze (self : PlagiarismChecker) (w : World) (text : str)
                   (use_apis verbose : bool)
  : list event * result (AnalysisResult num) :=
  analyze_corpus ACADEMIC_REFERENCES self w text use_apis verbose.
End Analyze.

(** ** The tables below 128 form a runtime *)

Lemma dedup_In (l : list str) (x : str) : In x (Py.dedup l) <-> In x l.
Proof.
  induction l as [|a l IH]; simpl; [tauto|].
  rewrite filter_In, IH. unfold str_eqb.
  destruct (str_eq_dec a x) as [->|Hne]; simpl; split; intros H; auto.
  - destruct H as [H|[H _]]; auto.
  - destruct H as [H|H]; auto.
Qed.

Lemma dedup_NoDup (l : list str) : NoDup (Py.dedup l).
Proof.
  induction l as [|a l IH]; simpl; constructor.
  - rewrite filter_In. unfold str_eqb. intros [_ H].
    destruct (str_eq_dec a a); [discriminate|congruence].
  - now apply NoDup_filter.
Qed.

#[global] Instance ascii_runtime : Runtime := {
  isspace := ascii_isspace;
  isword := ascii_isword;
  lower := ascii_lower;
  set_of := Py.dedup;
  lower_empty := eq_refl;
  set_of_NoDup := dedup_NoDup;
  set_of_In := dedup_In
}.

(** ** NGramExtractor *)

Section NGrams.
Context {RT : Runtime}.

Lemma range_length (k : Z) : List.length (Py.range k) = Z.to_nat k.
Proof. unfold Py.range. now rewrite length_map, length_seq. Qed.

Lemma get_ngrams_length (text : str) (n : Z) :
  List.length (get_ngrams text n)
  = Z.to_nat (Py.len (split (clean_text text)) - n + 1).
Proof. unfold get_ngrams. now rewrite length_map, range_length. Qed.

Lemma slice_empty_window {A} (l : list A) (i : Z) : Py.slice l i (i + 0) = [].
Proof. unfold Py.slice. now rewrite Z.add_0_r, Z.sub_diag. Qed.

(** C1, as the code has it: a window length [n <= 0] raises nothing, and
    [get_ngrams] then returns [len(words) - n + 1] entries, one for every
    index of [range], so the result is never empty; for [n = 0] every
    entry is the empty string. *)
Theorem get_ngrams_nonpositive_window (text : str) (n : Z) :
  (n <= 0)%Z ->
  Py.len (get_ngrams text n) = (Py.len (split (clean_text text)) - n + 1)%Z
  /\ get_ngrams text n <> []
  /\ (n = 0%Z -> Forall (fun g => g = []) (get_ngrams text n)).
Proof.
  intros Hn.
  assert (Hlen : Py.len (get_ngrams text n)
                 = (Py.len (split (clean_text text)) - n + 1)%Z).
  { unfold Py.len at 1. rewrite get_ngrams_length. unfold Py.len. lia. }
  split; [exact Hlen|split].
  - intros E. rewrite E in Hlen. unfold Py.len in Hlen. simpl in Hlen. lia.
  - intros ->. unfold get_ngrams. apply Forall_forall. intros g Hg.
    apply in_map_iff in Hg. destruct Hg as [i [<- _]].
    now rewrite slice_empty_window.
Qed.

End NGrams.

Lemma get_ngrams_nonpositive_window_witness :
  (0 <= 0)%Z /\ get_ngrams (lit "a b c") 0 <> [].
Proof.
  split; [lia|].
  apply (get_ngrams_nonpositive_window (RT := ascii_runtime) (lit "a b c") 0). lia.
Defined.

(** C1 fails as stated: with [n = 0] the text "a b c" gives four empty
    n-grams, not the empty sequence. *)
Lemma get_ngrams_zero_window_not_empty :
  get_ngrams (lit "a b c") 0 = [[]; []; []; []]
  /\ get_ngrams (lit "a b c") (-1) = [lit "a b"; []; []; []; []]
  /\ ~ (forall text n, (n <= 0)%Z -> get_ngrams text n = []).
Proof.
  split; [reflexivity|split; [reflexivity|]].
  intros H. specialize (H (lit "a b c") 0%Z). discriminate H. lia.
Qed.

(** ** The model on small inputs *)

Example clean_text_example :
  clean_text (lit "Hello, World!  It's 26%.") = lit "hello world it s 26".
Proof. reflexivity. Qed.

Example get_ngrams_example :
  get_ngrams (lit "The quick brown fox") 3
  = [lit "the quick brown"; lit "quick brown fox"]
  /\ get_ngrams (lit "too short") 3 = [].
Proof. split; reflexivity. Qed.

Example re_split_example :
  Py.re_split is_terminator (lit "One. Two! Three?")
  = [lit "One"; lit " Two"; lit " Three"; []].
Proof. reflexivity. Qed.

Example slice_example :
  Py.slice [1; 2; 3; 4] 1 3 = [2; 3]
  /\ Py.slice [1; 2; 3; 4] 0 (-1) = [1; 2; 3]
  /\ Py.slice [1; 2; 3; 4] 3 2 = []
  /\ Py.slice [1; 2; 3; 4] 2 9 = [3; 4].
Proof. repeat split; reflexivity. Qed.

(** ** The empty text *)

Section EmptyText.
Context {RT : Runtime}.

Lemma set_of_empty : set_of [] = [].
Proof.
  destruct (set_of []) as [|x l] eqn:E; [reflexivity|].
  exfalso. apply (proj1 (set_of_In [] x)). rewrite E. now left.
Qed.

Lemma clean_text_empty : clean_text [] = [].
Proof. unfold clean_text. now rewrite lower_empty. Qed.

Lemma get_ngrams_empty_text : get_ngrams [] 3 = [].
Proof. unfold get_ngrams. now rewrite clean_text_empty. Qed.

Context {num : Type} {AR : Arith num}.

Lemma tfidf_empty_text (text2 : str) :
  calculate_tfidf_similarity [] text2 = Ok zero.
Proof. unfold calculate_tfidf_similarity. now rewrite clean_text_empty. Qed.

Lemma ngram_overlap_empty_text (text2 : str) :
  calculate_ngram_overlap [] text2 3 = Ok zero.
Proof.
  unfold calculate_ngram_overlap.
  now rewrite get_ngrams_empty_text, set_of_empty.
Qed.

End EmptyText.

Lemma combined_zero_binary64 :
  fadd (fmul (zero (num := binary64)) (decimal 6 10)) (fmul zero (decimal 4 10))
  = zero.
Proof. vm_compute. reflexivity. Qed.

Definition zero_entry (ref : Reference) : SourceMatch binary64 :=
  {| name := ref_name ref; source_type := ref_type ref; similarity := zero;
     url := None; matched_phrases := None |}.

Lemma score_loop_empty_text {RT : Runtime} (refs : list Reference)
      (acc : list (SourceMatch binary64)) :
  score_loop refs [] acc zero = Ok (acc ++ map zero_entry refs, zero).
Proof.
  revert acc. induction refs as [|ref refs IH]; intros acc; cbn [score_loop map].
  - now rewrite app_nil_r.
  - rewrite tfidf_empty_text, ngram_overlap_empty_text. cbn [bind].
    rewrite combined_zero_binary64.
    change (fltb (zero (num := binary64)) zero) with false. cbn iota.
    rewrite IH, <- app_assoc. reflexivity.
Qed.

(** C8: on the empty string and the default corpus [analyze] returns a
    result (no exception), with [overall_score = 0.0], [max_match = 0.0],
    [sources_checked = 5], [word_count = 0], [unique_words = 0], and one
    source per reference, in corpus order, each with similarity [0.0]. *)
Theorem analyze_empty_string {RT : Runtime} (self : PlagiarismChecker)
        (w : World) (use_apis verbose : bool) :
  exists r : AnalysisResult binary64,
    snd (analyze self w [] use_apis verbose) = Ok r
    /\ overall_score r = S754_zero false
    /\ max_match r = S754_zero false
    /\ sources_checked r = 5%Z
    /\ word_count r = 0%Z
    /\ unique_words r = 0%Z
    /\ map name (sources r) = map ref_name ACADEMIC_REFERENCES
    /\ map similarity (sources r) = repeat (S754_zero false) 5.
Proof.
  unfold analyze, analyze_corpus.
  rewrite score_loop_empty_text.
  destruct (api_checks self w [] use_apis verbose (initial_status self))
    as [events status].
  change (split []) with (@nil str). cbn [map]. rewrite set_of_empty.
  cbn [app snd].
  set (srcs := map zero_entry ACADEMIC_REFERENCES).
  assert (Ho : (if Py.nonempty (map similarity srcs)
                then truediv (sum (map similarity srcs))
                             (of_int (Py.len (map similarity srcs)))
                else Ok zero) = Ok (S754_zero false))
    by (vm_compute; reflexivity).
  rewrite Ho. cbn [bind].
  eexists. split; [reflexivity|].
  cbn [overall_score max_match sources_checked word_count unique_words sources].
  repeat split; vm_compute; reflexivity.
Qed.

(** ** External services and determinism *)

Section Services.
Context {RT : Runtime}.
Context {num : Type} {AR : Arith num}.

Lemma api_checks_quiet (self : PlagiarismChecker) (w : World) (text : str)
      (use_apis : bool) (st : dict str) :
  api_checks self w text use_apis false st = ([], st).
Proof.
  unfold api_checks.
  destruct use_apis, (copyleaks self), (zerogpt self); reflexivity.
Qed.

Lemma api_checks_off (self : PlagiarismChecker) (w : World) (text : str)
      (verbose : bool) (st : dict str) :
  api_checks self w text false verbose st = ([], st).
Proof. reflexivity. Qed.

Lemma api_checks_same (self : PlagiarismChecker) (w1 w2 : World) (text : str)
      (use_apis verbose : bool) (st : dict str) :
  use_apis && verbose = false ->
  api_checks self w1 text use_apis verbose st
  = api_checks self w2 text use_apis verbose st.
Proof.
  destruct use_apis; [|reflexivity]. destruct verbose; [discriminate|].
  intros _. now rewrite !api_checks_quiet.
Qed.

Lemma analyze_corpus_events (refs : list Reference) (self : PlagiarismChecker)
      (w : World) (text : str) (use_apis verbose : bool) :
  fst (analyze_corpus (num := num) refs self w text use_apis verbose) = []
  \/ fst (analyze_corpus (num := num) refs self w text use_apis verbose)
     = fst (api_checks self w text use_apis verbose (initial_status self)).
Proof.
  unfold analyze_corpus.
  destruct (score_loop refs text [] zero) as [[srcs m]|e]; [|now left].
  right. now destruct (api_checks _ _ _ _ _ _).
Qed.

Lemma analyze_corpus_status (refs : list Reference) (self : PlagiarismChecker)
      (w : World) (text : str) (use_apis verbose : bool)
      (r : AnalysisResult num) :
  snd (analyze_corpus refs self w text use_apis verbose) = Ok r ->
  api_status r
  = snd (api_checks self w text use_apis verbose (initial_status self)).
Proof.
  unfold analyze_corpus.
  destruct (score_loop refs text [] zero) as [[srcs m]|e]; [|discriminate].
  destruct (api_checks _ _ _ _ _ _) as [ev st]. cbn [snd].
  destruct (if Py.nonempty _ then _ else _); cbn [bind]; [|discriminate].
  intros [= <-]. reflexivity.
Qed.

(** C10: with [verbose=False] no detection service is called, whatever
    [use_apis] is, and the [api_status] of the result is the initial table,
    whose values are 'Ready', 'Not configured' or 'Active'; a service is
    called only when [use_apis] and [verbose] are both true. *)
Theorem analyze_quiet_calls_no_service (self : PlagiarismChecker) (w : World)
        (text : str) (use_apis : bool) :
  fst (analyze (num := num) self w text use_apis false) = []
  /\ (forall r : AnalysisResult num,
        snd (analyze self w text use_apis false) = Ok r ->
        api_status r = initial_status self)
  /\ Forall (fun kv => In (snd kv) [lit "Ready"; lit "Not configured"; lit "Active"])
            (initial_status self)
  /\ (forall verbose,
        fst (analyze (num := num) self w text use_apis verbose) <> [] ->
        use_apis = true /\ verbose = true).
Proof.
  unfold analyze. split; [|split; [|split]].
  - destruct (analyze_corpus_events ACADEMIC_REFERENCES self w text use_apis false)
      as [E|E]; rewrite E; [reflexivity|now rewrite api_checks_quiet].
  - intros r Hr. apply analyze_corpus_status in Hr.
    now rewrite Hr, api_checks_quiet.
  - unfold initial_status.
    destruct (copyleaks self), (zerogpt self), (google self);
      repeat (apply Forall_cons; [cbn [snd In]; auto|]); apply Forall_nil.
  - intros verbose H.
    destruct (analyze_corpus_events ACADEMIC_REFERENCES self w text use_apis verbose)
      as [E|E]; rewrite E in H; [congruence|].
    destruct use_apis; [|now rewrite api_checks_off in H].
    destruct verbose; [auto|now rewrite api_checks_quiet in H].
Qed.

(** Within one run, where every set is iterated in one order, two calls on
    the same checker, text and flags either raise the same exception or
    return results that agree on every field except [timestamp] and
    [api_status]; [api_status] agrees too whenever [use_apis] or [verbose]
    is false.  With both true it records what the services answered at each
    call. *)
Lemma analyze_same_run (self : PlagiarismChecker)
        (w1 w2 : World) (text : str) (use_apis verbose : bool) :
  match snd (analyze (num := num) self w1 text use_apis verbose),
        snd (analyze (num := num) self w2 text use_apis verbose) with
  | Ok r1, Ok r2 =>
      overall_score r1 = overall_score r2
      /\ word_count r1 = word_count r2
      /\ unique_words r1 = unique_words r2
      /\ max_match r1 = max_match r2
      /\ sources_checked r1 = sources_checked r2
      /\ sources r1 = sources r2
      /\ key_phrases r1 = key_phrases r2
      /\ (use_apis && verbose = false -> api_status r1 = api_status r2)
  | Raise e1, Raise e2 => e1 = e2
  | _, _ => False
  end.
Proof.
  unfold analyze, analyze_corpus.
  destruct (score_loop ACADEMIC_REFERENCES text [] zero) as [[srcs m]|e];
    [|reflexivity].
  destruct (api_checks self w1 text use_apis verbose (initial_status self))
    as [ev1 st1] eqn:E1.
  destruct (api_checks self w2 text use_apis verbose (initial_status self))
    as [ev2 st2] eqn:E2.
  cbn [snd].
  destruct (if Py.nonempty _ then _ else _) as [o|e]; cbn [bind];
    [|reflexivity].
  cbn. repeat split.
  intros Hq. rewrite (api_checks_same self w1 w2 text _ _ _ Hq) in E1.
  congruence.
Qed.

End Services.

Definition no_keys : APIConfig :=
  {| copyleaks_email := None; copyleaks_key := None; zerogpt_key := None;
     google_api_key := None; google_cse_id := None |}.

Definition zerogpt_only : APIConfig :=
  {| copyleaks_email := None; copyleaks_key := None;
     zerogpt_key := Some (lit "key");
     google_api_key := None; google_cse_id := None |}.

(** A world whose services answer, and one whose services fail, at the same
    clock reading. *)
Definition world_up : World :=
  {| now_isoformat := lit "2024-01-01T00:00:00";
     copyleaks_check_plagiarism := fun _ _ _ => true;
     zerogpt_check := fun _ _ => true |}.

Definition world_down : World :=
  {| now_isoformat := lit "2024-01-01T00:00:00";
     copyleaks_check_plagiarism := fun _ _ _ => false;
     zerogpt_check := fun _ _ => false |}.

Lemma analyze_quiet_calls_no_service_witness :
  exists r : AnalysisResult binary64,
    snd (analyze (new_checker zerogpt_only) world_up (lit "a b") true false) = Ok r
    /\ api_status r = initial_status (new_checker zerogpt_only).
Proof.
  eexists. split; [vm_compute; reflexivity|].
  apply (analyze_quiet_calls_no_service (new_checker zerogpt_only) world_up
           (lit "a b") true).
  vm_compute; reflexivity.
Defined.

(** ** KeyPhraseExtractor *)

Section KeyPhrases.
Context {RT : Runtime}.

(** The spec's words: the candidate phrase of a sentence, when the
    sentence has at least [min_words] tokens and the phrase is longer than
    20 characters. *)
Definition phrase_of (sentence : str) (min_words : Z) : option str :=
  let words := split (strip_punct sentence) in
  if (Py.len words >=? min_words)%Z then
    let phrase := Py.join [SPACE] (Py.slice words 0 min_words) in
    if (Py.len phrase >? 20)%Z then Some phrase else None
  else None.

(** The candidate phrases of the qualifying sentences, in sentence order. *)
Fixpoint qualifying (sentences : list str) (min_words : Z) : list str :=
  match sentences with
  | [] => []
  | s :: rest =>
      match phrase_of s min_words with
      | Some p => p :: qualifying rest min_words
      | None => qualifying rest min_words
      end
  end.

(** The first phrase of every case-folded form not in [seen]. *)
Fixpoint first_occurrences (seen : list str) (l : list str) : list str :=
  match l with
  | [] => []
  | p :: rest =>
      if Py.mem (lower p) seen then first_occurrences seen rest
      else p :: first_occurrences (lower p :: seen) rest
  end.

Lemma mem_In (x : str) (l : list str) : Py.mem x l = true <-> In x l.
Proof.
  unfold Py.mem. rewrite existsb_exists. unfold str_eqb. split.
  - intros [y [Hy E]]. destruct (str_eq_dec x y); [now subst|discriminate].
  - intros H. exists x. split; [assumption|].
    destruct (str_eq_dec x x); [reflexivity|congruence].
Qed.

Lemma mem_false (x : str) (l : list str) : Py.mem x l = false <-> ~ In x l.
Proof.
  rewrite <- mem_In. destruct (Py.mem x l); split; congruence.
Qed.

Lemma len_app_one {A} (l : list A) (x : A) :
  Py.len (l ++ [x]) = (Py.len l + 1)%Z.
Proof. unfold Py.len. rewrite length_app. simpl. lia. Qed.

Lemma key_phrase_loop_spec (sentences : list str) (min_words max_phrases : Z) :
  forall phrases seen,
    key_phrase_loop sentences min_words max_phrases phrases seen
    = phrases
      ++ firstn (Z.to_nat (Z.max 1 (max_phrases - Py.len phrases)))
                (first_occurrences seen (qualifying sentences min_words)).
Proof.
  induction sentences as [|s rest IH]; intros phrases seen;
    cbn [key_phrase_loop qualifying].
  - cbn [first_occurrences]. now rewrite firstn_nil, app_nil_r.
  - unfold phrase_of.
    destruct (Py.len (split (strip_punct s)) >=? min_words)%Z; [|apply IH].
    set (phrase := Py.join [SPACE] (Py.slice (split (strip_punct s)) 0 min_words)).
    destruct (Py.len phrase >? 20)%Z.
    + cbn [first_occurrences].
      destruct (Py.mem (lower phrase) seen); cbn [negb andb]; [apply IH|].
      rewrite len_app_one.
      destruct (Py.len phrases + 1 >=? max_phrases)%Z eqn:Hge.
      * replace (Z.to_nat (Z.max 1 (max_phrases - Py.len phrases))) with 1%nat
          by lia.
        reflexivity.
      * rewrite IH, len_app_one, <- app_assoc.
        replace (Z.to_nat (Z.max 1 (max_phrases - Py.len phrases)))
          with (S (Z.to_nat (Z.max 1 (max_phrases - (Py.len phrases + 1)))))
          by lia.
        reflexivity.
    + rewrite andb_false_r. apply IH.
Qed.

Lemma first_occurrences_fresh (l : list str) :
  forall seen p, In p (first_occurrences seen l) -> ~ In (lower p) seen.
Proof.
  induction l as [|q rest IH]; intros seen p; cbn [first_occurrences];
    [intros []|].
  destruct (Py.mem (lower q) seen) eqn:Hm.
  - apply IH.
  - intros [<-|Hin]; [now apply mem_false|].
    intros Hs. apply (IH _ _ Hin). now right.
Qed.

Lemma first_occurrences_NoDup (l : list str) :
  forall seen, NoDup (map lower (first_occurrences seen l)).
Proof.
  induction l as [|q rest IH]; intros seen; cbn [first_occurrences];
    [constructor|].
  destruct (Py.mem (lower q) seen); [apply IH|].
  cbn [map]. constructor; [|apply IH].
  intros Hin. apply in_map_iff in Hin. destruct Hin as [p [Hp Hin]].
  apply first_occurrences_fresh in Hin. apply Hin. left. now symmetry.
Qed.

Lemma firstn_incl {A} (k : nat) (l : list A) (x : A) :
  In x (firstn k l) -> In x l.
Proof.
  revert k. induction l as [|y l IH]; intros k.
  - now rewrite firstn_nil.
  - destruct k; cbn [firstn]; [intros []|].
    intros [->|Hin]; [now left|right; eauto].
Qed.

Lemma NoDup_firstn {A} (k : nat) (l : list A) : NoDup l -> NoDup (firstn k l).
Proof.
  revert k. induction l as [|x l IH]; intros k H.
  - rewrite firstn_nil. constructor.
  - destruct k; cbn [firstn]; [constructor|].
    inversion H; subst. constructor; [|now apply IH].
    intros Hin. apply H2. eapply firstn_incl, Hin.
Qed.

(** C7, as the code has it: [extract_key_phrases] returns the first
    [max(1, max_phrases)] phrases among the first occurrences, by
    case-folded form, of the candidate phrases of the qualifying sentences,
    taken in sentence order.  So the phrases are pairwise distinct
    case-insensitively and in sentence order; for [max_phrases >= 1] there
    are at most [max_phrases] of them, and exactly [max_phrases] when the
    text has at least that many distinct qualifying phrases. *)
Theorem extract_key_phrases_dedup_ordered_capped (text : str)
        (min_words max_phrases : Z) :
  let distinct :=
    first_occurrences [] (qualifying (Py.re_split is_terminator text) min_words) in
  let phrases := extract_key_phrases text min_words max_phrases in
  phrases = firstn (Z.to_nat (Z.max 1 max_phrases)) distinct
  /\ NoDup (map lower phrases)
  /\ (Py.len phrases <= Z.max 1 max_phrases)%Z
  /\ ((1 <= max_phrases <= Py.len distinct)%Z -> Py.len phrases = max_phrases).
Proof.
  intros distinct phrases.
  assert (E : phrases = firstn (Z.to_nat (Z.max 1 max_phrases)) distinct).
  { unfold phrases, extract_key_phrases. rewrite key_phrase_loop_spec.
    cbn [app]. unfold Py.len at 1. cbn [List.length Z.of_nat].
    now rewrite Z.sub_0_r. }
  split; [exact E|]. rewrite E. split; [|split].
  - rewrite <- firstn_map. apply NoDup_firstn, first_occurrences_NoDup.
  - unfold Py.len. rewrite length_firstn. lia.
  - unfold Py.len. rewrite length_firstn. lia.
Qed.

End KeyPhrases.

Definition six_words : str := lit "alpha beta gamma delta epsilon zeta".

Lemma extract_key_phrases_dedup_ordered_capped_witness :
  Py.len (extract_key_phrases
            (lit "alpha beta gamma delta epsilon zeta. Alpha BETA gamma delta epsilon zeta eta! one two three four five six seven?")
            6 2) = 2%Z.
Proof.
  apply (extract_key_phrases_dedup_ordered_capped
           (lit "alpha beta gamma delta epsilon zeta. Alpha BETA gamma delta epsilon zeta eta! one two three four five six seven?")
           6 2).
  vm_compute. split; discriminate.
Defined.

(** C7 fails as stated for a cap below 1: the cap is tested after a phrase
    is recorded, so [max_phrases = 0] still returns one phrase, also from a
    text of five distinct qualifying sentences. *)
Lemma extract_key_phrases_zero_cap_returns_one :
  extract_key_phrases (lit "alpha beta gamma delta epsilon zeta.") 6 0 = [six_words]
  /\ extract_key_phrases
       (lit "a1 beta gamma delta epsilon zeta. a2 beta gamma delta epsilon zeta. a3 beta gamma delta epsilon zeta. a4 beta gamma delta epsilon zeta. a5 beta gamma delta epsilon zeta.")
       6 0 = [lit "a1 beta gamma delta epsilon zeta"]
  /\ ~ (forall text max_phrases,
          (Py.len (extract_key_phrases text 6 max_phrases) <= max_phrases)%Z).
Proof.
  split; [reflexivity|split; [reflexivity|]].
  intros H. specialize (H (lit "alpha beta gamma delta epsilon zeta.") 0%Z).
  vm_compute in H. apply H. reflexivity.
Qed.

(** ** Exact arithmetic *)

Section Exact.
Context {RT : Runtime}.
Local Open Scope R_scope.

Fixpoint Rsum (l : list R) : R :=
  match l with
  | [] => 0
  | x :: l' => x + Rsum l'
  end.

Lemma feqb_exact (x y : R) : feqb x y = true <-> x = y.
Proof.
  cbn [feqb exact_arith]. destruct (Req_dec_T x y); split; congruence.
Qed.

Lemma feqb_exact_false (x y : R) : feqb x y = false <-> x <> y.
Proof.
  cbn [feqb exact_arith]. destruct (Req_dec_T x y); split; congruence.
Qed.

Lemma fltb_exact (x y : R) : fltb x y = true <-> x < y.
Proof.
  cbn [fltb exact_arith]. destruct (Rlt_dec x y); split; congruence.
Qed.

Lemma fltb_exact_false (x y : R) : fltb x y = false <-> y <= x.
Proof.
  cbn [fltb exact_arith]. destruct (Rlt_dec x y); split; intros; try lra;
    congruence.
Qed.

Lemma truediv_exact (x y : R) : y <> 0 -> truediv x y = Ok (x / y).
Proof.
  intros Hy. unfold truediv, zero. cbn [of_int fdiv exact_arith].
  apply feqb_exact_false in Hy. now rewrite Hy.
Qed.

Lemma fold_left_Rplus (l : list R) (a : R) : fold_left Rplus l a = a + Rsum l.
Proof.
  revert a. induction l as [|x l IH]; intros a; cbn [fold_left Rsum].
  - lra.
  - rewrite IH. lra.
Qed.

Lemma sum_exact (l : list R) : sum l = Rsum l.
Proof.
  unfold sum, zero. cbn [of_int fadd exact_arith].
  rewrite fold_left_Rplus. lra.
Qed.

Lemma Rsum_nonneg (l : list R) : Forall (fun x => 0 <= x) l -> 0 <= Rsum l.
Proof.
  induction 1 as [|x l Hx _ IH]; cbn [Rsum]; lra.
Qed.

Lemma Rsum_Permutation (l l' : list R) : Permutation l l' -> Rsum l = Rsum l'.
Proof.
  induction 1; cbn [Rsum]; lra.
Qed.

(** *** Dictionaries built by comprehension *)

Lemma dict_comp_exact (keys : list str) (f : str -> R) (d : R) :
  d <> 0 ->
  dict_comp keys (fun w => truediv (f w) d)
  = Ok (map (fun w => (w, f w / d)) keys).
Proof.
  intros Hd. unfold dict_comp.
  induction keys as [|k keys IH]; cbn [mapM map]; [reflexivity|].
  rewrite truediv_exact by assumption. cbn [bind]. rewrite IH. reflexivity.
Qed.

Lemma dict_get_comp {V} (keys : list str) (f : str -> V) (w : str) (default : V) :
  In w keys -> dict_get (map (fun k => (k, f k)) keys) w default = f w.
Proof.
  unfold dict_get. induction keys as [|k keys IH]; [intros []|].
  cbn [map find fst]. unfold str_eqb at 1.
  destruct (str_eq_dec w k) as [->|Hne]; [reflexivity|].
  intros [E|Hin]; [congruence|]. now apply IH.
Qed.

Lemma dict_values_comp {V} (keys : list str) (f : str -> V) :
  dict_values (map (fun k => (k, f k)) keys) = map f keys.
Proof.
  unfold dict_values. rewrite map_map. reflexivity.
Qed.

(** *** TF-cosine *)

(** [tf[w]] of the source: the share of [w] among the tokens. *)
Definition tf (words : list str) (w : str) : R :=
  IZR (Py.count w words) / IZR (Py.len words).

Definition dot_tf (words1 words2 vocab : list str) : R :=
  Rsum (map (fun w => tf words1 w * tf words2 w) vocab).

Lemma len_nonzero {A} (l : list A) : l <> [] -> IZR (Py.len l) <> 0.
Proof.
  intros H. apply not_0_IZR. unfold Py.len.
  destruct l; [congruence|]. cbn [List.length]. lia.
Qed.

Lemma len_pos {A} (l : list A) : l <> [] -> 0 < IZR (Py.len l).
Proof.
  intros H. apply IZR_lt. unfold Py.len.
  destruct l; [congruence|]. cbn [List.length]. lia.
Qed.

Lemma tf_nonneg (words : list str) (w : str) : words <> [] -> 0 <= tf words w.
Proof.
  intros H. unfold tf. apply Rmult_le_pos.
  - apply IZR_le. unfold Py.count. lia.
  - left. apply Rinv_0_lt_compat. now apply len_pos.
Qed.

Lemma tf_pos (words : list str) (w : str) : In w words -> 0 < tf words w.
Proof.
  intros H. unfold tf. apply Rmult_lt_0_compat.
  - apply IZR_lt. unfold Py.count.
    apply (count_occ_In str_eq_dec) in H. lia.
  - apply Rinv_0_lt_compat. apply len_pos. intros E. now rewrite E in H.
Qed.

Lemma nonempty_true {A} (l : list A) : Py.nonempty l = true <-> l <> [].
Proof.
  destruct l; cbn; split; congruence.
Qed.

(** The value [calculate_tfidf_similarity] computes on non-empty token
    sequences. *)
Lemma tfidf_exact (text1 text2 : str) :
  let words1 := split (clean_text text1) in
  let words2 := split (clean_text text2) in
  let vocab := set_of (words1 ++ words2) in
  let norm1 := sqrt (dot_tf words1 words1 vocab) in
  let norm2 := sqrt (dot_tf words2 words2 vocab) in
  words1 <> [] -> words2 <> [] ->
  calculate_tfidf_similarity text1 text2
  = if feqb norm1 0 || feqb norm2 0 then Ok 0
    else Ok (dot_tf words1 words2 vocab / (norm1 * norm2) * 100).
Proof.
  intros words1 words2 vocab norm1 norm2 H1 H2.
  unfold calculate_tfidf_similarity.
  fold words1 words2.
  rewrite (proj2 (nonempty_true words1) H1), (proj2 (nonempty_true words2) H2).
  cbn [negb orb]. fold vocab.
  rewrite (dict_comp_exact vocab (fun w => IZR (Py.count w words1)))
    by now apply len_nonzero.
  rewrite (dict_comp_exact vocab (fun w => IZR (Py.count w words2)))
    by now apply len_nonzero.
  cbn [bind]. rewrite !dict_values_comp, !map_map, !sum_exact.
  rewrite (map_ext_in
             (fun w => fmul (dict_get (map (fun w0 => (w0, IZR (Py.count w0 words1) / IZR (Py.len words1))) vocab) w zero)
                            (dict_get (map (fun w0 => (w0, IZR (Py.count w0 words2) / IZR (Py.len words2))) vocab) w zero))
             (fun w => tf words1 w * tf words2 w)).
  2:{ intros w Hw. rewrite !dict_get_comp by assumption. reflexivity. }
  unfold zero, norm1, norm2, dot_tf, tf. cbn [of_int fmul fsqrt exact_arith].
  match goal with
  | |- context [feqb ?a 0 || feqb ?b 0] =>
      destruct (feqb a 0) eqn:E1; [reflexivity|];
      destruct (feqb b 0) eqn:E2; [reflexivity|];
      apply feqb_exact_false in E1, E2
  end.
  cbn [orb]. rewrite truediv_exact; [reflexivity|].
  now apply Rmult_integral_contrapositive.
Qed.

(** Cauchy-Schwarz on the vocabulary, through the quadratic form
    [sum (x*g - y*f)^2]. *)
Section CauchySchwarz.
Variables (f g : str -> R).

Let dot (a b : str -> R) (V : list str) := Rsum (map (fun w => a w * b w) V).

Lemma quadratic_form_nonneg (V : list str) (x y : R) :
  0 <= x * x * dot g g V - 2 * x * y * dot f g V + y * y * dot f f V.
Proof.
  unfold dot. induction V as [|w V IH]; cbn [map Rsum]; [lra|].
  pose proof (Rle_0_sqr (x * g w - y * f w)) as Hsq. unfold Rsqr in Hsq.
  lra.
Qed.

Lemma dot_self_nonneg (V : list str) : 0 <= dot f f V.
Proof.
  unfold dot. induction V as [|w V IH]; cbn [map Rsum]; [lra|].
  pose proof (Rle_0_sqr (f w)) as Hsq. unfold Rsqr in Hsq. lra.
Qed.

Lemma cauchy_schwarz (V : list str) :
  dot f g V * dot f g V <= dot f f V * dot g g V.
Proof.
  induction V as [|w V IH]; [unfold dot; cbn [map Rsum]; lra|].
  pose proof (quadratic_form_nonneg V (f w) (g w)) as Hq.
  unfold dot in *. cbn [map Rsum].
  set (D := Rsum (map (fun w => f w * g w) V)) in *.
  set (A := Rsum (map (fun w => f w * f w) V)) in *.
  set (B := Rsum (map (fun w => g w * g w) V)) in *.
  nra.
Qed.

Lemma dot_le_norms (V : list str) :
  0 <= dot f g V -> dot f g V <= sqrt (dot f f V) * sqrt (dot g g V).
Proof.
  intros Hd. rewrite <- sqrt_mult_alt by apply dot_self_nonneg.
  rewrite <- (sqrt_square (dot f g V)) at 1 by assumption.
  apply sqrt_le_1_alt, cauchy_schwarz.
Qed.

End CauchySchwarz.

Lemma dot_tf_nonneg (words1 words2 vocab : list str) :
  words1 <> [] -> words2 <> [] -> 0 <= dot_tf words1 words2 vocab.
Proof.
  intros H1 H2. unfold dot_tf. apply Rsum_nonneg, Forall_forall.
  intros x Hx. apply in_map_iff in Hx. destruct Hx as [w [<- _]].
  apply Rmult_le_pos; now apply tf_nonneg.
Qed.

Lemma dot_tf_self_pos (words vocab : list str) (w : str) :
  In w words -> In w vocab -> 0 < dot_tf words words vocab.
Proof.
  intros Hw Hv. unfold dot_tf.
  assert (Hne : words <> []) by (intros E; now rewrite E in Hw).
  induction vocab as [|v vocab IH]; [destruct Hv|]. cbn [map Rsum].
  pose proof (tf_nonneg words v Hne) as Hv0.
  assert (0 <= Rsum (map (fun w0 => tf words w0 * tf words w0) vocab))
    by (apply (dot_tf_nonneg words words vocab Hne Hne)).
  destruct Hv as [->|Hin].
  - pose proof (tf_pos _ _ Hw). nra.
  - specialize (IH Hin). nra.
Qed.

Lemma vocab_covers_left (words1 words2 : list str) :
  words1 <> [] -> exists w, In w words1 /\ In w (set_of (words1 ++ words2)).
Proof.
  destruct words1 as [|w l]; [congruence|]. intros _. exists w.
  split; [now left|]. apply set_of_In. now left.
Qed.

(** In exact arithmetic the cosine never raises and is a percentage. *)
Lemma tfidf_percentage (text1 text2 : str) :
  exists v, calculate_tfidf_similarity text1 text2 = Ok v /\ 0 <= v <= 100.
Proof.
  destruct (split (clean_text text1)) as [|a1 l1] eqn:E1.
  { exists 0. unfold calculate_tfidf_similarity. rewrite E1. split; [reflexivity|lra]. }
  destruct (split (clean_text text2)) as [|a2 l2] eqn:E2.
  { exists 0. unfold calculate_tfidf_similarity. rewrite E1, E2.
    split; [reflexivity|lra]. }
  assert (H1 : split (clean_text text1) <> []) by (rewrite E1; discriminate).
  assert (H2 : split (clean_text text2) <> []) by (rewrite E2; discriminate).
  rewrite (tfidf_exact text1 text2 H1 H2).
  set (words1 := split (clean_text text1)) in *.
  set (words2 := split (clean_text text2)) in *.
  set (vocab := set_of (words1 ++ words2)).
  destruct (feqb (sqrt (dot_tf words1 words1 vocab)) 0) eqn:F1;
    [exists 0; split; [reflexivity|lra]|].
  destruct (feqb (sqrt (dot_tf words2 words2 vocab)) 0) eqn:F2;
    [exists 0; split; [reflexivity|lra]|].
  cbn [orb]. eexists. split; [reflexivity|].
  apply feqb_exact_false in F1, F2.
  pose proof (sqrt_pos (dot_tf words1 words1 vocab)) as P1.
  pose proof (sqrt_pos (dot_tf words2 words2 vocab)) as P2.
  pose proof (dot_tf_nonneg words1 words2 vocab H1 H2) as Hd.
  assert (Hle : dot_tf words1 words2 vocab
                <= sqrt (dot_tf words1 words1 vocab)
                   * sqrt (dot_tf words2 words2 vocab))
    by exact (dot_le_norms (tf words1) (tf words2) vocab Hd).
  set (n := sqrt (dot_tf words1 words1 vocab) * sqrt (dot_tf words2 words2 vocab)) in *.
  assert (Hn : 0 < n) by (unfold n; apply Rmult_lt_0_compat; lra).
  assert (Hq : 0 <= dot_tf words1 words2 vocab / n <= 1).
  { split.
    - apply Rmult_le_pos; [assumption|left; now apply Rinv_0_lt_compat].
    - apply (Rmult_le_reg_r n); [assumption|].
      unfold Rdiv. rewrite Rmult_assoc, Rinv_l by lra. lra. }
  lra.
Qed.

(** C2, in exact arithmetic: a text with at least one token has cosine
    similarity 100 with itself, and the call raises nothing. *)
Theorem tfidf_self_similarity_exact (x : str) :
  split (clean_text x) <> [] ->
  calculate_tfidf_similarity x x = Ok 100.
Proof.
  intros H. rewrite (tfidf_exact x x H H).
  set (words := split (clean_text x)) in *.
  set (vocab := set_of (words ++ words)).
  destruct (vocab_covers_left words words H) as [w [Hw Hv]]. fold vocab in Hv.
  pose proof (dot_tf_self_pos words vocab w Hw Hv) as Hpos.
  pose proof (sqrt_lt_R0 _ Hpos) as Hs.
  assert (F : feqb (sqrt (dot_tf words words vocab)) 0 = false)
    by (apply feqb_exact_false; lra).
  rewrite F. cbn [orb]. f_equal.
  rewrite sqrt_sqrt by lra. field. lra.
Qed.

(** *** N-gram overlap *)

(** The spec's words: the number of distinct strings of a sequence, and of
    those it shares with another. *)
Definition card (a : list str) : Z := Py.len (nodup str_eq_dec a).

Definition card_inter (a b : list str) : Z :=
  Py.len (nodup str_eq_dec (filter (fun x => Py.mem x b) a)).

Lemma NoDup_same_length (l l' : list str) :
  NoDup l -> NoDup l' -> (forall x, In x l <-> In x l') ->
  Py.len l = Py.len l'.
Proof.
  intros H H' Hin. unfold Py.len. f_equal.
  apply Permutation_length, NoDup_Permutation; assumption.
Qed.

Lemma set_of_card (a : list str) : Py.len (set_of a) = card a.
Proof.
  apply NoDup_same_length; [apply set_of_NoDup|apply NoDup_nodup|].
  intros x. now rewrite set_of_In, nodup_In.
Qed.

Lemma set_inter_card (a b : list str) :
  Py.len (set_inter (set_of a) (set_of b)) = card_inter a b.
Proof.
  apply NoDup_same_length.
  - apply NoDup_filter, set_of_NoDup.
  - apply NoDup_nodup.
  - intros x. unfold set_inter.
    rewrite nodup_In, !filter_In, !mem_In, !set_of_In. reflexivity.
Qed.

Lemma set_of_nonempty (a : list str) : Py.nonempty (set_of a) = Py.nonempty a.
Proof.
  destruct a as [|x a].
  - now rewrite set_of_empty.
  - apply nonempty_true. intros E.
    pose proof (proj2 (set_of_In (x :: a) x) (or_introl eq_refl)) as H.
    rewrite E in H. exact H.
Qed.

Lemma card_inter_le (a b : list str) : (0 <= card_inter a b <= card a)%Z.
Proof.
  rewrite <- set_inter_card, <- set_of_card. unfold set_inter, Py.len.
  pose proof (filter_length_le (fun x => Py.mem x (set_of b)) (set_of a)).
  lia.
Qed.

(** The value [calculate_ngram_overlap] computes, on the two sets. *)
Lemma ngram_overlap_exact (text1 text2 : str) (n : Z) :
let ngrams1 := set_of (get_ngrams text1 n) in
let ngrams2 := set_of (get_ngrams text2 n) in
calculate_ngram_overlap text1 text2 n
= Ok (if Py.nonempty ngrams1
      then IZR (Py.len (set_inter ngrams1 ngrams2)) / IZR (Py.len ngrams1) * 100
      else 0).
Proof.
intros ngrams1 ngrams2. unfold calculate_ngram_overlap. fold ngrams1 ngrams2.
destruct (Py.nonempty ngrams1) eqn:E; cbn [negb]; [|reflexivity].
rewrite truediv_exact; [reflexivity|].
apply len_nonzero. now apply nonempty_true.
Qed.

Lemma card_pos (a : list str) : a <> [] -> (0 < card a)%Z.
Proof.
intros H. rewrite <- set_of_card.
assert (Hne : set_of a <> [])
  by (apply nonempty_true; rewrite set_of_nonempty; now apply nonempty_true).
unfold Py.len. destruct (set_of a); [congruence|]. cbn [List.length]. lia.
Qed.

Lemma ngram_overlap_percentage (text1 text2 : str) (n : Z) :
exists v, calculate_ngram_overlap text1 text2 n = Ok v /\ 0 <= v <= 100.
Proof.
rewrite ngram_overlap_exact. cbn zeta. eexists. split; [reflexivity|].
rewrite set_of_nonempty, set_inter_card, set_of_card.
destruct (get_ngrams text1 n) as [|g A'] eqn:EA; cbn [Py.nonempty]; [lra|].
pose proof (card_inter_le (g :: A') (get_ngrams text2 n)) as [Hlo Hhi].
assert (Hc : (0 < card (g :: A'))%Z) by (apply card_pos; discriminate).
apply IZR_le in Hlo, Hhi. apply IZR_lt in Hc.
set (i := IZR (card_inter (g :: A') (get_ngrams text2 n))) in *.
set (c := IZR (card (g :: A'))) in *.
assert (Hq : 0 <= i / c <= 1).
{ split.
  - apply Rmult_le_pos; [assumption|left; now apply Rinv_0_lt_compat].
  - apply (Rmult_le_reg_r c); [assumption|].
    unfold Rdiv. rewrite Rmult_assoc, Rinv_l by lra. lra. }
lra.
Qed.

(** *** Ranking *)

Definition ge_similarity (a b : SourceMatch R) : Prop :=
  similarity b <= similarity a.

Definition has_similarity (v : R) (s : SourceMatch R) : bool :=
  feqb (similarity s) v.

Lemma insert_desc_In (x : SourceMatch R) (l : list (SourceMatch R)) (z : SourceMatch R) :
  In z (insert_desc x l) <-> z = x \/ In z l.
Proof.
  induction l as [|y l IH]; cbn [insert_desc In].
  - intuition congruence.
  - destruct (fltb (similarity x) (similarity y)); cbn [In]; [rewrite IH|];
      intuition congruence.
Qed.

Lemma insert_desc_Permutation (x : SourceMatch R) (l : list (SourceMatch R)) :
  Permutation (x :: l) (insert_desc x l).
Proof.
  induction l as [|y l IH]; cbn [insert_desc]; [reflexivity|].
  destruct (fltb (similarity x) (similarity y)); [|reflexivity].
  rewrite perm_swap. now apply perm_skip.
Qed.

Lemma sort_Permutation (l : list (SourceMatch R)) :
  Permutation l (sort_by_similarity_desc l).
Proof.
  induction l as [|x l IH]; cbn [sort_by_similarity_desc fold_right];
    [reflexivity|].
  rewrite <- insert_desc_Permutation. now apply perm_skip.
Qed.

Lemma insert_desc_sorted (x : SourceMatch R) (l : list (SourceMatch R)) :
  StronglySorted ge_similarity l ->
  StronglySorted ge_similarity (insert_desc x l).
Proof.
  induction 1 as [|y l Hs IH Hall]; cbn [insert_desc].
  - repeat constructor.
  - destruct (fltb (similarity x) (similarity y)) eqn:Hlt.
    + apply fltb_exact in Hlt. constructor; [assumption|].
      apply Forall_forall. intros z Hz. apply insert_desc_In in Hz.
      destruct Hz as [->|Hz]; [unfold ge_similarity; lra|].
      now apply (proj1 (Forall_forall _ _) Hall).
    + apply fltb_exact_false in Hlt. constructor; [now constructor|].
      constructor; [exact Hlt|].
      apply Forall_forall. intros z Hz.
      pose proof (proj1 (Forall_forall _ _) Hall z Hz) as Hyz.
      unfold ge_similarity in *. lra.
Qed.

Lemma sort_sorted (l : list (SourceMatch R)) :
  StronglySorted ge_similarity (sort_by_similarity_desc l).
Proof.
  induction l as [|x l IH]; cbn [sort_by_similarity_desc fold_right];
    [constructor|].
  now apply insert_desc_sorted.
Qed.

Lemma insert_desc_stable (v : R) (x : SourceMatch R) (l : list (SourceMatch R)) :
  filter (has_similarity v) (insert_desc x l)
  = filter (has_similarity v) (x :: l).
Proof.
  induction l as [|y l IH]; cbn [insert_desc]; [reflexivity|].
  destruct (fltb (similarity x) (similarity y)) eqn:Hlt; [|reflexivity].
  apply fltb_exact in Hlt. cbn [filter] in *. rewrite IH.
  destruct (has_similarity v y) eqn:Ey; [|reflexivity].
  destruct (has_similarity v x) eqn:Ex; [|reflexivity].
  unfold has_similarity in Ex, Ey. apply feqb_exact in Ex, Ey. lra.
Qed.

Lemma sort_stable (v : R) (l : list (SourceMatch R)) :
  filter (has_similarity v) (sort_by_similarity_desc l)
  = filter (has_similarity v) l.
Proof.
  induction l as [|x l IH]; cbn [sort_by_similarity_desc fold_right];
    [reflexivity|].
  rewrite insert_desc_stable. cbn [filter].
  fold (sort_by_similarity_desc l). now rewrite IH.
Qed.

(** *** The scoring loop and [analyze] *)

Definition value (r : result R) : R :=
  match r with Ok v => v | Raise _ => 0 end.

(** [combined] for one reference. *)
Definition combined_score (text : str) (ref : Reference) : R :=
  value (calculate_tfidf_similarity text (ref_text ref)) * (6 / 10)
  + value (calculate_ngram_overlap text (ref_text ref) 3) * (4 / 10).

Definition scored (text : str) (ref : Reference) : SourceMatch R :=
  {| name := ref_name ref;
     source_type := ref_type ref;
     similarity := combined_score text ref;
     url := None;
     matched_phrases := None |}.

Lemma combined_score_percentage (text : str) (ref : Reference) :
  0 <= combined_score text ref <= 100.
Proof.
  unfold combined_score.
  destruct (tfidf_percentage text (ref_text ref)) as [t [-> Ht]].
  destruct (ngram_overlap_percentage text (ref_text ref) 3) as [g [-> Hg]].
  cbn [value]. lra.
Qed.

Lemma running_max_step (m c : R) : (if fltb m c then c else m) = Rmax m c.
Proof.
  unfold Rmax. destruct (fltb m c) eqn:E.
  - apply fltb_exact in E. destruct (Rle_dec m c); lra.
  - apply fltb_exact_false in E. destruct (Rle_dec m c); lra.
Qed.

Lemma score_loop_exact (refs : list Reference) (text : str) :
  forall acc m,
    score_loop refs text acc m
    = Ok (acc ++ map (scored text) refs,
          fold_left Rmax (map (combined_score text) refs) m).
Proof.
  induction refs as [|ref refs IH]; intros acc m;
    cbn [score_loop map fold_left].
  - now rewrite app_nil_r.
  - pose proof (eq_refl (combined_score text ref)) as Hc.
    unfold combined_score at 1 in Hc.
    destruct (tfidf_percentage text (ref_text ref)) as [t [Et _]].
    destruct (ngram_overlap_percentage text (ref_text ref) 3) as [g [Eg _]].
    rewrite Et, Eg in Hc |- *. cbn [value] in Hc. cbn [bind].
    unfold decimal. cbn [of_int fadd fmul fdiv exact_arith]. rewrite Hc.
    rewrite running_max_step, IH, <- app_assoc. reflexivity.
Qed.

Lemma map_similarity_scored (text : str) (refs : list Reference) :
  map similarity (map (scored text) refs) = map (combined_score text) refs.
Proof. rewrite map_map. reflexivity. Qed.

(** [statistics.mean] of the spec: the sum over the count. *)
Definition mean (l : list R) : R := Rsum l / IZR (Py.len l).

(** In exact arithmetic [analyze] always returns, and its result is
    determined by the scores of the references. *)
Lemma analyze_corpus_exact (refs : list Reference) (self : PlagiarismChecker)
      (w : World) (text : str) (use_apis verbose : bool) :
  exists r : AnalysisResult R,
    snd (analyze_corpus refs self w text use_apis verbose) = Ok r
    /\ sources r = sort_by_similarity_desc (map (scored text) refs)
    /\ overall_score r
       = match refs with
         | [] => 0
         | _ :: _ => mean (map (combined_score text) refs)
         end
    /\ max_match r = fold_left Rmax (map (combined_score text) refs) 0
    /\ sources_checked r = Py.len refs.
Proof.
  unfold analyze_corpus. rewrite score_loop_exact. cbn [app].
  destruct (api_checks self w text use_apis verbose (initial_status self))
    as [events status].
  cbn [snd]. rewrite map_similarity_scored, sum_exact.
  destruct refs as [|ref refs].
  - cbn [map Py.nonempty bind]. eexists. split; [reflexivity|].
    cbn. repeat split; reflexivity.
  - set (scores := map (combined_score text) (ref :: refs)).
    assert (Hne : scores <> []) by discriminate.
    rewrite (proj2 (nonempty_true scores) Hne).
    rewrite truediv_exact by (now apply len_nonzero).
    cbn [bind]. eexists. split; [reflexivity|].
    cbn [sources overall_score max_match sources_checked].
    repeat split.
    unfold Py.len. f_equal.
    rewrite <- (Permutation_length (sort_Permutation _)), length_map.
    reflexivity.
Qed.

Lemma running_max_spec (l : list R) :
  forall a,
    let m := fold_left Rmax l a in
    a <= m /\ Forall (fun s => s <= m) l /\ (m = a \/ In m l).
Proof.
  induction l as [|x l IH]; intros a; cbn [fold_left].
  - cbn zeta. split; [lra|]. split; [constructor|now left].
  - destruct (IH (Rmax a x)) as [Hle [Hall Hin]]. cbn zeta in *.
    pose proof (Rmax_l a x). pose proof (Rmax_r a x).
    split; [lra|]. split; [constructor; [lra|assumption]|].
    destruct Hin as [E|Hin]; [|right; now right].
    rewrite E. unfold Rmax. destruct (Rle_dec a x); [right; now left|now left].
Qed.


Lemma Rsum_bounds (l : list R) (b : R) :
  Forall (fun s => 0 <= s <= b) l -> 0 <= Rsum l <= b * IZR (Py.len l).
Proof.
  unfold Py.len.
  induction 1 as [|x l Hx _ IH]; cbn [Rsum List.length]; [simpl; lra|].
  rewrite Nat2Z.inj_succ, succ_IZR. lra.
Qed.

Lemma mean_bounds (l : list R) (b : R) :
  l <> [] -> Forall (fun s => 0 <= s <= b) l -> 0 <= mean l <= b.
Proof.
  intros Hne Hall. unfold mean.
  pose proof (Rsum_bounds l b Hall) as [Hlo Hhi].
  pose proof (len_pos l Hne) as Hn.
  split.
  - apply Rmult_le_pos; [assumption|left; now apply Rinv_0_lt_compat].
  - apply (Rmult_le_reg_r (IZR (Py.len l))); [assumption|].
    unfold Rdiv. rewrite Rmult_assoc, Rinv_l by lra. lra.
Qed.

Lemma scores_percentages (text : str) (refs : list Reference) :
  Forall (fun s => 0 <= s <= 100) (map (combined_score text) refs).
Proof.
  apply Forall_forall. intros s Hs. apply in_map_iff in Hs.
  destruct Hs as [ref [<- _]]. apply combined_score_percentage.
Qed.

Lemma sorted_scores_Permutation (text : str) (refs : list Reference) :
  Permutation (map (combined_score text) refs)
              (map similarity (sort_by_similarity_desc (map (scored text) refs))).
Proof.
  rewrite <- map_similarity_scored. apply Permutation_map, sort_Permutation.
Qed.



(** C5, in exact arithmetic: both measures return, for all texts and
    window lengths, a value between 0 and 100, and so are every source's
    similarity, [overall_score] and [max_match] of the result of
    [analyze], over any reference list. *)
Theorem similarities_are_percentages_exact :
  (forall text1 text2,
      exists v, calculate_tfidf_similarity text1 text2 = Ok v /\ 0 <= v <= 100)
  /\ (forall text1 text2 n,
         exists v, calculate_ngram_overlap text1 text2 n = Ok v /\ 0 <= v <= 100)
  /\ (forall refs self w text use_apis verbose,
         exists r : AnalysisResult R,
           snd (analyze_corpus refs self w text use_apis verbose) = Ok r
           /\ Forall (fun s => 0 <= similarity s <= 100) (sources r)
           /\ 0 <= overall_score r <= 100
           /\ 0 <= max_match r <= 100).
Proof.
  split; [exact tfidf_percentage|]. split; [exact ngram_overlap_percentage|].
  intros refs self w text use_apis verbose.
  destruct (analyze_corpus_exact refs self w text use_apis verbose)
    as [r [Hr [Hs [Ho [Hm Hc]]]]].
  exists r. split; [exact Hr|]. rewrite Hs, Ho, Hm.
  pose proof (scores_percentages text refs) as Hall.
  split; [|split].
  - apply Forall_forall. intros s Hin.
    apply (Permutation_in _ (Permutation_sym (sort_Permutation _))) in Hin.
    apply in_map_iff in Hin. destruct Hin as [ref [<- _]].
    apply combined_score_percentage.
  - destruct refs as [|ref refs]; [lra|].
    apply mean_bounds; [discriminate|exact Hall].
  - destruct (running_max_spec (map (combined_score text) refs) 0)
      as [Hle [_ [E|Hin]]]; cbn zeta in *.
    + rewrite E. lra.
    + apply (proj1 (Forall_forall _ _) Hall) in Hin. lra.
Qed.

End Exact.

Lemma tfidf_self_similarity_exact_witness :
  calculate_tfidf_similarity (num := R) (lit "a b") (lit "a b") = Ok 100%R.
Proof.
  apply (tfidf_self_similarity_exact (RT := ascii_runtime) (lit "a b")).
  vm_compute. discriminate.
Defined.

(** ** Binary64 *)

(** 100.0 *)
Definition hundred : binary64 := S754_finite false 7036874417766400 (-46).

(** C2 fails as stated in binary64: the square of the rounded square root of
    0.5 is above 0.5, and "a b" against itself scores 99.99999999999997. *)
Lemma tfidf_self_similarity_binary64_below_100 :
  split (clean_text (lit "a b")) = [lit "a"; lit "b"]
  /\ calculate_tfidf_similarity (num := binary64) (lit "a b") (lit "a b")
     = Ok (S754_finite false 7036874417766398 (-46))
  /\ of_int 100 = hundred
  /\ SFltb (S754_finite false 7036874417766398 (-46)) hundred = true.
Proof. repeat split; vm_compute; reflexivity. Qed.

Definition one_reference (text : str) : list Reference :=
  [ {| ref_id := lit "R1"; ref_name := lit "Reference 1";
       ref_type := lit "Report"; ref_text := text |} ].

(** C5 fails as stated in binary64: "a b b b b b" against itself has cosine
    100.00000000000003, and as the only reference it gives a source
    similarity, [overall_score] and [max_match] of 100.00000000000001. *)
Lemma similarity_binary64_above_100 :
  calculate_tfidf_similarity (num := binary64) (lit "a b b b b b") (lit "a b b b b b")
  = Ok (S754_finite false 7036874417766402 (-46))
  /\ SFltb hundred (S754_finite false 7036874417766402 (-46)) = true
  /\ exists r : AnalysisResult binary64,
       snd (analyze_corpus (one_reference (lit "a b b b b b"))
                           (new_checker no_keys) world_up (lit "a b b b b b")
                           false false) = Ok r
       /\ map similarity (sources r) = [S754_finite false 7036874417766401 (-46)]
       /\ overall_score r = S754_finite false 7036874417766401 (-46)
       /\ max_match r = S754_finite false 7036874417766401 (-46)
       /\ SFltb hundred (max_match r) = true.
Proof.
  split; [vm_compute; reflexivity|]. split; [vm_compute; reflexivity|].
  eexists. split; [vm_compute; reflexivity|].
  repeat split; vm_compute; reflexivity.
Qed.

(** * Further properties of the pipeline *)

(** ** Tokens and windows *)

Section Tokens.
Context {RT : Runtime}.

Lemma re_split_pieces (sep : char -> bool) (s : str) :
  Forall (fun piece => Forall (fun c => sep c = false /\ In c s) piece)
         (Py.re_split sep s).
Proof.
  induction s as [|c s IH]; cbn [Py.re_split]; [repeat constructor|].
  assert (IH' : Forall (fun piece => Forall (fun c0 => sep c0 = false /\ In c0 (c :: s)) piece)
                       (Py.re_split sep s)).
  { eapply Forall_impl; [|exact IH]. intros piece Hp.
    eapply Forall_impl; [|exact Hp]. cbn beta. intros c0 [H1 H2].
    split; [exact H1|now right]. }
  destruct (sep c) eqn:E; [constructor; [constructor|exact IH']|].
  destruct (Py.re_split sep s) as [|w ws]; [repeat constructor; auto|].
  inversion IH'; subst. constructor; [|assumption].
  constructor; [split; [exact E|now left]|assumption].
Qed.

(** A token of [s.split()] is not empty and holds no whitespace. *)
Lemma split_tokens (s : str) :
  Forall (fun w => w <> [] /\ Forall (fun c => isspace c = false /\ In c s) w)
         (split s).
Proof.
  unfold split. apply Forall_forall. intros w Hw.
  apply filter_In in Hw. destruct Hw as [Hin Hne]. split.
  - destruct w; [discriminate|discriminate].
  - exact (proj1 (Forall_forall _ _) (re_split_pieces isspace s) w Hin).
Qed.

Lemma dropwhile_incl {A} (f : A -> bool) (l : list A) (x : A) :
  In x (Py.dropwhile f l) -> In x l.
Proof.
  induction l as [|y l IH]; cbn [Py.dropwhile]; [auto|].
  destruct (f y); [intros H; right; auto|auto].
Qed.

Lemma strip_incl (s : str) (c : char) : In c (strip s) -> In c s.
Proof.
  unfold strip. intros H. apply in_rev in H. apply dropwhile_incl in H.
  apply in_rev in H. now apply dropwhile_incl in H.
Qed.

Lemma collapse_ws_chars (s : str) :
  Forall (fun c => c = SPACE \/ (isspace c = false /\ In c s)) (collapse_ws s).
Proof.
  induction s as [|c s IH]; [constructor|].
  assert (IH' : Forall (fun c0 => c0 = SPACE \/ (isspace c0 = false /\ In c0 (c :: s)))
                       (collapse_ws s)).
  { eapply Forall_impl; [|exact IH]. cbn beta. intros c0 [H|[H1 H2]]; [now left|].
    right. split; [exact H1|now right]. }
  cbn [collapse_ws]. destruct (isspace c) eqn:E.
  - destruct s as [|c' s']; [repeat constructor; now left|].
    destruct (isspace c'); [exact IH'|constructor; [now left|exact IH']].
  - constructor; [right; split; [exact E|now left]|exact IH'].
Qed.

Lemma punct_to_space_chars (s : str) :
  Forall (fun c => c = SPACE \/ isword c = true \/ isspace c = true)
         (punct_to_space s).
Proof.
  unfold punct_to_space. apply Forall_forall. intros c Hc.
  apply in_map_iff in Hc. destruct Hc as [c0 [<- _]].
  destruct (isword c0) eqn:Ew; cbn [orb negb]; [right; now left|].
  destruct (isspace c0) eqn:Es; cbn [negb]; [right; now right|now left].
Qed.

(** The normalized text holds spaces and word characters only. *)
Lemma clean_text_chars (text : str) :
  Forall (fun c => c = SPACE \/ isword c = true) (clean_text text).
Proof.
  unfold clean_text. apply Forall_forall. intros c Hc.
  apply strip_incl in Hc.
  pose proof (proj1 (Forall_forall _ _)
                (collapse_ws_chars (punct_to_space (lower text))) c Hc) as H.
  destruct H as [H|[Hs Hin]]; [now left|].
  pose proof (proj1 (Forall_forall _ _)
                (punct_to_space_chars (lower text)) c Hin) as [H|[H|H]];
    [now left|now right|congruence].
Qed.

(** X1: when the space is a whitespace character, every token of the
    normalized text is non-empty and made of word characters that are not
    whitespace: punctuation never reaches a token. *)
Theorem clean_text_tokens_are_words (text : str) :
  isspace SPACE = true ->
  Forall (fun w => w <> []
                   /\ Forall (fun c => isword c = true /\ isspace c = false) w)
         (split (clean_text text)).
Proof.
  intros Hsp. eapply Forall_impl; [|apply split_tokens].
  cbn beta. intros w [Hne Hw]. split; [exact Hne|].
  eapply Forall_impl; [|exact Hw]. cbn beta. intros c [Hs Hin].
  split; [|exact Hs].
  pose proof (proj1 (Forall_forall _ _) (clean_text_chars text) c Hin) as [->|H];
    [congruence|exact H].
Qed.

Lemma slice_window {A} (l : list A) (i n : nat) :
  (i + n <= List.length l)%nat ->
  Py.slice l (Z.of_nat i) (Z.of_nat i + Z.of_nat n) = firstn n (skipn i l).
Proof.
  intros H. unfold Py.slice, Py.clamp, Py.len.
  destruct (Z.of_nat i <? 0)%Z eqn:E1; [lia|].
  destruct (Z.of_nat i + Z.of_nat n <? 0)%Z eqn:E2; [lia|].
  f_equal; [lia|f_equal; lia].
Qed.

Lemma get_ngrams_nat_windows (text : str) (n : Z) :
  (1 <= n)%Z ->
  get_ngrams text n
  = map (fun i => Py.join [SPACE]
                    (firstn (Z.to_nat n) (skipn i (split (clean_text text)))))
        (seq 0 (Z.to_nat (Py.len (split (clean_text text)) - n + 1))).
Proof.
  intros Hn. unfold get_ngrams, Py.range. rewrite map_map.
  apply map_ext_in. intros i Hi. apply in_seq in Hi. f_equal.
  replace (Z.of_nat i + n)%Z with (Z.of_nat i + Z.of_nat (Z.to_nat n))%Z by lia.
  apply slice_window. unfold Py.len in Hi. lia.
Qed.

(** X2: for a window length [n >= 1], [get_ngrams] returns one n-gram per
    position [i] from 0 to [len(words) - n], the join by single spaces of
    the [n] tokens from position [i] on; there are [len(words) - n + 1] of
    them, and none when the text has fewer than [n] tokens. *)
Theorem get_ngrams_windows (text : str) (n : Z) :
  (1 <= n)%Z ->
  let words := split (clean_text text) in
  get_ngrams text n
  = map (fun i => Py.join [SPACE] (firstn (Z.to_nat n) (skipn i words)))
        (seq 0 (Z.to_nat (Py.len words - n + 1)))
  /\ (Py.len words < n -> get_ngrams text n = [])%Z.
Proof.
  intros Hn words. split; [now apply get_ngrams_nat_windows|].
  intros Hlt. rewrite get_ngrams_nat_windows by assumption. fold words.
  replace (Z.to_nat (Py.len words - n + 1)) with 0%nat by lia. reflexivity.
Qed.

Lemma re_split_app_token (w s : str) :
  Forall (fun c => isspace c = false) w ->
  Py.re_split isspace (w ++ s)
  = match Py.re_split isspace s with
    | [] => [w]
    | h :: t => (w ++ h) :: t
    end.
Proof.
  induction 1 as [|c w Hc _ IH]; cbn [app].
  - destruct (Py.re_split isspace s) eqn:E; [|reflexivity].
    destruct s; cbn [Py.re_split] in E; [discriminate|].
    destruct (isspace c); [discriminate|].
    destruct (Py.re_split isspace s); discriminate.
  - cbn [Py.re_split]. rewrite Hc, IH.
    destruct (Py.re_split isspace s); reflexivity.
Qed.

Definition token (w : str) : Prop :=
  w <> [] /\ Forall (fun c => isspace c = false) w.

Lemma split_token (w : str) : token w -> split w = [w].
Proof.
  intros [Hne Hw]. unfold split.
  rewrite <- (app_nil_r w) at 1. rewrite re_split_app_token by assumption.
  cbn [Py.re_split app]. rewrite app_nil_r. cbn [filter].
  destruct w; [congruence|reflexivity].
Qed.

Lemma split_token_space (w rest : str) :
  isspace SPACE = true -> token w ->
  split (w ++ SPACE :: rest) = w :: split rest.
Proof.
  intros Hsp [Hne Hw]. unfold split.
  rewrite re_split_app_token by assumption.
  cbn [Py.re_split]. rewrite Hsp, app_nil_r. cbn [filter].
  destruct w; [congruence|reflexivity].
Qed.

(** Splitting undoes joining by single spaces. *)
Lemma split_join (ws : list str) :
  isspace SPACE = true -> Forall token ws ->
  split (Py.join [SPACE] ws) = ws.
Proof.
  intros Hsp. induction 1 as [|w ws Hw Hws IH]; [reflexivity|].
  cbn [Py.join]. destruct ws as [|w' ws'].
  - now apply split_token.
  - cbn [app]. rewrite split_token_space by assumption. now rewrite IH.
Qed.

Lemma split_gives_tokens (s : str) : Forall token (split s).
Proof.
  eapply Forall_impl; [|apply split_tokens]. cbn beta.
  intros w [Hne Hw]. split; [exact Hne|].
  eapply Forall_impl; [|exact Hw]. cbn beta. now intros c [H _].
Qed.

Lemma Forall_firstn {A} (P : A -> Prop) (k : nat) (l : list A) :
  Forall P l -> Forall P (firstn k l).
Proof.
  intros H. apply Forall_forall. intros x Hx.
  apply (proj1 (Forall_forall _ _) H). eapply firstn_incl, Hx.
Qed.

Lemma Forall_skipn {A} (P : A -> Prop) (k : nat) (l : list A) :
  Forall P l -> Forall P (skipn k l).
Proof.
  revert l. induction k as [|k IH]; intros l H; [exact H|].
  destruct l; [constructor|]. inversion H; subst. cbn [skipn]. now apply IH.
Qed.

(** X3: when the space is a whitespace character and [n >= 1], every
    n-gram splits back into exactly [n] tokens, which are [n] consecutive
    tokens of the normalized text. *)
Theorem get_ngrams_split_back (text : str) (n : Z) (g : str) :
  isspace SPACE = true -> (1 <= n)%Z -> In g (get_ngrams text n) ->
  exists i,
    split g = firstn (Z.to_nat n) (skipn i (split (clean_text text)))
    /\ Py.len (split g) = n.
Proof.
  intros Hsp Hn Hg.
  rewrite (get_ngrams_nat_windows text n Hn) in Hg. apply in_map_iff in Hg. destruct Hg as [i [<- Hi]].
  apply in_seq in Hi. exists i.
  rewrite split_join;
    [|exact Hsp|apply Forall_firstn, Forall_skipn, split_gives_tokens].
  split; [reflexivity|].
  unfold Py.len in *. rewrite length_firstn, length_skipn. lia.
Qed.

End Tokens.

Lemma clean_text_tokens_are_words_witness :
  Forall (fun w => w <> []
                   /\ Forall (fun c => isword c = true /\ isspace c = false) w)
         (split (clean_text (lit "Hello, World!"))).
Proof.
  apply (clean_text_tokens_are_words (RT := ascii_runtime) (lit "Hello, World!")).
  reflexivity.
Defined.

Lemma get_ngrams_windows_witness :
  get_ngrams (lit "a b c d") 3 = [lit "a b c"; lit "b c d"].
Proof.
  apply (get_ngrams_windows (RT := ascii_runtime) (lit "a b c d") 3). lia.
Defined.

Lemma get_ngrams_split_back_witness :
  exists i,
    split (lit "b c d") = firstn 3 (skipn i (split (clean_text (lit "a b c d"))))
    /\ Py.len (split (lit "b c d")) = 3%Z.
Proof.
  apply (get_ngrams_split_back (RT := ascii_runtime) (lit "a b c d") 3 (lit "b c d")).
  - reflexivity.
  - lia.
  - vm_compute. right. left. reflexivity.
Defined.

(** ** The two measures in exact arithmetic *)

Section Measures.
Context {RT : Runtime}.
Local Open Scope R_scope.

Lemma vocab_Permutation (words1 words2 : list str) :
  Permutation (set_of (words1 ++ words2)) (set_of (words2 ++ words1)).
Proof.
  apply NoDup_Permutation; try apply set_of_NoDup.
  intros x. rewrite !set_of_In, !in_app_iff. tauto.
Qed.

Lemma dot_tf_Permutation (words1 words2 V V' : list str) :
  Permutation V V' -> dot_tf words1 words2 V = dot_tf words1 words2 V'.
Proof.
  intros H. unfold dot_tf. apply Rsum_Permutation. now apply Permutation_map.
Qed.

Lemma dot_tf_comm (words1 words2 V : list str) :
  dot_tf words1 words2 V = dot_tf words2 words1 V.
Proof.
  unfold dot_tf. f_equal. apply map_ext. intros w. apply Rmult_comm.
Qed.

Lemma tfidf_no_tokens_left (text1 text2 : str) :
  split (clean_text text1) = [] -> calculate_tfidf_similarity text1 text2 = Ok 0.
Proof. intros E. unfold calculate_tfidf_similarity. now rewrite E. Qed.

Lemma tfidf_no_tokens_right (text1 text2 : str) :
  split (clean_text text2) = [] -> calculate_tfidf_similarity text1 text2 = Ok 0.
Proof.
  intros E. unfold calculate_tfidf_similarity. rewrite E.
  now rewrite orb_true_r.
Qed.

(** X4: in exact arithmetic the cosine measure is symmetric in its two
    texts, whatever order the vocabulary set is iterated in. *)
Theorem tfidf_symmetric_exact (text1 text2 : str) :
  calculate_tfidf_similarity (num := R) text1 text2
  = calculate_tfidf_similarity text2 text1.
Proof.
  destruct (split (clean_text text1)) as [|a1 l1] eqn:E1.
  { now rewrite tfidf_no_tokens_left, tfidf_no_tokens_right. }
  destruct (split (clean_text text2)) as [|a2 l2] eqn:E2.
  { now rewrite tfidf_no_tokens_right, tfidf_no_tokens_left. }
  assert (H1 : split (clean_text text1) <> []) by (rewrite E1; discriminate).
  assert (H2 : split (clean_text text2) <> []) by (rewrite E2; discriminate).
  rewrite (tfidf_exact text1 text2 H1 H2), (tfidf_exact text2 text1 H2 H1).
  set (words1 := split (clean_text text1)).
  set (words2 := split (clean_text text2)).
  pose proof (vocab_Permutation words2 words1) as HP.
  rewrite (dot_tf_Permutation words2 words2 _ _ HP),
          (dot_tf_Permutation words1 words1 _ _ HP),
          (dot_tf_Permutation words2 words1 _ _ HP),
          (dot_tf_comm words2 words1).
  rewrite orb_comm, (Rmult_comm (sqrt (dot_tf words2 words2 _))).
  reflexivity.
Qed.

Lemma Rsum_pos_iff (l : list R) :
  Forall (fun x => 0 <= x) l -> (0 < Rsum l <-> exists x, In x l /\ 0 < x).
Proof.
  induction 1 as [|x l Hx Hl IH]; cbn [Rsum].
  - split; [lra|intros [x [[] _]]].
  - pose proof (Rsum_nonneg l Hl) as Hs. split.
    + intros Hpos. destruct (Rlt_dec 0 x) as [Hlt|Hnlt].
      * exists x. split; [now left|exact Hlt].
      * assert (Hr : 0 < Rsum l) by lra.
        apply IH in Hr. destruct Hr as [y [Hy Hpy]].
        exists y. split; [now right|exact Hpy].
    + intros [y [[->|Hy] Hpy]]; [lra|].
      assert (0 < Rsum l) by (apply IH; eauto). lra.
Qed.

Lemma tf_pos_iff (words : list str) (w : str) : 0 < tf words w <-> In w words.
Proof.
  split; [|apply tf_pos].
  intros H. apply (count_occ_In str_eq_dec).
  destruct (count_occ str_eq_dec words w) eqn:E; [|lia].
  unfold tf, Py.count in H. rewrite E in H. cbn [Z.of_nat] in H.
  unfold Rdiv in H. rewrite Rmult_0_l in H. lra.
Qed.

Lemma dot_tf_pos_iff (words1 words2 vocab : list str) :
  words1 <> [] -> words2 <> [] ->
  (0 < dot_tf words1 words2 vocab
   <-> exists w, In w vocab /\ In w words1 /\ In w words2).
Proof.
  intros H1 H2. unfold dot_tf. rewrite Rsum_pos_iff.
  - split.
    + intros [x [Hx Hpos]]. apply in_map_iff in Hx. destruct Hx as [w [<- Hw]].
      exists w. split; [exact Hw|].
      pose proof (tf_nonneg words1 w H1). pose proof (tf_nonneg words2 w H2).
      split; apply tf_pos_iff; nra.
    + intros [w [Hw [Hw1 Hw2]]]. exists (tf words1 w * tf words2 w).
      split; [apply in_map_iff; now exists w|].
      apply Rmult_lt_0_compat; now apply tf_pos.
  - apply Forall_forall. intros x Hx. apply in_map_iff in Hx.
    destruct Hx as [w [<- _]]. apply Rmult_le_pos; now apply tf_nonneg.
Qed.

(** X5: in exact arithmetic the cosine measure is positive exactly when the
    two normalized texts share a token, and 0 otherwise (also when one of
    them has no token). *)
Theorem tfidf_positive_iff_shared_token (text1 text2 : str) :
  exists v,
    calculate_tfidf_similarity text1 text2 = Ok v
    /\ (0 < v <-> exists w, In w (split (clean_text text1))
                            /\ In w (split (clean_text text2)))
    /\ (v = 0 \/ 0 < v).
Proof.
  destruct (split (clean_text text1)) as [|a1 l1] eqn:E1.
  { exists 0. rewrite tfidf_no_tokens_left by assumption.
    split; [reflexivity|]. split; [|now left].
    split; [lra|intros [w [[] _]]]. }
  destruct (split (clean_text text2)) as [|a2 l2] eqn:E2.
  { exists 0. rewrite tfidf_no_tokens_right by assumption.
    split; [reflexivity|]. split; [|now left].
    split; [lra|intros [w [_ []]]]. }
  rewrite <- E1, <- E2.
  assert (H1 : split (clean_text text1) <> []) by (rewrite E1; discriminate).
  assert (H2 : split (clean_text text2) <> []) by (rewrite E2; discriminate).
  rewrite (tfidf_exact text1 text2 H1 H2).
  set (words1 := split (clean_text text1)) in *.
  set (words2 := split (clean_text text2)) in *.
  set (vocab := set_of (words1 ++ words2)).
  destruct (vocab_covers_left words1 words2 H1) as [w1 [Hw1 Hv1]].
  assert (Hv2 : exists w2, In w2 words2 /\ In w2 vocab).
  { destruct words2 as [|w2 l]; [congruence|]. exists w2.
    split; [now left|]. apply set_of_In, in_or_app. right. now left. }
  destruct Hv2 as [w2 [Hw2 Hv2]]. fold vocab in Hv1.
  pose proof (sqrt_lt_R0 _ (dot_tf_self_pos words1 vocab w1 Hw1 Hv1)) as P1.
  pose proof (sqrt_lt_R0 _ (dot_tf_self_pos words2 vocab w2 Hw2 Hv2)) as P2.
  assert (F1 : feqb (sqrt (dot_tf words1 words1 vocab)) 0 = false)
    by (apply feqb_exact_false; lra).
  assert (F2 : feqb (sqrt (dot_tf words2 words2 vocab)) 0 = false)
    by (apply feqb_exact_false; lra).
  rewrite F1, F2. cbn [orb]. eexists. split; [reflexivity|].
  set (n := sqrt (dot_tf words1 words1 vocab) * sqrt (dot_tf words2 words2 vocab)).
  assert (Hn : 0 < n) by (unfold n; now apply Rmult_lt_0_compat).
  pose proof (dot_tf_nonneg words1 words2 vocab H1 H2) as Hd.
  pose proof (Rinv_0_lt_compat n Hn) as Hi.
  assert (Hiff : 0 < dot_tf words1 words2 vocab / n * 100
                 <-> 0 < dot_tf words1 words2 vocab).
  { unfold Rdiv. split; intros H; nra. }
  split.
  - rewrite Hiff, (dot_tf_pos_iff words1 words2 vocab H1 H2). split.
    + intros [w [_ [Ha Hb]]]. now exists w.
    + intros [w [Ha Hb]]. exists w. split; [|now split].
      apply set_of_In, in_or_app. now left.
  - destruct Hd as [Hd|Hd]; [right; now apply Hiff|left].
    rewrite <- Hd. unfold Rdiv. ring.
Qed.

Lemma filter_all_iff {A} (f : A -> bool) (l : list A) :
  List.length (filter f l) = List.length l <-> (forall x, In x l -> f x = true).
Proof.
  induction l as [|a l IH]; cbn [filter List.length In]; [tauto|].
  pose proof (filter_length_le f l) as Hle.
  destruct (f a) eqn:E; cbn [List.length].
  - split.
    + intros H x [<-|Hx]; [exact E|]. apply IH; [lia|exact Hx].
    + intros H. f_equal. apply IH. auto.
  - split; [lia|]. intros H. specialize (H a (or_introl eq_refl)). congruence.
Qed.

Lemma filter_none_iff {A} (f : A -> bool) (l : list A) :
  List.length (filter f l) = 0%nat <-> (forall x, In x l -> f x = false).
Proof.
  induction l as [|a l IH]; cbn [filter List.length In]; [tauto|].
  destruct (f a) eqn:E; cbn [List.length].
  - split; [lia|]. intros H. specialize (H a (or_introl eq_refl)). congruence.
  - rewrite IH. split; [intros H x [<-|Hx]; auto|auto].
Qed.

Lemma filter_length_mono {A} (f g : A -> bool) (l : list A) :
  (forall x, In x l -> f x = true -> g x = true) ->
  (List.length (filter f l) <= List.length (filter g l))%nat.
Proof.
  induction l as [|a l IH]; intros H; cbn [filter]; [lia|].
  assert (IH' : (List.length (filter f l) <= List.length (filter g l))%nat).
  { apply IH. intros x Hx. apply H. now right. }
  pose proof (H a (or_introl eq_refl)) as Ha.
  destruct (f a), (g a); cbn [List.length]; try lia.
Qed.

(** A second text with more n-grams scores at least as much. *)
Lemma ngram_overlap_monotone (text1 text2 text2' : str) (n : Z) :
  (forall g, In g (get_ngrams text1 n) -> In g (get_ngrams text2 n) ->
             In g (get_ngrams text2' n)) ->
  exists v v',
    calculate_ngram_overlap text1 text2 n = Ok v
    /\ calculate_ngram_overlap text1 text2' n = Ok v'
    /\ v <= v'.
Proof.
  intros Hsub. rewrite !ngram_overlap_exact. cbn zeta.
  eexists. eexists. split; [reflexivity|]. split; [reflexivity|].
  set (SA := set_of (get_ngrams text1 n)).
  destruct (Py.nonempty SA) eqn:E; [|lra].
  assert (HSA : SA <> []) by now apply nonempty_true.
  pose proof (len_pos SA HSA) as Hc.
  assert (Hle : IZR (Py.len (set_inter SA (set_of (get_ngrams text2 n))))
                <= IZR (Py.len (set_inter SA (set_of (get_ngrams text2' n))))).
  { apply IZR_le. unfold set_inter, Py.len. apply inj_le.
    apply filter_length_mono. intros g Hg Hm.
    apply mem_In. apply set_of_In. apply Hsub.
    - apply (proj1 (set_of_In _ _)). exact Hg.
    - apply (proj1 (set_of_In _ _)). apply mem_In. exact Hm. }
  apply Rmult_le_compat_r; [lra|].
  apply Rmult_le_compat_r; [|exact Hle].
  left. now apply Rinv_0_lt_compat.
Qed.

(** X6: in exact arithmetic, for a first text that has an n-gram, the
    overlap is 100 exactly when every n-gram of the first text occurs in the
    second, and 0 exactly when none does; n-grams of the second text that the
    first lacks never lower the score: a second text that has every n-gram
    the first two share scores at least as much, and one that shares the same
    n-grams with the first scores the same. *)
Theorem ngram_overlap_extremes (text1 text2 : str) (n : Z) :
  get_ngrams text1 n <> [] ->
  (calculate_ngram_overlap text1 text2 n = Ok 100
   <-> forall g, In g (get_ngrams text1 n) -> In g (get_ngrams text2 n))
  /\ (calculate_ngram_overlap text1 text2 n = Ok 0
      <-> forall g, In g (get_ngrams text1 n) -> ~ In g (get_ngrams text2 n))
  /\ (forall text2',
        (forall g, In g (get_ngrams text1 n) -> In g (get_ngrams text2 n) ->
                   In g (get_ngrams text2' n)) ->
        exists v v',
          calculate_ngram_overlap text1 text2 n = Ok v
          /\ calculate_ngram_overlap text1 text2' n = Ok v'
          /\ v <= v')
  /\ (forall text2',
        (forall g, In g (get_ngrams text1 n) ->
                   (In g (get_ngrams text2 n) <-> In g (get_ngrams text2' n))) ->
        calculate_ngram_overlap text1 text2' n
        = calculate_ngram_overlap text1 text2 n).
Proof.
  intros Hne.
  assert (Hmono : forall text2',
             (forall g, In g (get_ngrams text1 n) -> In g (get_ngrams text2 n) ->
                        In g (get_ngrams text2' n)) ->
             exists v v',
               calculate_ngram_overlap text1 text2 n = Ok v
               /\ calculate_ngram_overlap text1 text2' n = Ok v'
               /\ v <= v')
    by (intros text2'; apply ngram_overlap_monotone).
  assert (Hsame : forall text2',
             (forall g, In g (get_ngrams text1 n) ->
                        (In g (get_ngrams text2 n) <-> In g (get_ngrams text2' n))) ->
             calculate_ngram_overlap text1 text2' n
             = calculate_ngram_overlap text1 text2 n).
  { intros text2' H.
    destruct (ngram_overlap_monotone text1 text2 text2' n) as [v [v' [E1 [E2 L1]]]].
    { intros g Hg. apply H, Hg. }
    destruct (ngram_overlap_monotone text1 text2' text2 n) as [u [u' [F1 [F2 L2]]]].
    { intros g Hg. apply H, Hg. }
    rewrite E2, E1. rewrite E2 in F1. rewrite E1 in F2.
    injection F1 as <-. injection F2 as <-. f_equal. lra. }
  cut ((calculate_ngram_overlap text1 text2 n = Ok 100
        <-> forall g, In g (get_ngrams text1 n) -> In g (get_ngrams text2 n))
       /\ (calculate_ngram_overlap text1 text2 n = Ok 0
           <-> forall g, In g (get_ngrams text1 n) -> ~ In g (get_ngrams text2 n))).
  { intros [H1 H2]. split; [exact H1|]. split; [exact H2|].
    split; [exact Hmono|exact Hsame]. }
  clear Hmono Hsame.
  rewrite ngram_overlap_exact. cbn zeta.
  set (SA := set_of (get_ngrams text1 n)).
  set (SB := set_of (get_ngrams text2 n)).
  assert (HSA : SA <> []).
  { apply nonempty_true. unfold SA. rewrite set_of_nonempty.
    now apply nonempty_true. }
  rewrite (proj2 (nonempty_true SA) HSA).
  pose proof (len_pos SA HSA) as Hc.
  pose proof (filter_length_le (fun x => Py.mem x SB) SA) as Hle.
  assert (Hi : 0 <= IZR (Py.len (set_inter SA SB)) <= IZR (Py.len SA)).
  { unfold set_inter, Py.len. split; apply IZR_le; lia. }
  set (i := IZR (Py.len (set_inter SA SB))) in *.
  set (c := IZR (Py.len SA)) in *.
  assert (Heq : forall k, i / c * 100 = k * 100 <-> i = k * c).
  { intros k. unfold Rdiv. split; intros H.
    - assert (i * / c = k) by lra. subst k. field. lra.
    - rewrite H. field. lra. }
  split.
  - transitivity (List.length (filter (fun x => Py.mem x SB) SA) = List.length SA).
    + split.
      * intros [= H]. replace 100 with (1 * 100) in H at 2 by lra.
        apply Heq in H. unfold i, c, set_inter, Py.len in H.
        rewrite Rmult_1_l in H. apply eq_IZR in H. lia.
      * intros H. f_equal. replace 100 with (1 * 100) at 2 by lra.
        apply Heq. unfold i, c, set_inter, Py.len. rewrite H. lra.
    + rewrite filter_all_iff. unfold SA, SB. split.
      * intros H g Hg. apply set_of_In, mem_In, H, set_of_In, Hg.
      * intros H g Hg. apply mem_In, set_of_In, H, set_of_In, Hg.
  - transitivity (List.length (filter (fun x => Py.mem x SB) SA) = 0%nat).
    + split.
      * intros [= H]. assert (H' : i / c * 100 = 0 * 100) by lra.
        apply Heq in H'. unfold i, set_inter, Py.len in H'.
        rewrite Rmult_0_l in H'. apply eq_IZR in H'. lia.
      * intros H. f_equal. transitivity (0 * 100); [|lra].
        apply Heq. unfold i, set_inter, Py.len. rewrite H. cbn. lra.
    + rewrite filter_none_iff. unfold SA, SB. split.
      * intros H g Hg Hg2. apply (proj2 (set_of_In _ _)) in Hg.
        specialize (H g Hg). apply mem_false in H. apply H, set_of_In, Hg2.
      * intros H g Hg. apply mem_false. intros Hg2.
        apply (proj1 (set_of_In _ _)) in Hg.
        apply (proj1 (set_of_In _ _)) in Hg2. exact (H g Hg Hg2).
Qed.

End Measures.

Lemma ngram_overlap_extremes_witness :
  calculate_ngram_overlap (num := R) (lit "a b c") (lit "x a b c y") 3 = Ok 100%R.
Proof.
  apply (ngram_overlap_extremes (RT := ascii_runtime) (lit "a b c") (lit "x a b c y") 3).
  - vm_compute. discriminate.
  - intros g Hg. vm_compute in Hg. destruct Hg as [<-|[]].
    vm_compute. right. left. reflexivity.
Defined.

(** ** What a key phrase is *)

Section PhraseContent.
Context {RT : Runtime}.

Lemma first_occurrences_incl (l : list str) :
  forall seen p, In p (first_occurrences seen l) -> In p l.
Proof.
  induction l as [|q rest IH]; intros seen p; cbn [first_occurrences]; [auto|].
  destruct (Py.mem (lower q) seen).
  - intros H. right. eapply IH, H.
  - intros [<-|H]; [now left|right; eapply IH, H].
Qed.

Lemma qualifying_In (sentences : list str) (min_words : Z) (p : str) :
  In p (qualifying sentences min_words) ->
  exists sentence, In sentence sentences /\ phrase_of sentence min_words = Some p.
Proof.
  induction sentences as [|s rest IH]; cbn [qualifying]; [intros []|].
  destruct (phrase_of s min_words) as [q|] eqn:E.
  - intros [<-|H]; [exists s; split; [now left|exact E]|].
    destruct (IH H) as [s' [Hs' Hp]]. exists s'. split; [now right|exact Hp].
  - intros H. destruct (IH H) as [s' [Hs' Hp]].
    exists s'. split; [now right|exact Hp].
Qed.

Lemma extract_key_phrases_In (text : str) (min_words max_phrases : Z) (p : str) :
  In p (extract_key_phrases text min_words max_phrases) ->
  exists sentence,
    In sentence (Py.re_split is_terminator text)
    /\ phrase_of sentence min_words = Some p.
Proof.
  unfold extract_key_phrases. rewrite key_phrase_loop_spec. cbn [app].
  intros H. apply firstn_incl, first_occurrences_incl in H.
  now apply qualifying_In.
Qed.

Lemma key_phrase_origin (text : str) (min_words max_phrases : Z) (p : str) :
  In p (extract_key_phrases text min_words max_phrases) ->
  (20 < Py.len p)%Z
  /\ exists sentence,
       In sentence (Py.re_split is_terminator text)
       /\ Forall (fun c => is_terminator c = false) sentence
       /\ (min_words <= Py.len (split (strip_punct sentence)))%Z
       /\ p = Py.join [SPACE]
                (Py.slice (split (strip_punct sentence)) 0 min_words).
Proof.
  intros Hp.
  apply extract_key_phrases_In in Hp. destruct Hp as [s [Hs Hp]].
  unfold phrase_of in Hp.
  destruct (Py.len (split (strip_punct s)) >=? min_words)%Z eqn:E1;
    [|discriminate].
  destruct (Py.len (Py.join [SPACE] (Py.slice (split (strip_punct s)) 0 min_words))
            >? 20)%Z eqn:E2; [|discriminate].
  injection Hp as <-. split; [lia|]. exists s. split; [exact Hs|].
  split; [|split; [lia|reflexivity]].
  pose proof (proj1 (Forall_forall _ _) (re_split_pieces is_terminator text) s Hs) as H.
  eapply Forall_impl; [|exact H]. cbn beta. now intros c [Hc _].
Qed.

(** X7: every phrase returned by [extract_key_phrases] is longer than 20
    characters and is the first [min_words] tokens, joined by single spaces,
    of a sentence of the text (a piece between the terminators '.', '!' and
    '?', which holds none of them) that has at least [min_words] tokens once
    its punctuation is removed. *)
Theorem extract_key_phrases_content (text : str) (min_words max_phrases : Z) :
  Forall (fun p =>
            (20 < Py.len p)%Z
            /\ exists sentence,
                 In sentence (Py.re_split is_terminator text)
                 /\ Forall (fun c => is_terminator c = false) sentence
                 /\ (min_words <= Py.len (split (strip_punct sentence)))%Z
                 /\ p = Py.join [SPACE]
                          (Py.slice (split (strip_punct sentence)) 0 min_words))
         (extract_key_phrases text min_words max_phrases).
Proof.
  apply Forall_forall. intros p Hp.
  destruct (key_phrase_origin text min_words max_phrases p Hp) as [Hlen Hs].
  split; [exact Hlen|exact Hs].
Qed.

Lemma slice_prefix {A} (l : list A) (k : Z) :
  (0 <= k <= Py.len l)%Z -> Py.slice l 0 k = firstn (Z.to_nat k) l.
Proof.
  intros H. unfold Py.slice, Py.clamp. cbn [Z.ltb Z.compare].
  destruct (k <? 0)%Z eqn:E; [lia|].
  replace (Z.to_nat (Z.min 0 (Py.len l))) with 0%nat by (unfold Py.len in *; lia).
  cbn [skipn]. f_equal. lia.
Qed.

(** X8: when the space is a whitespace character and [min_words >= 0],
    every returned key phrase splits back into exactly [min_words] tokens;
    [analyze], which asks for 6, gets six-word phrases. *)
Theorem extract_key_phrases_token_count (text : str) (min_words max_phrases : Z)
        (p : str) :
  isspace SPACE = true -> (0 <= min_words)%Z ->
  In p (extract_key_phrases text min_words max_phrases) ->
  Py.len (split p) = min_words.
Proof.
  intros Hsp Hmin Hp.
  destruct (key_phrase_origin text min_words max_phrases p Hp)
    as [_ [s [_ [_ [Hlen ->]]]]].
  rewrite slice_prefix by lia.
  rewrite split_join; [|exact Hsp|apply Forall_firstn, split_gives_tokens].
  unfold Py.len in *. rewrite length_firstn. lia.
Qed.

End PhraseContent.

Lemma extract_key_phrases_token_count_witness :
  Py.len (split (lit "alpha beta gamma delta epsilon zeta")) = 6%Z.
Proof.
  apply (extract_key_phrases_token_count (RT := ascii_runtime)
           (lit "alpha beta gamma delta epsilon zeta eta. Short one.") 6 15
           (lit "alpha beta gamma delta epsilon zeta")).
  - reflexivity.
  - lia.
  - vm_compute. left. reflexivity.
Defined.

(** ** The result of [analyze], for any arithmetic *)

Section AnyArithmetic.
Context {RT : Runtime}.
Context {num : Type} {AR : Arith num}.

Lemma insert_desc_perm (x : SourceMatch num) (l : list (SourceMatch num)) :
  Permutation (x :: l) (insert_desc x l).
Proof.
  induction l as [|y l IH]; cbn [insert_desc]; [reflexivity|].
  destruct (fltb (similarity x) (similarity y)); [|reflexivity].
  rewrite perm_swap. now apply perm_skip.
Qed.

Lemma sort_perm (l : list (SourceMatch num)) :
  Permutation l (sort_by_similarity_desc l).
Proof.
  induction l as [|x l IH]; cbn [sort_by_similarity_desc fold_right];
    [reflexivity|].
  rewrite <- insert_desc_perm. now apply perm_skip.
Qed.

(** What the scoring loop appends: one entry per reference, in order, named
    and typed after it, with no url and no matched phrases. *)
Definition entry_of (ref : Reference) (s : SourceMatch num) : Prop :=
  name s = ref_name ref /\ source_type s = ref_type ref
  /\ url s = None /\ matched_phrases s = None.

Lemma score_loop_shape (refs : list Reference) (text : str) :
  forall acc m srcs m',
    score_loop refs text acc m = Ok (srcs, m') ->
    exists new, srcs = acc ++ new /\ Forall2 entry_of refs new.
Proof.
  induction refs as [|ref refs IH]; intros acc m srcs m'; cbn [score_loop].
  - intros [= <- <-]. exists []. split; [now rewrite app_nil_r|constructor].
  - destruct (calculate_tfidf_similarity text (ref_text ref)) as [t|e];
      cbn [bind]; [|discriminate].
    destruct (calculate_ngram_overlap text (ref_text ref) 3) as [g|e];
      cbn [bind]; [|discriminate].
    intros H. apply IH in H. destruct H as [new [-> Hnew]].
    eexists. rewrite <- app_assoc. split; [reflexivity|].
    constructor; [|exact Hnew]. repeat split.
Qed.

Lemma entries_names (refs : list Reference) (new : list (SourceMatch num)) :
  Forall2 entry_of refs new ->
  map (fun s => (name s, source_type s)) new
  = map (fun ref => (ref_name ref, ref_type ref)) refs
  /\ Forall (fun s => url s = None /\ matched_phrases s = None) new.
Proof.
  induction 1 as [|ref s refs' new' [Hn [Ht [Hu Hm]]] _ [IH1 IH2]];
    [split; [reflexivity|constructor]|].
  cbn [map]. rewrite Hn, Ht, IH1. split; [reflexivity|]. now constructor.
Qed.

(** The fields of a returned result, read off [analyze]. *)
Lemma analyze_corpus_inv (refs : list Reference) (self : PlagiarismChecker)
      (w : World) (text : str) (use_apis verbose : bool)
      (r : AnalysisResult num) :
  snd (analyze_corpus refs self w text use_apis verbose) = Ok r ->
  exists srcs m,
    score_loop refs text [] zero = Ok (srcs, m)
    /\ sources r = sort_by_similarity_desc srcs
    /\ max_match r = m
    /\ word_count r = Py.len (split text)
    /\ unique_words r = Py.len (set_of (map lower (split text)))
    /\ sources_checked r = Py.len (sort_by_similarity_desc srcs)
    /\ key_phrases r = map classify_phrase (extract_key_phrases text 6 15)
    /\ api_status r
       = snd (api_checks self w text use_apis verbose (initial_status self))
    /\ timestamp r = now_isoformat w
    /\ fst (analyze_corpus (num := num) refs self w text use_apis verbose)
       = fst (api_checks self w text use_apis verbose (initial_status self)).
Proof.
  unfold analyze_corpus.
  destruct (score_loop refs text [] zero) as [[srcs m]|e]; [|discriminate].
  destruct (api_checks self w text use_apis verbose (initial_status self))
    as [ev st].
  cbn [snd fst].
  destruct (if Py.nonempty _ then _ else _) as [o|e]; cbn [bind]; [|discriminate].
  intros [= <-]. exists srcs, m. cbn. repeat split; reflexivity.
Qed.

Lemma NoDup_incl_len (l l' : list str) :
  NoDup l -> incl l l' -> (Py.len l <= Py.len l')%Z.
Proof.
  intros H Hi. unfold Py.len. apply inj_le. now apply NoDup_incl_length.
Qed.

(** X9: in a returned result [word_count] is the number of
    whitespace-separated tokens of the raw text (punctuation kept), and
    [0 <= unique_words <= word_count], with [unique_words = 0] only for a
    text without tokens. *)
Theorem analyze_word_counts (refs : list Reference) (self : PlagiarismChecker)
        (w : World) (text : str) (use_apis verbose : bool)
        (r : AnalysisResult num) :
  snd (analyze_corpus refs self w text use_apis verbose) = Ok r ->
  word_count r = Py.len (split text)
  /\ (0 <= unique_words r <= word_count r)%Z
  /\ (unique_words r = 0%Z <-> word_count r = 0%Z).
Proof.
  intros Hr. apply analyze_corpus_inv in Hr.
  destruct Hr as [srcs [m [_ [_ [_ [Hw [Hu _]]]]]]]. rewrite Hw, Hu.
  split; [reflexivity|].
  assert (Hle : (Py.len (set_of (map lower (split text)))
                 <= Py.len (map lower (split text)))%Z).
  { apply NoDup_incl_len; [apply set_of_NoDup|].
    intros x Hx. now apply set_of_In. }
  unfold Py.len in *. rewrite length_map in Hle.
  split; [lia|]. split; [|lia]. intros H0.
  destruct (split text) as [|a l]; [reflexivity|]. exfalso.
  destruct (set_of (map lower (a :: l))) as [|b l'] eqn:E;
    [|cbn [List.length] in H0; lia].
  pose proof (proj2 (set_of_In (map lower (a :: l)) (lower a))
                (or_introl eq_refl)) as Hin.
  rewrite E in Hin. exact Hin.
Qed.

(** X10: a returned result has exactly one source per reference:
    [sources_checked] is the size of the corpus, the (name, type) pairs of
    the sources are those of the references up to order, and no source
    carries a url or matched phrases. *)
Theorem analyze_one_source_per_reference (refs : list Reference)
        (self : PlagiarismChecker) (w : World) (text : str)
        (use_apis verbose : bool) (r : AnalysisResult num) :
  snd (analyze_corpus refs self w text use_apis verbose) = Ok r ->
  sources_checked r = Py.len refs
  /\ Permutation (map (fun s => (name s, source_type s)) (sources r))
                 (map (fun ref => (ref_name ref, ref_type ref)) refs)
  /\ Forall (fun s => url s = None /\ matched_phrases s = None) (sources r).
Proof.
  intros Hr. apply analyze_corpus_inv in Hr.
  destruct Hr as [srcs [m [Hl [Hs [_ [_ [_ [Hc _]]]]]]]].
  apply score_loop_shape in Hl. destruct Hl as [new [-> Hnew]]. cbn [app] in *.
  rewrite Hc, Hs. pose proof (sort_perm new) as HP.
  destruct (entries_names refs new Hnew) as [Hmap Hnone].
  split; [|split].
  - unfold Py.len. f_equal. rewrite <- (Permutation_length HP).
    now apply Forall2_length in Hnew.
  - rewrite <- Hmap. apply Permutation_map. now symmetry.
  - exact (Permutation_Forall HP Hnone).
Qed.

Lemma contains_spec (p s : str) :
  Py.contains p s = true <-> exists pre post, s = pre ++ p ++ post.
Proof.
  assert (Hsw : forall p s, Py.startswith p s = true <-> exists post, s = p ++ post).
  { clear. induction p as [|a p IH]; intros s; cbn [Py.startswith].
    - split; [intros _; now exists s|reflexivity].
    - destruct s as [|b s]; [split; [discriminate|intros [post H]; discriminate]|].
      rewrite andb_true_iff, N.eqb_eq, IH. split.
      + intros [-> [post ->]]. now exists post.
      + intros [post [= -> ->]]. split; [reflexivity|now exists post]. }
  induction s as [|c s IH]; cbn [Py.contains]; rewrite orb_true_iff, Hsw.
  - split.
    + intros [[post H]|H]; [|discriminate]. exists [], post. exact H.
    + intros [pre [post H]]. left. destruct pre; [now exists post|discriminate].
  - rewrite IH. split.
    + intros [[post H]|[pre [post H]]]; [exists [], post; exact H|].
      exists (c :: pre), post. cbn [app]. now rewrite H.
    + intros [pre [post H]]. destruct pre as [|c' pre].
      * left. now exists post.
      * right. injection H as _ H. now exists pre, post.
Qed.

(** X11: a returned result lists at most 15 key phrases, those of
    [extract_key_phrases(text, 6, 15)] in order; a phrase is marked found
    exactly when its lowercase form contains 'the results show', 'in this
    study' or 'we found that' as a substring, and its source is then 'Common
    Pattern' and otherwise [None]. *)
Theorem analyze_key_phrases (refs : list Reference) (self : PlagiarismChecker)
        (w : World) (text : str) (use_apis verbose : bool)
        (r : AnalysisResult num) :
  snd (analyze_corpus refs self w text use_apis verbose) = Ok r ->
  map kp_text (key_phrases r) = extract_key_phrases text 6 15
  /\ (Py.len (key_phrases r) <= 15)%Z
  /\ Forall (fun k =>
               (kp_found k = true
                <-> exists pattern pre post,
                      In pattern common_patterns
                      /\ lower (kp_text k) = pre ++ pattern ++ post)
               /\ kp_source k
                  = if kp_found k then Some (lit "Common Pattern") else None)
            (key_phrases r).
Proof.
  intros Hr. apply analyze_corpus_inv in Hr.
  destruct Hr as [srcs [m [_ [_ [_ [_ [_ [_ [Hk _]]]]]]]]]. rewrite Hk.
  split; [|split].
  - rewrite map_map. cbn [kp_text classify_phrase]. apply map_id.
  - unfold Py.len, extract_key_phrases. rewrite length_map, key_phrase_loop_spec.
    cbn [app]. rewrite length_firstn. unfold Py.len. cbn [List.length]. lia.
  - apply Forall_forall. intros k Hin. apply in_map_iff in Hin.
    destruct Hin as [p [<- _]]. cbn [kp_found kp_text kp_source classify_phrase].
    split; [|reflexivity]. rewrite existsb_exists. split.
    + intros [pattern [Hp Hc]]. apply contains_spec in Hc.
      destruct Hc as [pre [post Hc]]. now exists pattern, pre, post.
    + intros [pattern [pre [post [Hp Hc]]]]. exists pattern.
      split; [exact Hp|]. apply contains_spec. now exists pre, post.
Qed.

End AnyArithmetic.

Lemma analyze_word_counts_witness :
  exists r : AnalysisResult binary64,
    snd (analyze_corpus ACADEMIC_REFERENCES (new_checker no_keys) world_up
                        (lit "Tb tb TB, delay.") false false) = Ok r
    /\ word_count r = 4%Z /\ unique_words r = 3%Z.
Proof.
  eassert (E : snd (analyze_corpus (num := binary64) ACADEMIC_REFERENCES
                      (new_checker no_keys) world_up (lit "Tb tb TB, delay.")
                      false false) = Ok _) by (vm_compute; reflexivity).
  eexists. split; [exact E|].
  pose proof (analyze_word_counts _ _ _ _ _ _ _ E) as [Hw _].
  split; [rewrite Hw|]; vm_compute; reflexivity.
Defined.

Lemma analyze_one_source_per_reference_witness :
  exists r : AnalysisResult binary64,
    snd (analyze_corpus ACADEMIC_REFERENCES (new_checker no_keys) world_up
                        (lit "Tb tb TB, delay.") false false) = Ok r
    /\ sources_checked r = 5%Z.
Proof.
  eassert (E : snd (analyze_corpus (num := binary64) ACADEMIC_REFERENCES
                      (new_checker no_keys) world_up (lit "Tb tb TB, delay.")
                      false false) = Ok _) by (vm_compute; reflexivity).
  eexists. split; [exact E|].
  apply (analyze_one_source_per_reference _ _ _ _ _ _ _ E).
Defined.

Lemma analyze_key_phrases_witness :
  exists r : AnalysisResult binary64,
    snd (analyze_corpus ACADEMIC_REFERENCES (new_checker no_keys) world_up
                        (lit "In this study we measured delays of treatment. Ok.")
                        false false) = Ok r
    /\ map kp_text (key_phrases r) = [lit "In this study we measured delays"].
Proof.
  eassert (E : snd (analyze_corpus (num := binary64) ACADEMIC_REFERENCES
                      (new_checker no_keys) world_up
                      (lit "In this study we measured delays of treatment. Ok.")
                      false false) = Ok _) by (vm_compute; reflexivity).
  eexists. split; [exact E|].
  pose proof (analyze_key_phrases _ _ _ _ _ _ _ E) as [Hk _].
  rewrite Hk. vm_compute. reflexivity.
Defined.

(** ** Services, status table and what they cannot touch *)

Section StatusTable.
Context {RT : Runtime}.
Context {num : Type} {AR : Arith num}.

Definition status_keys : list str :=
  [lit "Copyleaks"; lit "ZeroGPT"; lit "Google Scholar"; lit "Local TF-IDF";
   lit "N-gram Analysis"].

(** The calls [analyze] makes when it reaches the block under [use_apis]. *)
Definition expected_calls (self : PlagiarismChecker) (text : str)
           (use_apis verbose : bool) : list event :=
  match copyleaks self with
  | Some api => if use_apis && verbose then [CopyleaksCheck api text true] else []
  | None => []
  end
  ++ match zerogpt self with
     | Some api => if use_apis && verbose then [ZeroGPTCheck api text] else []
     | None => []
     end.

Lemma api_checks_calls (self : PlagiarismChecker) (w : World) (text : str)
      (use_apis verbose : bool) (st : dict str) :
  fst (api_checks self w text use_apis verbose st)
  = expected_calls self text use_apis verbose.
Proof.
  unfold api_checks, expected_calls.
  destruct use_apis, verbose, (copyleaks self), (zerogpt self); reflexivity.
Qed.

(** The status table after the block under [use_apis]. *)
Lemma api_checks_table (self : PlagiarismChecker) (w : World) (text : str)
      (use_apis verbose : bool) :
  let st := snd (api_checks self w text use_apis verbose (initial_status self)) in
  map fst st = status_keys
  /\ dict_get st (lit "Copyleaks") []
     = match copyleaks self with
       | None => lit "Not configured"
       | Some api =>
           if use_apis && verbose
           then if copyleaks_check_plagiarism w api text true
                then lit "Submitted" else lit "Error"
           else lit "Ready"
       end
  /\ dict_get st (lit "ZeroGPT") []
     = match zerogpt self with
       | None => lit "Not configured"
       | Some api =>
           if use_apis && verbose
           then if zerogpt_check w api text then lit "Complete" else lit "Error"
           else lit "Ready"
       end
  /\ dict_get st (lit "Google Scholar") []
     = match google self with
       | None => lit "Not configured"
       | Some _ => lit "Ready"
       end
  /\ dict_get st (lit "Local TF-IDF") [] = lit "Active"
  /\ dict_get st (lit "N-gram Analysis") [] = lit "Active".
Proof.
  unfold api_checks, initial_status.
  destruct use_apis, verbose, (copyleaks self) as [ca|], (zerogpt self) as [za|],
    (google self) as [ga|];
    try destruct (copyleaks_check_plagiarism w ca text true);
    try destruct (zerogpt_check w za text);
    repeat split; reflexivity.
Qed.

(** X12: the [api_status] of a returned result always has the same five
    keys in the same order, whatever the flags and the services' answers;
    the two local engines are 'Active', and the Google Scholar entry only
    says whether it is configured, since [analyze] never searches. *)
Theorem analyze_status_table_shape (refs : list Reference)
        (self : PlagiarismChecker) (w : World) (text : str)
        (use_apis verbose : bool) (r : AnalysisResult num) :
  snd (analyze_corpus refs self w text use_apis verbose) = Ok r ->
  map fst (api_status r) = status_keys
  /\ dict_get (api_status r) (lit "Local TF-IDF") [] = lit "Active"
  /\ dict_get (api_status r) (lit "N-gram Analysis") [] = lit "Active"
  /\ dict_get (api_status r) (lit "Google Scholar") []
     = match google self with
       | None => lit "Not configured"
       | Some _ => lit "Ready"
       end.
Proof.
  intros Hr. apply analyze_corpus_inv in Hr.
  destruct Hr as [srcs [m [_ [_ [_ [_ [_ [_ [_ [Hst _]]]]]]]]]]. rewrite Hst.
  destruct (api_checks_table self w text use_apis verbose)
    as [Hk [_ [_ [Hg [Ht Hn]]]]].
  repeat split; assumption.
Qed.

(** X13: every call [analyze] makes to a detection service is for a
    configured service, on the analysed text, and a Copyleaks scan is always
    in sandbox mode; when [analyze] returns, it has made at most one call per
    service, Copyleaks first, and exactly those of the configured services
    when [use_apis] and [verbose] are both set. *)
Theorem analyze_service_calls (refs : list Reference) (self : PlagiarismChecker)
        (w : World) (text : str) (use_apis verbose : bool) :
  Forall (fun e =>
            match e with
            | CopyleaksCheck api t sandbox =>
                copyleaks self = Some api /\ t = text /\ sandbox = true
            | ZeroGPTCheck api t => zerogpt self = Some api /\ t = text
            end)
         (fst (analyze_corpus (num := num) refs self w text use_apis verbose))
  /\ (forall r : AnalysisResult num,
        snd (analyze_corpus refs self w text use_apis verbose) = Ok r ->
        fst (analyze_corpus (num := num) refs self w text use_apis verbose)
        = expected_calls self text use_apis verbose).
Proof.
  split.
  - destruct (analyze_corpus_events refs self w text use_apis verbose) as [E|E];
      rewrite E; [constructor|].
    rewrite api_checks_calls. unfold expected_calls.
    destruct (copyleaks self) as [ca|], (zerogpt self) as [za|],
      (use_apis && verbose); cbn [app]; repeat constructor.
  - intros r Hr. apply analyze_corpus_inv in Hr.
    destruct Hr as [srcs [m [_ [_ [_ [_ [_ [_ [_ [_ [_ He]]]]]]]]]]].
    now rewrite He, api_checks_calls.
Qed.

(** X14: with [use_apis] and [verbose] set, a returned result reports
    'Submitted' for Copyleaks when the scan call gave a result and 'Error'
    when it gave none, and 'Complete' or 'Error' for ZeroGPT likewise; a
    failing service is recorded, not raised. *)
Theorem analyze_records_service_outcome (refs : list Reference)
        (self : PlagiarismChecker) (w : World) (text : str)
        (r : AnalysisResult num) :
  snd (analyze_corpus refs self w text true true) = Ok r ->
  (forall api, copyleaks self = Some api ->
     dict_get (api_status r) (lit "Copyleaks") []
     = if copyleaks_check_plagiarism w api text true
       then lit "Submitted" else lit "Error")
  /\ (forall api, zerogpt self = Some api ->
        dict_get (api_status r) (lit "ZeroGPT") []
        = if zerogpt_check w api text then lit "Complete" else lit "Error").
Proof.
  intros Hr. apply analyze_corpus_inv in Hr.
  destruct Hr as [srcs [m [_ [_ [_ [_ [_ [_ [_ [Hst _]]]]]]]]]]. rewrite Hst.
  destruct (api_checks_table self w text true true) as [_ [Hc [Hz _]]].
  cbn zeta in Hc, Hz. cbn [andb] in Hc, Hz.
  split; intros api Hapi; [rewrite Hc|rewrite Hz]; now rewrite Hapi.
Qed.

End StatusTable.

Definition both_keys : APIConfig :=
  {| copyleaks_email := Some (lit "a@b.c"); copyleaks_key := Some (lit "k1");
     zerogpt_key := Some (lit "k2");
     google_api_key := None; google_cse_id := None |}.

Lemma analyze_status_table_shape_witness :
  exists r : AnalysisResult binary64,
    snd (analyze_corpus ACADEMIC_REFERENCES (new_checker both_keys) world_down
                        (lit "a b") true true) = Ok r
    /\ map fst (api_status r) = status_keys.
Proof.
  eassert (E : snd (analyze_corpus (num := binary64) ACADEMIC_REFERENCES
                      (new_checker both_keys) world_down (lit "a b")
                      true true) = Ok _) by (vm_compute; reflexivity).
  eexists. split; [exact E|].
  apply (analyze_status_table_shape _ _ _ _ _ _ _ E).
Defined.

Lemma analyze_service_calls_witness :
  exists r : AnalysisResult binary64,
    snd (analyze_corpus ACADEMIC_REFERENCES (new_checker both_keys) world_down
                        (lit "a b") true true) = Ok r
    /\ List.length (fst (analyze_corpus (num := binary64) ACADEMIC_REFERENCES
                           (new_checker both_keys) world_down (lit "a b")
                           true true)) = 2%nat.
Proof.
  eassert (E : snd (analyze_corpus (num := binary64) ACADEMIC_REFERENCES
                      (new_checker both_keys) world_down (lit "a b")
                      true true) = Ok _) by (vm_compute; reflexivity).
  eexists. split; [exact E|].
  rewrite (proj2 (analyze_service_calls (num := binary64) ACADEMIC_REFERENCES
                    (new_checker both_keys) world_down (lit "a b") true true)
                 _ E).
  reflexivity.
Defined.

Lemma analyze_records_service_outcome_witness :
  exists r : AnalysisResult binary64,
    snd (analyze_corpus ACADEMIC_REFERENCES (new_checker both_keys) world_down
                        (lit "a b") true true) = Ok r
    /\ dict_get (api_status r) (lit "Copyleaks") [] = lit "Error".
Proof.
  eassert (E : snd (analyze_corpus (num := binary64) ACADEMIC_REFERENCES
                      (new_checker both_keys) world_down (lit "a b")
                      true true) = Ok _) by (vm_compute; reflexivity).
  eexists. split; [exact E|].
  apply (proj1 (analyze_records_service_outcome _ _ _ _ _ E)
               {| cl_email := lit "a@b.c"; cl_api_key := lit "k1" |}).
  reflexivity.
Defined.

(** ** Report and console verdicts *)

(** The verdict strings of [generate_markdown_report] and [main]. *)
Definition EXCELLENT : str := 128994%N :: lit " Excellent".
Definition GOOD : str := 128994%N :: lit " Good".
Definition MODERATE : str := 128993%N :: lit " Moderate".
Definition HIGH : str := 128308%N :: lit " High".
Definition PASS : str := 9989%N :: lit " Pass".
Definition REVIEW : str := 9888%N :: 65039%N :: lit " Review".
Definition FLAG : str := 10060%N :: lit " Flag".
Definition READY : str :=
  lit "> " ++ 9989%N
  :: lit " **Ready for Submission** - Document shows very low similarity." ++ [10%N].
Definition REVIEW_RECOMMENDED : str :=
  lit "> " ++ 9888%N :: 65039%N
  :: lit " **Review Recommended** - Some similarity detected. Check flagged sources."
  ++ [10%N].
Definition REVISION_REQUIRED : str :=
  lit "> " ++ 10060%N
  :: lit " **Revision Required** - Significant similarity. Please revise matched sections."
  ++ [10%N].

Section Verdicts.
Context {num : Type} {AR : Arith num}.

(** [get_status] inside [generate_markdown_report]. *)
Definition get_status (score : num) : str :=
  if fltb score (of_int 10) then EXCELLENT
  else if fltb score (of_int 20) then GOOD
  else if fltb score (of_int 30) then MODERATE
  else HIGH.

(** The status of one row of the source table of the report. *)
Definition source_status (s : SourceMatch num) : str :=
  if fltb (similarity s) (of_int 15) then PASS
  else if fltb (similarity s) (of_int 25) then REVIEW
  else FLAG.

(** The line the report adds under Recommendations. *)
Definition recommendation (result : AnalysisResult num) : str :=
  if fltb (overall_score result) (of_int 15) then READY
  else if fltb (overall_score result) (of_int 25) then REVIEW_RECOMMENDED
  else REVISION_REQUIRED.

(** The statuses of the rows of the source table, in the order written. *)
Definition source_rows (result : AnalysisResult num) : list str :=
  map source_status (sources result).

End Verdicts.

Section VerdictsExact.
Context {RT : Runtime}.
Local Open Scope R_scope.

Lemma Rsum_le_bound (l : list R) (b : R) :
  Forall (fun s => s <= b) l -> Rsum l <= b * IZR (Py.len l).
Proof.
  unfold Py.len.
  induction 1 as [|x l Hx _ IH]; cbn [Rsum List.length]; [simpl; lra|].
  rewrite Nat2Z.inj_succ, succ_IZR. lra.
Qed.

Lemma Rsum_ge_bound (l : list R) (b : R) :
  Forall (fun s => b <= s) l -> b * IZR (Py.len l) <= Rsum l.
Proof.
  unfold Py.len.
  induction 1 as [|x l Hx _ IH]; cbn [Rsum List.length]; [simpl; lra|].
  rewrite Nat2Z.inj_succ, succ_IZR. lra.
Qed.

Lemma mean_le_bound (l : list R) (b : R) :
  l <> [] -> Forall (fun s => s <= b) l -> mean l <= b.
Proof.
  intros Hne Hall. unfold mean.
  pose proof (Rsum_le_bound l b Hall) as Hs. pose proof (len_pos l Hne) as Hn.
  apply (Rmult_le_reg_r (IZR (Py.len l))); [assumption|].
  unfold Rdiv. rewrite Rmult_assoc, Rinv_l by lra. lra.
Qed.

Lemma mean_lt_bound (l : list R) (b : R) :
  l <> [] -> Forall (fun s => s < b) l -> mean l < b.
Proof.
  intros Hne Hall. unfold mean. pose proof (len_pos l Hne) as Hn.
  assert (Hs : Rsum l < b * IZR (Py.len l)).
  { clear Hn. unfold Py.len. destruct l as [|x l]; [congruence|]. clear Hne.
    inversion Hall as [|? ? Hx Hl]; subst. cbn [Rsum List.length].
    rewrite Nat2Z.inj_succ, succ_IZR.
    assert (Rsum l <= b * IZR (Z.of_nat (List.length l))).
    { apply (Rsum_le_bound l b). eapply Forall_impl; [|exact Hl].
      cbn beta. intros; lra. }
    lra. }
  apply (Rmult_lt_reg_r (IZR (Py.len l))); [assumption|].
  unfold Rdiv. rewrite Rmult_assoc, Rinv_l by lra. lra.
Qed.

(** The result of [analyze] in exact arithmetic, by its scores. *)
Lemma analyze_scores_exact (refs : list Reference) (self : PlagiarismChecker)
      (w : World) (text : str) (use_apis verbose : bool) :
  exists r : AnalysisResult R,
    snd (analyze_corpus refs self w text use_apis verbose) = Ok r
    /\ Permutation (map (combined_score text) refs) (map similarity (sources r))
    /\ StronglySorted ge_similarity (sources r)
    /\ Forall (fun s => 0 <= s) (map (combined_score text) refs)
    /\ overall_score r
       = match refs with
         | [] => 0
         | _ :: _ => mean (map (combined_score text) refs)
         end
    /\ max_match r = fold_left Rmax (map (combined_score text) refs) 0.
Proof.
  destruct (analyze_corpus_exact refs self w text use_apis verbose)
    as [r [Hr [Hs [Ho [Hm _]]]]].
  exists r. split; [exact Hr|]. rewrite Hs.
  split; [apply sorted_scores_Permutation|]. split; [apply sort_sorted|].
  split; [|split; assumption].
  eapply Forall_impl; [|apply (scores_percentages text refs)].
  cbn beta. intros; lra.
Qed.

(** X16: in exact arithmetic [analyze] returns a result with
    [0 <= overall_score <= max_match], and [max_match] is 0 exactly when
    every source has similarity 0. *)
Theorem analyze_overall_below_max (refs : list Reference)
        (self : PlagiarismChecker) (w : World) (text : str)
        (use_apis verbose : bool) :
  exists r : AnalysisResult R,
    snd (analyze_corpus refs self w text use_apis verbose) = Ok r
    /\ 0 <= overall_score r <= max_match r
    /\ (max_match r = 0 <-> Forall (fun s => similarity s = 0) (sources r)).
Proof.
  destruct (analyze_scores_exact refs self w text use_apis verbose)
    as [r [Hr [HP [_ [Hpos [Ho Hm]]]]]].
  exists r. split; [exact Hr|]. rewrite Ho, Hm.
  destruct (running_max_spec (map (combined_score text) refs) 0)
    as [Hle [Hall Hin]]. cbn zeta in *.
  set (scores := map (combined_score text) refs) in *.
  set (m := fold_left Rmax scores 0) in *.
  split.
  - destruct refs as [|ref refs]; [lra|].
    assert (Hne : scores <> []) by discriminate. split.
    + unfold mean. apply Rmult_le_pos; [now apply Rsum_nonneg|].
      left. apply Rinv_0_lt_compat. now apply len_pos.
    + now apply mean_le_bound.
  - rewrite <- Forall_map with (f := similarity) (P := fun v => v = 0).
    split.
    + intros E. apply (Permutation_Forall HP). apply Forall_forall. intros s Hs.
      pose proof (proj1 (Forall_forall _ _) Hall s Hs).
      pose proof (proj1 (Forall_forall _ _) Hpos s Hs). lra.
    + intros H0. apply (Permutation_Forall (Permutation_sym HP)) in H0.
      destruct Hin as [E|Hin]; [exact E|].
      exact (proj1 (Forall_forall _ _) H0 m Hin).
Qed.

Lemma verdict_pass (s : SourceMatch R) : source_status s = PASS <-> similarity s < 15.
Proof.
  unfold source_status. destruct (fltb (similarity s) (of_int 15)) eqn:E.
  - apply fltb_exact in E. cbn [of_int exact_arith] in E. tauto.
  - apply fltb_exact_false in E. cbn [of_int exact_arith] in E.
    destruct (fltb (similarity s) (of_int 25)); split; try discriminate; lra.
Qed.

Lemma verdict_flag (s : SourceMatch R) : source_status s = FLAG <-> 25 <= similarity s.
Proof.
  unfold source_status. destruct (fltb (similarity s) (of_int 15)) eqn:E.
  - apply fltb_exact in E. cbn [of_int exact_arith] in E.
    split; [discriminate|lra].
  - destruct (fltb (similarity s) (of_int 25)) eqn:E2.
    + apply fltb_exact in E2. cbn [of_int exact_arith] in E2.
      split; [discriminate|lra].
    + apply fltb_exact_false in E2. cbn [of_int exact_arith] in E2. tauto.
Qed.

Lemma verdict_ready (r : AnalysisResult R) :
  recommendation r = READY <-> overall_score r < 15.
Proof.
  unfold recommendation. destruct (fltb (overall_score r) (of_int 15)) eqn:E.
  - apply fltb_exact in E. cbn [of_int exact_arith] in E. tauto.
  - apply fltb_exact_false in E. cbn [of_int exact_arith] in E.
    destruct (fltb (overall_score r) (of_int 25)); split; try discriminate; lra.
Qed.

Lemma verdict_revision (r : AnalysisResult R) :
  recommendation r = REVISION_REQUIRED <-> 25 <= overall_score r.
Proof.
  unfold recommendation. destruct (fltb (overall_score r) (of_int 15)) eqn:E.
  - apply fltb_exact in E. cbn [of_int exact_arith] in E.
    split; [discriminate|lra].
  - destruct (fltb (overall_score r) (of_int 25)) eqn:E2.
    + apply fltb_exact in E2. cbn [of_int exact_arith] in E2.
      split; [discriminate|lra].
    + apply fltb_exact_false in E2. cbn [of_int exact_arith] in E2. tauto.
Qed.

(** X17: in exact arithmetic the report of a result of [analyze] is
    coherent: when every row of the source table says Pass the
    recommendation is Ready for Submission, and when the recommendation is
    Revision Required the first row of the table, the closest source, says
    Flag. *)
Theorem report_verdicts_coherent (refs : list Reference)
        (self : PlagiarismChecker) (w : World) (text : str)
        (use_apis verbose : bool) :
  exists r : AnalysisResult R,
    snd (analyze_corpus refs self w text use_apis verbose) = Ok r
    /\ (Forall (fun row => row = PASS) (source_rows r) -> recommendation r = READY)
    /\ (recommendation r = REVISION_REQUIRED ->
        exists rows, source_rows r = FLAG :: rows).
Proof.
  destruct (analyze_scores_exact refs self w text use_apis verbose)
    as [r [Hr [HP [Hsorted [Hpos [Ho Hm]]]]]].
  exists r. split; [exact Hr|]. unfold source_rows. split.
  - intros Hrows. apply verdict_ready. rewrite Ho.
    destruct refs as [|ref refs]; [lra|].
    apply mean_lt_bound; [discriminate|].
    apply (Permutation_Forall (Permutation_sym HP)).
    apply Forall_map. apply Forall_map in Hrows.
    eapply Forall_impl; [|exact Hrows]. cbn beta. intros s Hs.
    now apply verdict_pass.
  - intros Hrev. apply verdict_revision in Hrev. rewrite Ho in Hrev.
    destruct refs as [|ref refs]; [lra|].
    destruct (sources r) as [|s rest] eqn:Es.
    { apply Permutation_sym, Permutation_nil in HP. discriminate. }
    exists (map source_status rest). cbn [map]. f_equal.
    apply verdict_flag.
    inversion Hsorted as [|? ? _ Hhead]; subst.
    assert (Hall : Forall (fun v => v <= similarity s) (map similarity (s :: rest))).
    { cbn [map]. constructor; [lra|]. apply Forall_map.
      eapply Forall_impl; [|exact Hhead]. cbn beta. intros a Ha. exact Ha. }
    apply (Permutation_Forall (Permutation_sym HP)) in Hall.
    pose proof (mean_le_bound (map (combined_score text) (ref :: refs))
                  (similarity s)) as Hmean.
    assert (mean (map (combined_score text) (ref :: refs)) <= similarity s)
      by (apply Hmean; [discriminate|exact Hall]).
    lra.
Qed.

End VerdictsExact.

Section SummaryStatus.
Local Open Scope R_scope.

(** X18: in exact arithmetic the summary status and the recommendation of a
    report agree at both ends: an Excellent or Good status (score below 15
    or not) never comes with Revision Required, and a High status always
    comes with Revision Required. *)
Theorem summary_status_agrees_with_recommendation (r : AnalysisResult R) :
  (get_status (overall_score r) = EXCELLENT -> recommendation r = READY)
  /\ (get_status (overall_score r) = GOOD -> recommendation r <> REVISION_REQUIRED)
  /\ (get_status (overall_score r) = HIGH -> recommendation r = REVISION_REQUIRED).
Proof.
  unfold get_status, recommendation.
  destruct (fltb (overall_score r) (of_int 10)) eqn:E10;
  destruct (fltb (overall_score r) (of_int 20)) eqn:E20;
  destruct (fltb (overall_score r) (of_int 30)) eqn:E30;
  destruct (fltb (overall_score r) (of_int 15)) eqn:E15;
  destruct (fltb (overall_score r) (of_int 25)) eqn:E25;
  repeat match goal with
         | H : fltb _ _ = true |- _ =>
             apply fltb_exact in H; cbn [of_int exact_arith] in H
         | H : fltb _ _ = false |- _ =>
             apply fltb_exact_false in H; cbn [of_int exact_arith] in H
         end;
  repeat split; intros; try discriminate; try reflexivity; try lra.
Qed.

End SummaryStatus.

(** ** [main] *)

Record Args := {
  arg_input : str;
  arg_copyleaks : bool;
  arg_zerogpt : bool;
  arg_all_apis : bool;
  arg_output : str;
  arg_json : bool
}.

Section Main.
Context {RT : Runtime}.
Context {num : Type} {AR : Arith num}.

Inductive main_outcome :=
| ExitFileNotFound
| Raised (calls : list event) (e : exn)
| Finished (calls : list event) (result : AnalysisResult num)
           (reports : list str).

(** [main], given the parsed arguments, the text of the input file when it
    exists, and the configuration read from the environment.  The outcome is
    [sys.exit(1)], an exception of the analysis, or the result with the
    service calls made and the paths of the reports written, in order; the
    lines printed are left out. *)
Definition main (args : Args) (file : option str) (config : APIConfig)
           (w : World) : main_outcome :=
  match file with
  | None => ExitFileNotFound
  | Some text =>
      let checker := new_checker config in
      let use_apis := arg_copyleaks args || arg_zerogpt args || arg_all_apis args in
      match analyze checker w text use_apis true with
      | (calls, Raise e) => Raised calls e
      | (calls, Ok result) =>
          Finished calls result
                   ([arg_output args ++ lit ".md"]
                    ++ if arg_json args then [arg_output args ++ lit ".json"]
                       else [])
      end
  end.

(** X19: a run of [main] that finishes has called no service when none of
    [--copyleaks], [--zerogpt], [--all-apis] was given; when any of them was
    given, whichever it is, it has called every configured service once,
    Copyleaks in sandbox mode first.  So [--copyleaks] alone also runs
    ZeroGPT when a ZeroGPT key is set.  The markdown report is always
    written, the JSON report after it only with [--json]. *)
Theorem main_flags_are_not_told_apart (args : Args) (text : str)
        (config : APIConfig) (w : World) (calls : list event)
        (r : AnalysisResult num) (reports : list str) :
  main args (Some text) config w = Finished calls r reports ->
  calls = expected_calls (new_checker config) text
            (arg_copyleaks args || arg_zerogpt args || arg_all_apis args) true
  /\ (arg_copyleaks args || arg_zerogpt args || arg_all_apis args = false ->
      calls = [])
  /\ (arg_copyleaks args = true ->
      forall c k, zerogpt_key config = Some (c :: k) ->
        In (ZeroGPTCheck {| zg_api_key := c :: k |} text) calls)
  /\ reports = (arg_output args ++ lit ".md")
               :: (if arg_json args then [arg_output args ++ lit ".json"] else []).
Proof.
  unfold main, analyze.
  destruct (analyze_corpus ACADEMIC_REFERENCES (new_checker config) w text
              (arg_copyleaks args || arg_zerogpt args || arg_all_apis args) true)
    as [calls0 [r0|e]] eqn:E; [|discriminate].
  intros [= -> -> <-].
  assert (Hs : snd (analyze_corpus ACADEMIC_REFERENCES (new_checker config) w text
                      (arg_copyleaks args || arg_zerogpt args || arg_all_apis args)
                      true) = Ok r) by now rewrite E.
  apply analyze_corpus_inv in Hs.
  destruct Hs as [srcs [m [_ [_ [_ [_ [_ [_ [_ [_ [_ He]]]]]]]]]]].
  rewrite E, api_checks_calls in He. cbn [fst] in He. subst calls.
  split; [reflexivity|]. split; [|split; [|reflexivity]].
  - intros ->. unfold expected_calls.
    destruct (copyleaks (new_checker config)), (zerogpt (new_checker config));
      reflexivity.
  - intros -> c k Hk. unfold expected_calls. apply in_or_app. right.
    cbn [new_checker zerogpt]. rewrite Hk. cbn [orb andb]. now left.
Qed.

End Main.

Definition copyleaks_only_flag : Args :=
  {| arg_input := lit "paper.txt"; arg_copyleaks := true; arg_zerogpt := false;
     arg_all_apis := false; arg_output := lit "plagiarism_report";
     arg_json := false |}.

Lemma main_flags_are_not_told_apart_witness :
  exists calls (r : AnalysisResult binary64) reports,
    main copyleaks_only_flag (Some (lit "a b")) zerogpt_only world_up
    = Finished calls r reports
    /\ calls = [ZeroGPTCheck {| zg_api_key := lit "key" |} (lit "a b")].
Proof.
  eassert (E : main (num := binary64) copyleaks_only_flag (Some (lit "a b"))
                    zerogpt_only world_up = Finished _ _ _)
    by (vm_compute; reflexivity).
  eexists. eexists. eexists. split; [exact E|].
  rewrite (proj1 (main_flags_are_not_told_apart _ _ _ _ _ _ _ E)).
  reflexivity.
Defined.

(** ** The service wrappers *)

Section Wrappers.

(** Decoded JSON values, their Python truth value, and
    [data.get('access_token')]: [None] when the call raises (the body is not
    an object), [Some None] when it returns Python's [None]. *)
Variable json : Type.
Variable truthy : json -> bool.
Variable access_token : json -> option (option json).

Inductive request :=
| LoginPost (email key : str)
| ScanPut (scan_id : Z) (text : str) (sandbox : bool) (bearer : option json)
| DetectPost (api_key : str) (text : str).

(** A response: its status code and [response.json()], [None] when decoding
    raises. *)
Record response := {
  status_code : Z;
  decoded : option json
}.

(** What the network answers to a request during one call; [None] when
    importing [requests], building or sending the request raises.  Every such
    exception is caught by the wrappers. *)
Definition network := request -> option response.

(** The mutable part of a [CopyleaksAPI] object. *)
Record copyleaks_state := {
  st_email : str;
  st_api_key : str;
  st_token : option json
}.

(** [CopyleaksAPI.__init__] *)
Definition copyleaks_init (email api_key : str) : copyleaks_state :=
  {| st_email := email; st_api_key := api_key; st_token := None |}.

(** [CopyleaksAPI.login]: the new state and the value returned. *)
Definition login (self : copyleaks_state) (net : network)
  : copyleaks_state * bool :=
  match net (LoginPost (st_email self) (st_api_key self)) with
  | None => (self, false)
  | Some resp =>
      if (status_code resp =? 200)%Z then
        match decoded resp with
        | None => (self, false)
        | Some data =>
            match access_token data with
            | None => (self, false)
            | Some tok =>
                ({| st_email := st_email self; st_api_key := st_api_key self;
                    st_token := tok |}, true)
            end
        end
      else (self, false)
  end.

(** [bool(self.token)] *)
Definition holds_token (self : copyleaks_state) : bool :=
  match st_token self with None => false | Some v => truthy v end.

(** The dict [{"status": "submitted", "scan_id": "scan_<id>"}]. *)
Inductive scan_result := Submitted (scan_id : Z).

(** [CopyleaksAPI.check_plagiarism], with [now = int(time.time())]: the new
    state, the requests attempted in order, and the value returned. *)
Definition check_plagiarism (self : copyleaks_state) (net : network) (now : Z)
           (text : str) (sandbox : bool)
  : copyleaks_state * list request * option scan_result :=
  let '(self, sent, ok) :=
    if holds_token self then (self, [], true)
    else let '(self', ok) := login self net in
         (self', [LoginPost (st_email self) (st_api_key self)], ok) in
  if negb ok then (self, sent, None)
  else
    let req := ScanPut now text sandbox (st_token self) in
    match net req with
    | None => (self, sent ++ [req], None)
    | Some resp =>
        (self, sent ++ [req],
         if (status_code resp =? 200)%Z || (status_code resp =? 201)%Z
         then Some (Submitted now) else None)
    end.

(** [ZeroGPTAPI.check] *)
Definition zerogpt_check_impl (api : ZeroGPTAPI) (net : network) (text : str)
  : option json :=
  match net (DetectPost (zg_api_key api) text) with
  | None => None
  | Some resp => if (status_code resp =? 200)%Z then decoded resp else None
  end.

(** The world seen by [analyze] on a freshly built checker, whose Copyleaks
    wrapper holds no token yet. *)
Definition world_of (net : network) (now : Z) (clock : str) : World :=
  {| now_isoformat := clock;
     copyleaks_check_plagiarism := fun api text sandbox =>
       match snd (check_plagiarism
                    (copyleaks_init (cl_email api) (cl_api_key api))
                    net now text sandbox) with
       | Some _ => true
       | None => false
       end;
     zerogpt_check := fun api text =>
       match zerogpt_check_impl api net text with
       | Some v => truthy v
       | None => false
       end |}.

(** A login that succeeds: status 200 and a body from which the token can be
    read, be it [None]. *)
Definition login_answer (self : copyleaks_state) (net : network)
           (tok : option json) : Prop :=
  exists resp data,
    net (LoginPost (st_email self) (st_api_key self)) = Some resp
    /\ status_code resp = 200%Z
    /\ decoded resp = Some data
    /\ access_token data = Some tok.

Lemma login_spec (self : copyleaks_state) (net : network) :
  (exists tok,
      login_answer self net tok
      /\ login self net
         = ({| st_email := st_email self; st_api_key := st_api_key self;
               st_token := tok |}, true))
  \/ ((forall tok, ~ login_answer self net tok)
      /\ login self net = (self, false)).
Proof.
  unfold login, login_answer.
  destruct (net (LoginPost (st_email self) (st_api_key self))) as [resp|] eqn:En.
  2:{ right. split; [|reflexivity]. intros tok [r [d [H _]]]. discriminate. }
  destruct (status_code resp =? 200)%Z eqn:Ec.
  2:{ right. split; [|reflexivity]. intros tok [r [d [[= <-] [H _]]]]. lia. }
  destruct (decoded resp) as [data|] eqn:Ed.
  2:{ right. split; [|reflexivity].
      intros tok [r [d [[= <-] [_ [H _]]]]]. congruence. }
  destruct (access_token data) as [tok|] eqn:Et.
  2:{ right. split; [|reflexivity].
      intros tok [r [d [[= <-] [_ [H1 H2]]]]]. congruence. }
  left. exists tok. split; [|reflexivity].
  exists resp, data. repeat split; try assumption. lia.
Qed.

(** X20: [check_plagiarism] sends at most two requests.  Holding a truthy
    token it sends only the scan, with that token, and keeps its state.
    Otherwise it logs in first: when the login fails it returns [None]
    without sending the scan and keeps its state; when the login is answered
    it stores the token read, even [None], and sends the scan with it. *)
Theorem check_plagiarism_requests (self : copyleaks_state) (net : network)
        (now : Z) (text : str) (sandbox : bool) :
  let '(self', sent, res) := check_plagiarism self net now text sandbox in
  (holds_token self = true ->
   self' = self /\ sent = [ScanPut now text sandbox (st_token self)])
  /\ (holds_token self = false ->
      (forall tok, ~ login_answer self net tok) ->
      self' = self /\ res = None
      /\ sent = [LoginPost (st_email self) (st_api_key self)])
  /\ (holds_token self = false ->
      forall tok, login_answer self net tok ->
        st_token self' = tok
        /\ sent = [LoginPost (st_email self) (st_api_key self);
                   ScanPut now text sandbox tok]).
Proof.
  unfold check_plagiarism. destruct (holds_token self) eqn:Eh.
  - cbn [negb].
    destruct (net (ScanPut now text sandbox (st_token self))) as [resp|];
      (split; [intros _; split; reflexivity|split; discriminate]).
  - destruct (login_spec self net) as [[tok [Ha ->]]|[Hno ->]]; cbn [negb].
    + cbn [st_token].
      destruct (net (ScanPut now text sandbox tok)) as [resp|];
        (split; [discriminate|split]);
        try (intros _ Hn; exfalso; exact (Hn tok Ha));
        intros _ tok' Ha'; destruct Ha as [r [d [H1 [_ [H2 H3]]]]];
        destruct Ha' as [r' [d' [H1' [_ [H2' H3']]]]];
        assert (tok' = tok) by congruence; subst tok'; split; reflexivity.
    + split; [discriminate|]. split; [intros _ _; repeat split|].
      intros _ tok Ha. exfalso. exact (Hno tok Ha).
Qed.

(** X21: [check_plagiarism] returns a result exactly when the scan request
    it sent was answered with status 200 or 201; the result then carries the
    scan id of that request. *)
Theorem check_plagiarism_submitted_iff (self : copyleaks_state) (net : network)
        (now : Z) (text : str) (sandbox : bool) (id : Z) :
  let '(self', sent, res) := check_plagiarism self net now text sandbox in
  res = Some (Submitted id)
  <-> id = now
      /\ exists resp,
           In (ScanPut now text sandbox (st_token self')) sent
           /\ net (ScanPut now text sandbox (st_token self')) = Some resp
           /\ (status_code resp = 200 \/ status_code resp = 201)%Z.
Proof.
  unfold check_plagiarism.
  set (pre := if holds_token self then (self, [], true)
              else let '(self', ok) := login self net in
                   (self', [LoginPost (st_email self) (st_api_key self)], ok)).
  assert (Hpre : forall b, In (ScanPut now text sandbox b) (snd (fst pre)) -> False).
  { intros b. unfold pre. destruct (holds_token self); [intros []|].
    destruct (login self net) as [s ok]. cbn [fst snd].
    intros [H|[]]. discriminate. }
  destruct pre as [[self1 sent1] ok]. cbn [fst snd] in Hpre.
  destruct ok; cbn [negb].
  - destruct (net (ScanPut now text sandbox (st_token self1))) as [resp|] eqn:En.
    + destruct ((status_code resp =? 200)%Z || (status_code resp =? 201)%Z) eqn:Ec.
      * split.
        -- intros [= <-]. split; [reflexivity|]. exists resp.
           split; [apply in_or_app; right; now left|]. split; [exact En|lia].
        -- intros [-> _]. reflexivity.
      * split; [discriminate|]. intros [_ [resp' [_ [H Hc]]]].
        rewrite En in H. injection H as <-. lia.
    + split; [discriminate|]. intros [_ [resp' [_ [H _]]]].
      rewrite En in H. discriminate.
  - split; [discriminate|]. intros [_ [resp [Hin _]]]. exfalso.
    exact (Hpre _ Hin).
Qed.

(** X22: after a call on a fresh wrapper whose login was answered with a
    truthy token, the next call, whatever the network then answers, sends no
    login but only the scan with that token; after a login answered without a
    usable token, the scan went out with that token all the same and the next
    call logs in again first. *)
Theorem check_plagiarism_reuses_token (email key : str) (net1 net2 : network)
        (now1 now2 : Z) (text1 text2 : str) (sandbox1 sandbox2 : bool)
        (tok : option json) :
  login_answer (copyleaks_init email key) net1 tok ->
  let '(self1, sent1, _) :=
    check_plagiarism (copyleaks_init email key) net1 now1 text1 sandbox1 in
  let '(_, sent2, _) := check_plagiarism self1 net2 now2 text2 sandbox2 in
  sent1 = [LoginPost email key; ScanPut now1 text1 sandbox1 tok]
  /\ match tok with
     | Some v =>
         if truthy v then sent2 = [ScanPut now2 text2 sandbox2 tok]
         else exists rest, sent2 = LoginPost email key :: rest
     | None => exists rest, sent2 = LoginPost email key :: rest
     end.
Proof.
  intros Ha.
  unfold check_plagiarism at 1. cbn [holds_token copyleaks_init st_token].
  destruct (login_spec (copyleaks_init email key) net1) as [[tok' [Ha' E]]|[Hno _]].
  2:{ exfalso. exact (Hno tok Ha). }
  assert (tok' = tok).
  { destruct Ha as [r [d [H1 [_ [H2 H3]]]]].
    destruct Ha' as [r' [d' [H1' [_ [H2' H3']]]]]. congruence. }
  subst tok'. rewrite E. cbn [negb st_token st_email st_api_key copyleaks_init].
  set (self1 := {| st_email := email; st_api_key := key; st_token := tok |}).
  assert (H2 : forall sent2,
             sent2 = snd (fst (check_plagiarism self1 net2 now2 text2 sandbox2)) ->
             match tok with
             | Some v =>
                 if truthy v then sent2 = [ScanPut now2 text2 sandbox2 tok]
                 else exists rest, sent2 = LoginPost email key :: rest
             | None => exists rest, sent2 = LoginPost email key :: rest
             end).
  { intros sent2 ->. unfold check_plagiarism, holds_token.
    cbn [st_token self1 st_email st_api_key].
    destruct tok as [v|]; [destruct (truthy v)|]; cbn [negb].
    - destruct (net2 _); reflexivity.
    - destruct (login _ net2) as [s ok]. destruct ok; cbn [negb].
      + destruct (net2 _); cbn [fst snd app]; eexists; reflexivity.
      + cbn [fst snd]. eexists; reflexivity.
    - destruct (login _ net2) as [s ok]. destruct ok; cbn [negb].
      + destruct (net2 _); cbn [fst snd app]; eexists; reflexivity.
      + cbn [fst snd]. eexists; reflexivity. }
  destruct (net1 (ScanPut now1 text1 sandbox1 tok)) as [resp|];
    destruct (check_plagiarism self1 net2 now2 text2 sandbox2) as [[s2 sent2] res2];
    (split; [reflexivity|apply H2; reflexivity]).
Qed.

Lemma check_plagiarism_fresh (email key : str) (net : network) (now : Z)
      (text : str) (sandbox : bool) :
  snd (check_plagiarism (copyleaks_init email key) net now text sandbox) <> None
  <-> exists tok resp,
        login_answer (copyleaks_init email key) net tok
        /\ net (ScanPut now text sandbox tok) = Some resp
        /\ (status_code resp = 200 \/ status_code resp = 201)%Z.
Proof.
  unfold check_plagiarism. cbn [holds_token copyleaks_init st_token].
  destruct (login_spec (copyleaks_init email key) net) as [[tok [Ha E]]|[Hno E]];
    rewrite E; cbn [negb st_token st_email st_api_key copyleaks_init snd].
  - assert (Huniq : forall tok', login_answer (copyleaks_init email key) net tok'
                                 -> tok' = tok).
    { intros tok' Ha'. destruct Ha as [r [d [H1 [_ [H2 H3]]]]].
      destruct Ha' as [r' [d' [H1' [_ [H2' H3']]]]]. congruence. }
    destruct (net (ScanPut now text sandbox tok)) as [resp|] eqn:En; cbn [snd].
    + destruct ((status_code resp =? 200)%Z || (status_code resp =? 201)%Z) eqn:Ec.
      * split; [|discriminate]. intros _. exists tok, resp.
        split; [exact Ha|]. split; [exact En|lia].
      * split; [congruence|]. intros [tok' [resp' [Ha' [Hn Hc]]]].
        apply Huniq in Ha'. subst tok'. rewrite En in Hn. injection Hn as <-. lia.
    + split; [congruence|]. intros [tok' [resp' [Ha' [Hn _]]]].
      apply Huniq in Ha'. subst tok'. rewrite En in Hn. discriminate.
  - split; [congruence|]. intros [tok [resp [Ha _]]]. exfalso. exact (Hno tok Ha).
Qed.

Context {RT : Runtime}.
Context {num : Type} {AR : Arith num}.

(** X23: on a freshly built checker with both flags set, a returned result
    says 'Submitted' for Copyleaks exactly when the login request was
    answered 200 with a readable body and the sandbox scan request, sent with
    the token read, was answered 200 or 201, and says 'Error' otherwise; it
    says 'Complete' for ZeroGPT exactly when the detection request was
    answered 200 with a truthy JSON body, and 'Error' otherwise. *)
Theorem analyze_status_from_network (refs : list Reference) (config : APIConfig)
        (net : network) (now : Z) (clock : str) (text : str)
        (r : AnalysisResult num) :
  snd (analyze_corpus refs (new_checker config) (world_of net now clock) text
                      true true) = Ok r ->
  (forall api, copyleaks (new_checker config) = Some api ->
     (dict_get (api_status r) (lit "Copyleaks") [] = lit "Submitted"
      <-> exists tok resp,
            login_answer (copyleaks_init (cl_email api) (cl_api_key api)) net tok
            /\ net (ScanPut now text true tok) = Some resp
            /\ (status_code resp = 200 \/ status_code resp = 201)%Z)
     /\ (dict_get (api_status r) (lit "Copyleaks") [] = lit "Submitted"
         \/ dict_get (api_status r) (lit "Copyleaks") [] = lit "Error"))
  /\ (forall api, zerogpt (new_checker config) = Some api ->
        (dict_get (api_status r) (lit "ZeroGPT") [] = lit "Complete"
         <-> exists resp v,
               net (DetectPost (zg_api_key api) text) = Some resp
               /\ status_code resp = 200%Z
               /\ decoded resp = Some v /\ truthy v = true)
        /\ (dict_get (api_status r) (lit "ZeroGPT") [] = lit "Complete"
            \/ dict_get (api_status r) (lit "ZeroGPT") [] = lit "Error")).
Proof.
  intros Hr. apply analyze_corpus_inv in Hr.
  destruct Hr as [srcs [m [_ [_ [_ [_ [_ [_ [_ [Hst _]]]]]]]]]]. rewrite Hst.
  destruct (api_checks_table (new_checker config) (world_of net now clock) text
              true true) as [_ [Hc [Hz _]]].
  cbn zeta in Hc, Hz. cbn [andb] in Hc, Hz. split.
  - intros api Hapi. rewrite Hc, Hapi.
    cbn [world_of copyleaks_check_plagiarism].
    pose proof (check_plagiarism_fresh (cl_email api) (cl_api_key api) net now
                  text true) as Hf.
    destruct (snd (check_plagiarism _ net now text true)) as [res|].
    + split; [|now left]. split; [intros _; apply Hf; discriminate|reflexivity].
    + split; [|now right]. split; [discriminate|].
      intros H. apply Hf in H. congruence.
  - intros api Hapi. rewrite Hz, Hapi. cbn [world_of zerogpt_check].
    unfold zerogpt_check_impl.
    destruct (net (DetectPost (zg_api_key api) text)) as [resp|] eqn:En.
    2:{ split; [|now right]. split; [discriminate|].
        intros [resp [v [H _]]]. discriminate. }
    destruct (status_code resp =? 200)%Z eqn:Ec.
    2:{ split; [|now right]. split; [discriminate|].
        intros [resp' [v [[= <-] [H _]]]]. lia. }
    destruct (decoded resp) as [v|] eqn:Ed.
    2:{ split; [|now right]. split; [discriminate|].
        intros [resp' [v [[= <-] [_ [H _]]]]]. congruence. }
    destruct (truthy v) eqn:Et.
    + split; [|now left]. split; [|reflexivity]. intros _.
      exists resp, v. repeat split; try assumption. lia.
    + split; [|now right]. split; [discriminate|].
      intros [resp' [v' [[= <-] [_ [H1 H2]]]]]. congruence.
Qed.

End Wrappers.

Arguments LoginPost {json} email key.
Arguments ScanPut {json} scan_id text sandbox bearer.
Arguments DetectPost {json} api_key text.
Arguments copyleaks_init {json} email api_key.
Arguments check_plagiarism {json} truthy access_token self net now text sandbox.
Arguments login_answer {json} access_token self net tok.
Arguments world_of {json} truthy access_token net now clock.

(** A network on which a JSON body is a string, truthy when not empty, that
    reads as its own access token: the login is answered 200 with the token
    "tok", a scan 201 and a detection request 200 with an empty body. *)
Definition demo_network : network str :=
  fun req =>
    match req with
    | LoginPost _ _ => Some {| status_code := 200; decoded := Some (lit "tok") |}
    | ScanPut _ _ _ _ => Some {| status_code := 201; decoded := None |}
    | DetectPost _ _ => Some {| status_code := 200; decoded := Some [] |}
    end.

Definition body_token (data : str) : option (option str) := Some (Some data).

Lemma demo_login_answer :
  login_answer body_token (copyleaks_init (lit "a@b.c") (lit "k1"))
               demo_network (Some (lit "tok")).
Proof.
  exists {| status_code := 200; decoded := Some (lit "tok") |}, (lit "tok").
  repeat split.
Qed.

Lemma check_plagiarism_requests_witness :
  snd (fst (check_plagiarism Py.nonempty body_token
              (copyleaks_init (lit "a@b.c") (lit "k1"))
              demo_network 1700000000 (lit "a b") true))
  = [LoginPost (lit "a@b.c") (lit "k1");
     ScanPut 1700000000 (lit "a b") true (Some (lit "tok"))].
Proof.
  pose proof (check_plagiarism_requests str Py.nonempty body_token
                (copyleaks_init (lit "a@b.c") (lit "k1"))
                demo_network 1700000000 (lit "a b") true) as H.
  destruct H as [_ [_ H]].
  specialize (H eq_refl (Some (lit "tok")) demo_login_answer).
  destruct H as [_ H]. vm_compute in H |- *. exact H.
Defined.

Lemma check_plagiarism_submitted_iff_witness :
  snd (check_plagiarism Py.nonempty body_token
         (copyleaks_init (lit "a@b.c") (lit "k1"))
         demo_network 1700000000 (lit "a b") true)
  = Some (Submitted 1700000000).
Proof.
  pose proof (check_plagiarism_submitted_iff str Py.nonempty body_token
                (copyleaks_init (lit "a@b.c") (lit "k1"))
                demo_network 1700000000 (lit "a b") true 1700000000) as H.
  vm_compute in H. destruct H as [_ H]. vm_compute. apply H.
  split; [reflexivity|].
  exists {| status_code := 201; decoded := None |}.
  split; [right; left; reflexivity|]. split; [reflexivity|right; reflexivity].
Defined.

Lemma check_plagiarism_reuses_token_witness :
  snd (fst (check_plagiarism Py.nonempty body_token
              (fst (fst (check_plagiarism Py.nonempty body_token
                           (copyleaks_init (lit "a@b.c") (lit "k1"))
                           demo_network 1700000000 (lit "a b") true)))
              demo_network 1700000060 (lit "c d") true))
  = [ScanPut 1700000060 (lit "c d") true (Some (lit "tok"))].
Proof.
  pose proof (check_plagiarism_reuses_token str Py.nonempty body_token
                (lit "a@b.c") (lit "k1") demo_network demo_network
                1700000000 1700000060 (lit "a b") (lit "c d") true true
                (Some (lit "tok")) demo_login_answer) as H.
  vm_compute in H. destruct H as [_ H]. vm_compute. exact H.
Defined.

Lemma analyze_status_from_network_witness :
  exists r : AnalysisResult binary64,
    snd (analyze_corpus ACADEMIC_REFERENCES (new_checker both_keys)
           (world_of Py.nonempty body_token demo_network 1700000000 (lit "t"))
           (lit "a b") true true) = Ok r
    /\ (dict_get (api_status r) (lit "ZeroGPT") [] = lit "Complete"
        \/ dict_get (api_status r) (lit "ZeroGPT") [] = lit "Error").
Proof.
  eassert (E : snd (analyze_corpus (num := binary64) ACADEMIC_REFERENCES
                      (new_checker both_keys)
                      (world_of Py.nonempty body_token demo_network 1700000000
                                (lit "t"))
                      (lit "a b") true true) = Ok _)
    by (vm_compute; reflexivity).
  eexists. split; [exact E|].
  apply (proj2 (analyze_status_from_network str Py.nonempty body_token
                  _ _ _ _ _ _ _ E)
               {| zg_api_key := lit "k2" |}).
  reflexivity.
Defined.

(** ** Credentials *)

Section Credentials.
Context {RT : Runtime}.
Context {num : Type} {AR : Arith num}.

(** A credential that counts: set, and not the empty string. *)
Definition usable (key : option str) : Prop :=
  exists c k, key = Some (c :: k).

(** X24: whatever the flags and the services answer, a returned result
    reports a service as 'Not configured' exactly when one of its credentials
    is missing or is the empty string: Copyleaks needs the email and the key,
    ZeroGPT its key, Google Scholar the API key and the engine id. *)
Theorem analyze_not_configured_iff (refs : list Reference) (config : APIConfig)
        (w : World) (text : str) (use_apis verbose : bool)
        (r : AnalysisResult num) :
  snd (analyze_corpus refs (new_checker config) w text use_apis verbose) = Ok r ->
  (dict_get (api_status r) (lit "Copyleaks") [] = lit "Not configured"
   <-> ~ (usable (copyleaks_email config) /\ usable (copyleaks_key config)))
  /\ (dict_get (api_status r) (lit "ZeroGPT") [] = lit "Not configured"
      <-> ~ usable (zerogpt_key config))
  /\ (dict_get (api_status r) (lit "Google Scholar") [] = lit "Not configured"
      <-> ~ (usable (google_api_key config) /\ usable (google_cse_id config))).
Proof.
  intros Hr. apply analyze_corpus_inv in Hr.
  destruct Hr as [srcs [m [_ [_ [_ [_ [_ [_ [_ [Hst _]]]]]]]]]]. rewrite Hst.
  destruct (api_checks_table (new_checker config) w text use_apis verbose)
    as [_ [Hc [Hz [Hg _]]]].
  cbn zeta in Hc, Hz, Hg. rewrite Hc, Hz, Hg. clear Hc Hz Hg Hst.
  destruct config as [ce ck zk ga gc].
  cbn [new_checker copyleaks zerogpt google copyleaks_email copyleaks_key
       zerogpt_key google_api_key google_cse_id].
  split; [|split].
  - destruct ce as [[|c1 e]|], ck as [[|c2 k]|];
      try (split; [intros _ [U1 U2]; try (destruct U1 as [? [? U1]]; discriminate U1);
                   destruct U2 as [? [? U2]]; discriminate U2
                  |reflexivity]).
    split.
    + destruct (use_apis && verbose);
        [destruct (copyleaks_check_plagiarism w _ text true)|]; discriminate.
    + intros H. exfalso. apply H. split; eexists; eexists; reflexivity.
  - destruct zk as [[|c k]|];
      try (split; [intros _ [? [? U]]; discriminate U|reflexivity]).
    split.
    + destruct (use_apis && verbose); [destruct (zerogpt_check w _ text)|];
        discriminate.
    + intros H. exfalso. apply H. eexists; eexists; reflexivity.
  - destruct ga as [[|c1 a]|], gc as [[|c2 i]|];
      try (split; [intros _ [U1 U2]; try (destruct U1 as [? [? U1]]; discriminate U1);
                   destruct U2 as [? [? U2]]; discriminate U2
                  |reflexivity]).
    split; [discriminate|].
    intros H. exfalso. apply H. split; eexists; eexists; reflexivity.
Qed.

End Credentials.

Definition empty_zerogpt_key : APIConfig :=
  {| copyleaks_email := Some (lit "a@b.c"); copyleaks_key := Some (lit "k1");
     zerogpt_key := Some [];
     google_api_key := None; google_cse_id := None |}.

Lemma analyze_not_configured_iff_witness :
  exists r : AnalysisResult binary64,
    snd (analyze_corpus ACADEMIC_REFERENCES (new_checker empty_zerogpt_key)
                        world_up (lit "a b") true true) = Ok r
    /\ dict_get (api_status r) (lit "ZeroGPT") [] = lit "Not configured".
Proof.
  eassert (E : snd (analyze_corpus (num := binary64) ACADEMIC_REFERENCES
                      (new_checker empty_zerogpt_key) world_up (lit "a b")
                      true true) = Ok _) by (vm_compute; reflexivity).
  eexists. split; [exact E|].
  apply (proj1 (proj2 (analyze_not_configured_iff _ _ _ _ _ _ _ E))).
  intros [c [k H]]. discriminate.
Defined.

(** * The results on the floats, and between runs *)

Local Open Scope Z_scope.

(** ** The order of the float comparisons *)

Section Binary64Order.

(** The place of a float in the order of the comparisons: the class
    (-inf, negative, zero, positive, +inf), then exponent and mantissa, both
    negated for a negative float.  NaN has no place. *)
Definition rank (x : binary64) : option (Z * Z * Z) :=
  match x with
  | S754_nan => None
  | S754_infinity true => Some (-2, 0, 0)
  | S754_infinity false => Some (2, 0, 0)
  | S754_zero _ => Some (0, 0, 0)
  | S754_finite true m e => Some (-1, - e, Z.neg m)
  | S754_finite false m e => Some (1, e, Z.pos m)
  end.

(** The lexicographic comparison of two places, and its strict order. *)
Definition lex3 (a b : Z * Z * Z) : comparison :=
  let '(a1, a2, a3) := a in
  let '(b1, b2, b3) := b in
  match a1 ?= b1 with
  | Eq => match a2 ?= b2 with Eq => a3 ?= b3 | c => c end
  | c => c
  end.

Definition lt3 (a b : Z * Z * Z) : Prop :=
  let '(a1, a2, a3) := a in
  let '(b1, b2, b3) := b in
  a1 < b1 \/ (a1 = b1 /\ (a2 < b2 \/ (a2 = b2 /\ a3 < b3))).

Lemma SFcompare_rank (a b : binary64) :
  SFcompare a b =
  match rank a, rank b with
  | Some ra, Some rb => Some (lex3 ra rb)
  | _, _ => None
  end.
Proof.
  destruct a as [sa|sa| |sa ma ea], b as [sb|sb| |sb mb eb];
    try destruct sa; try destruct sb; try reflexivity.
  cbn [SFcompare rank lex3]. rewrite Z.compare_opp.
    rewrite (Z.compare_antisym ea eb).
    change (Z.neg ma ?= Z.neg mb) with (CompOpp (ma ?= mb)%positive).
    change (1 ?= 1) with Eq. change (-1 ?= -1) with Eq. cbn iota.
    unfold Pos.compare.
    destruct (ea ?= eb); reflexivity.
Qed.

Lemma lex3_Lt a b : lex3 a b = Lt <-> lt3 a b.
Proof.
  destruct a as [[a1 a2] a3], b as [[b1 b2] b3]. unfold lex3, lt3.
  destruct (Z.compare_spec a1 b1), (Z.compare_spec a2 b2),
    (Z.compare_spec a3 b3); split; intros; try discriminate; try reflexivity;
    lia.
Qed.

Lemma lex3_Eq a b : lex3 a b = Eq <-> a = b.
Proof.
  destruct a as [[a1 a2] a3], b as [[b1 b2] b3]. unfold lex3.
  destruct (Z.compare_spec a1 b1), (Z.compare_spec a2 b2),
    (Z.compare_spec a3 b3); split; intros H'; try discriminate;
    try reflexivity; try (subst; reflexivity); inversion H'; lia.
Qed.

Lemma lex3_Gt a b : lex3 a b = Gt <-> lt3 b a.
Proof.
  destruct a as [[a1 a2] a3], b as [[b1 b2] b3]. unfold lex3, lt3.
  destruct (Z.compare_spec a1 b1), (Z.compare_spec a2 b2),
    (Z.compare_spec a3 b3); split; intros; try discriminate; try reflexivity;
    lia.
Qed.

(** [a < b] on floats, read on the ranks. *)
Definition flt (a b : binary64) : Prop :=
  match rank a, rank b with
  | Some ra, Some rb => lt3 ra rb
  | _, _ => False
  end.

Lemma SFltb_flt a b : SFltb a b = true <-> flt a b.
Proof.
  unfold SFltb, flt. rewrite SFcompare_rank.
  destruct (rank a) as [ra|], (rank b) as [rb|];
    try (split; [discriminate | contradiction]).
  rewrite <- lex3_Lt. destruct (lex3 ra rb); split; congruence.
Qed.

Lemma SFeqb_rank a b :
  SFeqb a b = true <-> rank a = rank b /\ rank a <> None.
Proof.
  unfold SFeqb. rewrite SFcompare_rank.
  destruct (rank a) as [ra|], (rank b) as [rb|];
    try (split; [discriminate | intros [H1 H2]; congruence]).
  pose proof (lex3_Eq ra rb) as HE.
  destruct (lex3 ra rb); split; try discriminate.
  - intros _. split; [f_equal; now apply HE | discriminate].
  - reflexivity.
  - intros [H1 _]. inversion H1. apply HE in H0. discriminate.
  - intros [H1 _]. inversion H1. apply HE in H0. discriminate.
Qed.

Lemma SFleb_rank a b :
  SFleb a b = true <->
  match rank a, rank b with
  | Some ra, Some rb => lt3 ra rb \/ ra = rb
  | _, _ => False
  end.
Proof.
  unfold SFleb. rewrite SFcompare_rank.
  destruct (rank a) as [ra|], (rank b) as [rb|];
    try (split; [discriminate | contradiction]).
  rewrite <- lex3_Lt, <- lex3_Eq.
  destruct (lex3 ra rb); split; intros H'; try reflexivity; try discriminate;
    try (now left); try (now right); destruct H'; discriminate.
Qed.

Ltac ranks :=
  repeat match goal with
    | |- context [rank ?x] =>
        let r := fresh "r" in
        destruct (rank x) as [[[? ?] ?]|]
    | H : context [rank ?x] |- _ =>
        destruct (rank x) as [[[? ?] ?]|]
    end.

Lemma SFltb_irrefl a : SFltb a a = false.
Proof.
  destruct (SFltb a a) eqn:E; [|reflexivity].
  apply SFltb_flt in E. unfold flt in E. ranks; unfold lt3 in *; [lia | tauto].
Qed.

Lemma SFltb_trans a b c :
  SFltb a b = true -> SFltb b c = true -> SFltb a c = true.
Proof.
  rewrite !SFltb_flt. unfold flt. ranks; unfold lt3; try tauto; lia.
Qed.

Lemma SFltb_asym a b : SFltb a b = true -> SFltb b a = false.
Proof.
  intros H. destruct (SFltb b a) eqn:E; [|reflexivity].
  pose proof (SFltb_trans _ _ _ H E) as H'. rewrite SFltb_irrefl in H'.
  discriminate.
Qed.

(** Two floats equal to a third are not strictly ordered. *)
Lemma SFltb_SFeqb a b v :
  SFeqb a v = true -> SFeqb b v = true -> SFltb a b = false.
Proof.
  intros Ha Hb. destruct (SFltb a b) eqn:E; [|reflexivity].
  apply SFltb_flt in E. apply SFeqb_rank in Ha, Hb.
  destruct Ha as [Ha _], Hb as [Hb _]. unfold flt in E.
  rewrite Ha, Hb in E. destruct (rank v) as [[[? ?] ?]|]; unfold lt3 in E;
    [lia | tauto].
Qed.

(** A float equal to [v] and one below or above [v]. *)
Lemma SFltb_SFeqb_l a b v :
  SFeqb a v = true -> SFltb a b = SFltb v b.
Proof.
  intros Ha. apply SFeqb_rank in Ha. destruct Ha as [Ha _].
  apply eq_true_iff_eq. rewrite !SFltb_flt. unfold flt. now rewrite Ha.
Qed.

Definition is_nan (x : binary64) : bool :=
  match x with S754_nan => true | _ => false end.

Lemma rank_nan x : rank x = None <-> is_nan x = true.
Proof. destruct x as [[]|[]| |[] ? ?]; cbn; split; congruence. Qed.


(** On floats that are not NaN the comparison is total... *)
Lemma SFltb_total a b :
  is_nan a = false -> is_nan b = false ->
  SFltb a b = false -> SFleb b a = true.
Proof.
  intros Ha Hb H. apply SFleb_rank.
  assert (Hn : ~ flt a b) by (rewrite <- SFltb_flt; congruence).
  unfold flt in Hn.
  destruct (rank a) as [[[a1 a2] a3]|] eqn:Ea;
    [|apply rank_nan in Ea; congruence].
  destruct (rank b) as [[[b1 b2] b3]|] eqn:Eb;
    [|apply rank_nan in Eb; congruence].
  unfold lt3 in *.
  assert (b1 < a1 \/ b1 = a1 /\ (b2 < a2 \/ b2 = a2 /\ (b3 < a3 \/ b3 = a3)))
    as D by lia.
  destruct D as [D | [D1 [D | [D2 [D | D]]]]]; try (left; lia).
  right. congruence.
Qed.

(** ... and [<=] is transitive. *)
Lemma SFleb_trans a b c :
  SFleb a b = true -> SFleb b c = true -> SFleb a c = true.
Proof.
  rewrite !SFleb_rank.
  destruct (rank a) as [[[a1 a2] a3]|], (rank b) as [[[b1 b2] b3]|],
    (rank c) as [[[c1 c2] c3]|]; try tauto.
  unfold lt3. intros [H1 | H1] [H2 | H2].
  - left; lia.
  - inversion H2; subst. now left.
  - inversion H1; subst. now left.
  - right; congruence.
Qed.

Lemma SFltb_SFleb a b : SFltb a b = true -> SFleb a b = true.
Proof.
  rewrite SFltb_flt, SFleb_rank. unfold flt.
  destruct (rank a), (rank b); tauto.
Qed.


End Binary64Order.

(** ** The float of a positive integer *)

Section Binary64Conversion.

Lemma shr_m_shr_1 mrs :
  0 <= shr_m mrs -> shr_m (shr_1 mrs) = shr_m mrs / 2.
Proof.
  destruct mrs as [m r s]. cbn [shr_m]. intros Hm. unfold shr_1.
  destruct m as [|[p|p|]|p]; cbn [shr_m]; try reflexivity; try lia.
  - rewrite Pos2Z.inj_xI. apply Z.div_unique with 1; lia.
  - rewrite Pos2Z.inj_xO. apply Z.div_unique with 0; lia.
Qed.

Lemma shr_m_iter_pos p : forall mrs,
  0 <= shr_m mrs ->
  shr_m (SpecFloat.iter_pos shr_1 p mrs) = shr_m mrs / 2 ^ Z.pos p.
Proof.
  assert (Hpow : forall q, 0 < 2 ^ Z.pos q) by (intros; apply Z.pow_pos_nonneg; lia).
  induction p as [p IH|p IH|]; intros mrs Hm; cbn [SpecFloat.iter_pos].
  - assert (H1 : 0 <= shr_m (shr_1 mrs)).
    { rewrite shr_m_shr_1 by assumption. apply Z.div_pos; lia. }
    assert (H2 : 0 <= shr_m (SpecFloat.iter_pos shr_1 p (shr_1 mrs))).
    { rewrite IH by assumption. apply Z.div_pos; [assumption|apply Hpow]. }
    rewrite IH, IH, shr_m_shr_1 by assumption.
    pose proof (Hpow p).
    rewrite !Z.div_div by lia. f_equal.
    rewrite Pos2Z.inj_xI, Z.pow_add_r, Z.pow_mul_r by lia.
    change (2 ^ 2) with 4. change (2 ^ 1) with 2.
    rewrite <- (Z.pow_mul_l 2 2). change (2 * 2) with 4. 
    replace (4 ^ Z.pos p) with (2 ^ Z.pos p * 2 ^ Z.pos p).
    + ring.
    + rewrite <- Z.pow_add_r by lia. replace (Z.pos p + Z.pos p) with (2 * Z.pos p) by lia.
      rewrite Z.pow_mul_r by lia. reflexivity.
  - assert (H2 : 0 <= shr_m (SpecFloat.iter_pos shr_1 p mrs)).
    { rewrite IH by assumption. apply Z.div_pos; [assumption|apply Hpow]. }
    rewrite IH, IH by assumption.
    pose proof (Hpow p).
    rewrite !Z.div_div by lia. f_equal.
    rewrite Pos2Z.inj_xO. rewrite <- Z.pow_add_r by lia. f_equal. lia.
  - rewrite shr_m_shr_1 by assumption. reflexivity.
Qed.

Lemma digits2_pos_lower p : 2 ^ (Z.pos (digits2_pos p) - 1) <= Z.pos p.
Proof.
  induction p as [p IH|p IH|]; cbn [digits2_pos].
  - rewrite Pos2Z.inj_succ. replace (Z.succ (Z.pos (digits2_pos p)) - 1)
      with (Z.succ (Z.pos (digits2_pos p) - 1)) by lia.
    rewrite Z.pow_succ_r by lia. lia.
  - rewrite Pos2Z.inj_succ. replace (Z.succ (Z.pos (digits2_pos p)) - 1)
      with (Z.succ (Z.pos (digits2_pos p) - 1)) by lia.
    rewrite Z.pow_succ_r by lia. lia.
  - cbn. lia.
Qed.

(** Shifting a positive mantissa down to the precision keeps it positive. *)
Lemma shr_fexp_pos p e l :
  -1074 <= e ->
  0 < shr_m (fst (shr_fexp 53 1024 (Z.pos p) e l))
  /\ -1074 <= snd (shr_fexp 53 1024 (Z.pos p) e l).
Proof.
  intros He. unfold shr_fexp, fexp, emin, Zdigits2.
  set (d := Z.pos (digits2_pos p)).
  assert (Hrec : shr_m (shr_record_of_loc (Z.pos p) l) = Z.pos p).
  { destruct l as [|[]]; reflexivity. }
  destruct (Z.max (d + e - 53) (3 - 1024 - 53) - e) as [|n|n] eqn:En;
    cbn [shr fst snd]; rewrite ?Hrec; try (split; lia).
  rewrite shr_m_iter_pos by (rewrite Hrec; lia). rewrite Hrec.
  split; [|lia].
  assert (Hn : Z.pos n <= d - 1) by lia.
  assert (H2 : 2 ^ Z.pos n <= Z.pos p).
  { etransitivity; [|apply digits2_pos_lower].
    apply Z.pow_le_mono_r; [lia | exact Hn]. }
  apply Z.div_str_pos. split; [apply Z.pow_pos_nonneg; lia | exact H2].
Qed.

Lemma round_nearest_even_ge m l : m <= round_nearest_even m l.
Proof.
  unfold round_nearest_even. destruct l as [|[]]; try lia.
  destruct (Z.even m); lia.
Qed.

(** A float that is positive or the positive infinity. *)
Definition positive_float (x : binary64) : Prop :=
  match x with
  | S754_finite false _ _ | S754_infinity false => True
  | _ => False
  end.

Lemma binary_round_aux_pos p e l :
  -1074 <= e ->
  positive_float (binary_round_aux 53 1024 false (Z.pos p) e l).
Proof.
  intros He. unfold binary_round_aux.
  pose proof (shr_fexp_pos p e l He) as [H1 H2].
  destruct (shr_fexp 53 1024 (Z.pos p) e l) as [mrs' e'].
  cbn [fst snd] in H1, H2.
  pose proof (round_nearest_even_ge (shr_m mrs') (loc_of_shr_record mrs'))
    as Hr.
  destruct (round_nearest_even (shr_m mrs') (loc_of_shr_record mrs'))
    as [|q|q]; try lia.
  pose proof (shr_fexp_pos q e' loc_Exact H2) as [H3 _].
  destruct (shr_fexp 53 1024 (Z.pos q) e' loc_Exact) as [mrs'' e''].
  cbn [fst] in H3.
  destruct (shr_m mrs'') as [|m|m]; try lia.
  destruct (e'' <=? 1024 - 53); exact I.
Qed.

(** The float of a positive integer is positive (or the infinity, from
    [2 ^ 1024] on). *)
Lemma of_int_positive (z : Z) :
  0 < z -> positive_float (of_int (num := binary64) z).
Proof.
  intros Hz. destruct z as [|p|p]; try lia.
  change (of_int (num := binary64) (Z.pos p))
    with (binary_round 53 1024 false p 0).
  unfold binary_round, shl_align, fexp, emin.
  destruct (Z.max (Z.pos (digits2_pos p) + 0 - 53) (3 - 1024 - 53) - 0)
    as [|n|n] eqn:En; apply binary_round_aux_pos; lia.
Qed.

Lemma positive_float_nonzero x :
  positive_float x -> feqb x (zero (num := binary64)) = false.
Proof. destruct x as [[]|[]| |[] ? ?]; cbn; try contradiction; reflexivity. Qed.

End Binary64Conversion.

(** ** The n-gram overlap on the floats *)

Section OverlapAnyArithmetic.
Context {RT : Runtime} {num : Type} {AR : Arith num}.

(** The value of [calculate_ngram_overlap] in an arithmetic where the number
    of a positive integer is not zero. *)
Lemma ngram_overlap_any
  (Hnz : forall z, 0 < z -> feqb (of_int (num := num) z) zero = false)
  (text1 text2 : str) (n : Z) :
  let A := get_ngrams text1 n in
  let B := get_ngrams text2 n in
  calculate_ngram_overlap (num := num) text1 text2 n
  = Ok (match A with
        | [] => zero
        | _ :: _ =>
            fmul (fdiv (of_int (card_inter A B)) (of_int (card A)))
              (of_int 100)
        end).
Proof.
  intros A B. unfold calculate_ngram_overlap. fold A B.
  rewrite set_of_nonempty, set_inter_card, set_of_card.
  destruct A as [|g A'] eqn:EA; cbn [Py.nonempty negb]; [reflexivity|].
  unfold truediv. rewrite Hnz by (apply card_pos; discriminate).
  reflexivity.
Qed.

End OverlapAnyArithmetic.

Lemma of_int_binary64_nonzero (z : Z) :
  0 < z -> feqb (of_int (num := binary64) z) zero = false.
Proof. intros Hz. apply positive_float_nonzero, of_int_positive, Hz. Qed.

Lemma of_int_exact_nonzero (z : Z) :
  0 < z -> feqb (of_int (num := R) z) zero = false.
Proof. intros Hz. apply feqb_exact_false. apply not_0_IZR. lia. Qed.

(** C6: [calculate_ngram_overlap] raises nothing on the floats.  It returns
    [0.0] when the first text has no n-gram, and otherwise the float quotient
    of the number of distinct n-grams of the first text that occur among those
    of the second by the number of distinct n-grams of the first text, times
    [100.0], each operation rounded to nearest: only the first text's set is
    in the denominator.  In exact arithmetic the value is [100 * k / m]. *)
Theorem ngram_overlap_formula_binary64 {RT : Runtime}
  (text1 text2 : str) (n : Z) :
  let A := get_ngrams text1 n in
  let B := get_ngrams text2 n in
  calculate_ngram_overlap (num := binary64) text1 text2 n
  = Ok (match A with
        | [] => S754_zero false
        | _ :: _ =>
            SFmul 53 1024
              (SFdiv 53 1024 (of_int (num := binary64) (card_inter A B))
                 (of_int (num := binary64) (card A)))
              (of_int (num := binary64) 100)
        end)
  /\ calculate_ngram_overlap (num := R) text1 text2 n
     = Ok (match A with
           | [] => 0%R
           | _ :: _ => (IZR (card_inter A B) / IZR (card A) * 100)%R
           end).
Proof.
  intros A B. split.
  - exact (ngram_overlap_any (num := binary64) of_int_binary64_nonzero
             text1 text2 n).
  - exact (ngram_overlap_any (num := R) of_int_exact_nonzero text1 text2 n).
Qed.

(** One n-gram of three shared: [1 / 3 * 100] on the floats is
    33.33333333333333. *)
Example ngram_overlap_one_third :
  calculate_ngram_overlap (RT := ascii_runtime) (num := binary64)
    (lit "a b c d e") (lit "x a b c y") 3
  = Ok (S754_finite false 4691249611844266 (-47)).
Proof. vm_compute. reflexivity. Qed.

(** ** The ranking and the maximum on the floats *)

Section ScoringLoop.
Context {RT : Runtime} {num : Type} {AR : Arith num}.



End ScoringLoop.

Section RankingBinary64.
Context {RT : Runtime}.

(** [b] is not strictly more similar than [a]. *)
Definition not_below (a b : SourceMatch binary64) : Prop :=
  SFltb (similarity a) (similarity b) = false.

(** [a] is at least as similar as [b]. *)
Definition at_least (a b : SourceMatch binary64) : Prop :=
  SFleb (similarity b) (similarity a) = true.

Definition similarity_is (v : binary64) (s : SourceMatch binary64) : bool :=
  SFeqb (similarity s) v.

Lemma insert_desc_binary64_sorted (x : SourceMatch binary64)
      (l : list (SourceMatch binary64)) :
  Sorted not_below l -> Sorted not_below (insert_desc x l).
Proof.
  induction 1 as [|y l Hs IH Hd]; cbn [insert_desc].
  - repeat constructor.
  - destruct (fltb (similarity x) (similarity y)) eqn:Hlt.
    + constructor; [exact IH|].
      destruct Hd as [|y2 l2 Hy2]; cbn [insert_desc].
      * constructor. apply SFltb_asym, Hlt.
      * destruct (fltb (similarity x) (similarity y2)); constructor;
          [exact Hy2 | apply SFltb_asym, Hlt].
    + constructor; [now constructor|]. constructor. exact Hlt.
Qed.

Lemma sort_binary64_sorted (l : list (SourceMatch binary64)) :
  Sorted not_below (sort_by_similarity_desc l).
Proof.
  induction l as [|x l IH]; cbn [sort_by_similarity_desc fold_right];
    [constructor|].
  now apply insert_desc_binary64_sorted.
Qed.

Lemma insert_desc_binary64_stable (v : binary64) (x : SourceMatch binary64)
      (l : list (SourceMatch binary64)) :
  filter (similarity_is v) (insert_desc x l)
  = filter (similarity_is v) (x :: l).
Proof.
  induction l as [|y l IH]; cbn [insert_desc]; [reflexivity|].
  destruct (fltb (similarity x) (similarity y)) eqn:Hlt; [|reflexivity].
  cbn [filter] in *. rewrite IH.
  destruct (similarity_is v y) eqn:Ey; [|reflexivity].
  destruct (similarity_is v x) eqn:Ex; [|reflexivity].
  unfold similarity_is in Ex, Ey.
  pose proof (SFltb_SFeqb _ _ _ Ex Ey) as Hn.
  change (SFltb (similarity x) (similarity y) = true) in Hlt. congruence.
Qed.

Lemma sort_binary64_stable (v : binary64) (l : list (SourceMatch binary64)) :
  filter (similarity_is v) (sort_by_similarity_desc l)
  = filter (similarity_is v) l.
Proof.
  induction l as [|x l IH]; cbn [sort_by_similarity_desc fold_right];
    [reflexivity|].
  rewrite insert_desc_binary64_stable. cbn [filter].
  fold (sort_by_similarity_desc l). now rewrite IH.
Qed.

(** Without a NaN among the keys, a list in which no entry is followed by a
    strictly greater one is in non-increasing order throughout. *)
Lemma sorted_at_least (l : list (SourceMatch binary64)) :
  Forall (fun s => is_nan (similarity s) = false) l ->
  Sorted not_below l -> StronglySorted at_least l.
Proof.
  intros Hn Hs. apply Sorted_StronglySorted.
  { intros a b c Hab Hbc. unfold at_least in *.
    now apply SFleb_trans with (similarity b). }
  induction Hs as [|y l Hs IH Hd]; [constructor|].
  inversion Hn as [|? ? Hy Hl]; subst.
  constructor; [now apply IH|].
  destruct Hd as [|y2 l2 Hy2]; constructor.
  inversion Hl; subst. now apply SFltb_total.
Qed.


End RankingBinary64.

(** ** Runs that differ in the iteration order of sets *)

(** Two interpreters with the same Unicode tables; their sets may be
    iterated in different orders, as under two hash seeds. *)
Definition same_tables (RT1 RT2 : Runtime) : Prop :=
  @isspace RT1 = @isspace RT2
  /\ @isword RT1 = @isword RT2
  /\ @lower RT1 = @lower RT2.

Section SetOrder.
Local Open Scope R_scope.
Variables (isp isw : char -> bool) (low : str -> str).
Variables (le1 le2 : low [] = []).
Variables (so1 so2 : list str -> list str).
Hypothesis nd1 : forall l, NoDup (so1 l).
Hypothesis in1 : forall l x, In x (so1 l) <-> In x l.
Hypothesis nd2 : forall l, NoDup (so2 l).
Hypothesis in2 : forall l x, In x (so2 l) <-> In x l.

(** Two runs over the same tables, each with its own order. *)
Definition run1 : Runtime := Build_Runtime isp isw low so1 le1 nd1 in1.
Definition run2 : Runtime := Build_Runtime isp isw low so2 le2 nd2 in2.

Lemma set_order_Permutation (l : list str) : Permutation (so1 l) (so2 l).
Proof.
  apply NoDup_Permutation; [apply nd1 | apply nd2 |].
  intros x. now rewrite in1, in2.
Qed.

Lemma tfidf_set_order (text1 text2 : str) :
  calculate_tfidf_similarity (RT := run1) (num := R) text1 text2
  = calculate_tfidf_similarity (RT := run2) (num := R) text1 text2.
Proof.
  destruct (split (RT := run1) (clean_text (RT := run1) text1))
    as [|a1 l1] eqn:E1.
  { rewrite (tfidf_no_tokens_left (RT := run1)) by exact E1.
    rewrite (tfidf_no_tokens_left (RT := run2)) by exact E1. reflexivity. }
  destruct (split (RT := run1) (clean_text (RT := run1) text2))
    as [|a2 l2] eqn:E2.
  { rewrite (tfidf_no_tokens_right (RT := run1)) by exact E2.
    rewrite (tfidf_no_tokens_right (RT := run2)) by exact E2. reflexivity. }
  pose proof (tfidf_exact (RT := run1) text1 text2) as H1.
  pose proof (tfidf_exact (RT := run2) text1 text2) as H2.
  cbn zeta in H1, H2.
  change (split (RT := run2) (clean_text (RT := run2) text1))
    with (split (RT := run1) (clean_text (RT := run1) text1)) in H2.
  change (split (RT := run2) (clean_text (RT := run2) text2))
    with (split (RT := run1) (clean_text (RT := run1) text2)) in H2.
  rewrite E1, E2 in H1, H2.
  rewrite H1, H2 by discriminate.
  change (@set_of run1) with so1. change (@set_of run2) with so2.
  pose proof (set_order_Permutation ((a1 :: l1) ++ a2 :: l2)) as HP.
  now rewrite !(dot_tf_Permutation _ _ _ _ HP).
Qed.

Lemma ngram_overlap_set_order (text1 text2 : str) (n : Z) :
  calculate_ngram_overlap (RT := run1) (num := R) text1 text2 n
  = calculate_ngram_overlap (RT := run2) (num := R) text1 text2 n.
Proof.
  pose proof (ngram_overlap_any (RT := run1) (num := R) of_int_exact_nonzero
                text1 text2 n) as H1.
  pose proof (ngram_overlap_any (RT := run2) (num := R) of_int_exact_nonzero
                text1 text2 n) as H2.
  cbn zeta in H1, H2. rewrite H1, H2. reflexivity.
Qed.

Lemma combined_score_set_order (text : str) (ref : Reference) :
  combined_score (RT := run1) text ref = combined_score (RT := run2) text ref.
Proof.
  unfold combined_score.
  now rewrite tfidf_set_order, ngram_overlap_set_order.
Qed.

Lemma unique_words_set_order (l : list str) :
  Py.len (so1 l) = Py.len (so2 l).
Proof.
  unfold Py.len. f_equal. apply Permutation_length, set_order_Permutation.
Qed.

(** In exact arithmetic the local analysis is the same under both orders,
    whatever the checkers, the flags and the services. *)
Lemma analyze_corpus_set_order (refs : list Reference)
      (self1 self2 : PlagiarismChecker) (w1 w2 : World) (text : str)
      (use_apis1 verbose1 use_apis2 verbose2 : bool) :
  exists r1 r2 : AnalysisResult R,
    snd (analyze_corpus (RT := run1) refs self1 w1 text use_apis1 verbose1)
    = Ok r1
    /\ snd (analyze_corpus (RT := run2) refs self2 w2 text use_apis2 verbose2)
       = Ok r2
    /\ overall_score r1 = overall_score r2
    /\ max_match r1 = max_match r2
    /\ word_count r1 = word_count r2
    /\ unique_words r1 = unique_words r2
    /\ sources_checked r1 = sources_checked r2
    /\ sources r1 = sources r2
    /\ key_phrases r1 = key_phrases r2.
Proof.
  destruct (analyze_corpus_exact (RT := run1) refs self1 w1 text
              use_apis1 verbose1) as [r1 [Hr1 [Hs1 [Ho1 [Hm1 Hc1]]]]].
  destruct (analyze_corpus_exact (RT := run2) refs self2 w2 text
              use_apis2 verbose2) as [r2 [Hr2 [Hs2 [Ho2 [Hm2 Hc2]]]]].
  exists r1, r2. split; [exact Hr1|]. split; [exact Hr2|].
  destruct (analyze_corpus_inv (RT := run1) _ _ _ _ _ _ _ Hr1)
    as [_ [_ [_ [_ [_ [Hw1 [Hu1 [_ [Hk1 _]]]]]]]]].
  destruct (analyze_corpus_inv (RT := run2) _ _ _ _ _ _ _ Hr2)
    as [_ [_ [_ [_ [_ [Hw2 [Hu2 [_ [Hk2 _]]]]]]]]].
  assert (Hsc : map (combined_score (RT := run1) text) refs
                = map (combined_score (RT := run2) text) refs)
    by (apply map_ext; intros; apply combined_score_set_order).
  assert (Hsd : map (scored (RT := run1) text) refs
                = map (scored (RT := run2) text) refs).
  { apply map_ext. intros ref. unfold scored.
    now rewrite combined_score_set_order. }
  repeat split.
  - rewrite Ho1, Ho2, Hsc. reflexivity.
  - rewrite Hm1, Hm2, Hsc. reflexivity.
  - rewrite Hw1, Hw2. reflexivity.
  - rewrite Hu1, Hu2. apply unique_words_set_order.
  - rewrite Hc1, Hc2. reflexivity.
  - rewrite Hs1, Hs2, Hsd. reflexivity.
  - rewrite Hk1, Hk2. reflexivity.
Qed.

End SetOrder.

Section SetOrderAnyArithmetic.
Context {num : Type} {AR : Arith num}.

(** In any arithmetic the counts and the key phrases of two returned
    results do not depend on the order of the sets. *)
Lemma analyze_corpus_counts_set_order (RT1 RT2 : Runtime)
      (refs : list Reference) (self1 self2 : PlagiarismChecker)
      (w1 w2 : World) (text : str)
      (use_apis1 verbose1 use_apis2 verbose2 : bool)
      (r1 r2 : AnalysisResult num) :
  same_tables RT1 RT2 ->
  snd (analyze_corpus (RT := RT1) refs self1 w1 text use_apis1 verbose1)
  = Ok r1 ->
  snd (analyze_corpus (RT := RT2) refs self2 w2 text use_apis2 verbose2)
  = Ok r2 ->
  word_count r1 = word_count r2
  /\ unique_words r1 = unique_words r2
  /\ sources_checked r1 = sources_checked r2
  /\ key_phrases r1 = key_phrases r2
  /\ Permutation (map (fun s => (name s, source_type s)) (sources r1))
                 (map (fun s => (name s, source_type s)) (sources r2)).
Proof.
  destruct RT1 as [isp1 isw1 low1 so1 le1 nd1 in1].
  destruct RT2 as [isp2 isw2 low2 so2 le2 nd2 in2].
  unfold same_tables. cbn [isspace isword lower].
  intros [<- [<- <-]] Hr1 Hr2.
  apply analyze_corpus_inv in Hr1, Hr2.
  destruct Hr1 as [srcs1 [m1 [Hl1 [Hs1 [_ [Hw1 [Hu1 [Hc1 [Hk1 _]]]]]]]]].
  destruct Hr2 as [srcs2 [m2 [Hl2 [Hs2 [_ [Hw2 [Hu2 [Hc2 [Hk2 _]]]]]]]]].
  apply score_loop_shape in Hl1, Hl2.
  destruct Hl1 as [new1 [-> Hn1]], Hl2 as [new2 [-> Hn2]]. cbn [app] in *.
  apply entries_names in Hn1, Hn2.
  destruct Hn1 as [Hn1 _], Hn2 as [Hn2 _].
  split; [rewrite Hw1, Hw2; reflexivity|].
  split.
  { rewrite Hu1, Hu2. cbn [set_of lower].
    apply NoDup_same_length; [apply nd1 | apply nd2 |].
    intros x. now rewrite in1, in2. }
  split.
  { rewrite Hc1, Hc2. unfold Py.len. f_equal.
    rewrite <- (Permutation_length (sort_perm new1)).
    rewrite <- (Permutation_length (sort_perm new2)).
    rewrite <- (length_map (fun s => (name s, source_type s)) new1), Hn1.
    rewrite <- (length_map (fun s => (name s, source_type s)) new2), Hn2.
    reflexivity. }
  split; [rewrite Hk1, Hk2; reflexivity|].
  rewrite Hs1, Hs2.
  rewrite <- (sort_perm new1).
  rewrite <- (sort_perm new2).
  rewrite Hn1, Hn2. reflexivity.
Qed.

End SetOrderAnyArithmetic.

(** ** The result of [analyze] on the floats *)

Section ResultsBinary64.
Context {RT : Runtime}.



(** The ranking of a returned result on the floats. *)
Lemma analyze_ranking_binary64 (refs : list Reference)
      (self : PlagiarismChecker) (w : World) (text : str)
      (use_apis verbose : bool) (r : AnalysisResult binary64) :
  snd (analyze_corpus refs self w text use_apis verbose) = Ok r ->
  exists unsorted : list (SourceMatch binary64),
    score_loop refs text [] zero = Ok (unsorted, max_match r)
    /\ map name unsorted = map ref_name refs
    /\ map source_type unsorted = map ref_type refs
    /\ sources r = sort_by_similarity_desc unsorted.
Proof.
  intros Hr. apply analyze_corpus_inv in Hr.
  destruct Hr as [srcs [m [Hl [Hs [Hm _]]]]].
  exists srcs. rewrite Hm. split; [exact Hl|].
  apply score_loop_shape in Hl. destruct Hl as [new [-> Hn]]. cbn [app] in *.
  apply entries_names in Hn. destruct Hn as [Hn _].
  split; [|split; [|exact Hs]].
  - apply (f_equal (map fst)) in Hn. now rewrite !map_map in Hn.
  - apply (f_equal (map snd)) in Hn. now rewrite !map_map in Hn.
Qed.

End ResultsBinary64.

(** C4: in a result that [analyze] returns, over any reference list, the
    [sources] are the entries the scoring loop made for the references, in
    corpus order, rearranged so that no entry is directly followed by one of
    strictly greater similarity and so that the entries of any one
    similarity keep their corpus order.  When no similarity is NaN every
    entry is at least as similar as all those after it. *)
Theorem analyze_sources_sorted_stable_binary64 {RT : Runtime}
        (refs : list Reference) (self : PlagiarismChecker) (w : World)
        (text : str) (use_apis verbose : bool) (r : AnalysisResult binary64) :
  snd (analyze_corpus refs self w text use_apis verbose) = Ok r ->
  exists unsorted : list (SourceMatch binary64),
    score_loop refs text [] zero = Ok (unsorted, max_match r)
    /\ map name unsorted = map ref_name refs
    /\ map source_type unsorted = map ref_type refs
    /\ Permutation unsorted (sources r)
    /\ Sorted not_below (sources r)
    /\ (forall v, filter (similarity_is v) (sources r)
                  = filter (similarity_is v) unsorted)
    /\ (Forall (fun s => is_nan (similarity s) = false) (sources r) ->
        StronglySorted at_least (sources r)).
Proof.
  intros Hr.
  destruct (analyze_ranking_binary64 refs self w text use_apis verbose r Hr)
    as [unsorted [Hl [Hn [Ht Hs]]]].
  exists unsorted. rewrite Hs.
  split; [exact Hl|]. split; [exact Hn|]. split; [exact Ht|].
  split; [apply sort_perm|]. split; [apply sort_binary64_sorted|].
  split; [intros v; apply sort_binary64_stable|].
  intros Hnan. apply sorted_at_least; [exact Hnan|apply sort_binary64_sorted].
Qed.

Definition two_references : list Reference :=
  [ {| ref_id := lit "R1"; ref_name := lit "Reference 1";
       ref_type := lit "Report"; ref_text := lit "a b" |};
    {| ref_id := lit "R2"; ref_name := lit "Reference 2";
       ref_type := lit "Journal"; ref_text := lit "a a a" |} ].

Lemma analyze_sources_sorted_stable_binary64_witness :
  exists r : AnalysisResult binary64,
    snd (analyze_corpus two_references (new_checker no_keys) world_up
           (lit "a a a a") false false) = Ok r
    /\ map name (sources r) = [lit "Reference 2"; lit "Reference 1"]
    /\ StronglySorted at_least (sources r).
Proof.
  eassert (E : snd (analyze_corpus (RT := ascii_runtime) (num := binary64)
                      two_references (new_checker no_keys) world_up
                      (lit "a a a a") false false) = Ok _)
    by (vm_compute; reflexivity).
  eexists. split; [exact E|]. split; [reflexivity|].
  destruct (analyze_sources_sorted_stable_binary64 _ _ _ _ _ _ _ E)
    as [unsorted [_ [_ [_ [_ [_ [_ H]]]]]]].
  apply H. repeat constructor.
Defined.





(** ** Two runs *)

(** A run whose sets iterate in the reverse of insertion order. *)
Definition reversed_set (l : list str) : list str := rev (Py.dedup l).

Lemma reversed_set_NoDup (l : list str) : NoDup (reversed_set l).
Proof. apply NoDup_rev, dedup_NoDup. Qed.

Lemma reversed_set_In (l : list str) (x : str) :
  In x (reversed_set l) <-> In x l.
Proof. unfold reversed_set. now rewrite <- in_rev, dedup_In. Qed.

Definition reversed_runtime : Runtime := {|
  isspace := ascii_isspace;
  isword := ascii_isword;
  lower := ascii_lower;
  set_of := reversed_set;
  lower_empty := eq_refl;
  set_of_NoDup := reversed_set_NoDup;
  set_of_In := reversed_set_In
|}.

Lemma analyze_corpus_exact_across_runs (RT1 RT2 : Runtime)
      (refs : list Reference) (self1 self2 : PlagiarismChecker)
      (w1 w2 : World) (text : str)
      (use_apis1 verbose1 use_apis2 verbose2 : bool) :
  same_tables RT1 RT2 ->
  exists r1 r2 : AnalysisResult R,
    snd (analyze_corpus (RT := RT1) refs self1 w1 text use_apis1 verbose1)
    = Ok r1
    /\ snd (analyze_corpus (RT := RT2) refs self2 w2 text use_apis2 verbose2)
       = Ok r2
    /\ overall_score r1 = overall_score r2
    /\ max_match r1 = max_match r2
    /\ word_count r1 = word_count r2
    /\ unique_words r1 = unique_words r2
    /\ sources_checked r1 = sources_checked r2
    /\ sources r1 = sources r2
    /\ key_phrases r1 = key_phrases r2.
Proof.
  destruct RT1 as [isp1 isw1 low1 so1 le1 nd1 in1].
  destruct RT2 as [isp2 isw2 low2 so2 le2 nd2 in2].
  unfold same_tables. cbn [isspace isword lower].
  intros [<- [<- <-]].
  apply (analyze_corpus_set_order isp1 isw1 low1 le1 le2 so1 so2
           nd1 in1 nd2 in2).
Qed.

(** Two calls whose flags keep the services out record the same status
    table. *)
Lemma analyze_status_across_runs {num : Type} {AR : Arith num}
      (RT1 RT2 : Runtime) (refs : list Reference) (self : PlagiarismChecker)
      (w1 w2 : World) (text : str) (use_apis verbose : bool)
      (r1 r2 : AnalysisResult num) :
  snd (analyze_corpus (RT := RT1) refs self w1 text use_apis verbose) = Ok r1 ->
  snd (analyze_corpus (RT := RT2) refs self w2 text use_apis verbose) = Ok r2 ->
  use_apis && verbose = false -> api_status r1 = api_status r2.
Proof.
  intros H1 H2 Hq.
  apply (analyze_corpus_status (RT := RT1)) in H1.
  apply (analyze_corpus_status (RT := RT2)) in H2.
  rewrite H1, H2. f_equal. now apply api_checks_same.
Qed.

(** C9, as the code has it.  Between two runs whose sets may iterate in
    different orders, and whatever the services answer: in exact arithmetic
    both calls return and the results agree on every field except
    [timestamp] and [api_status]; on any arithmetic two returned results
    agree on the counts, the key phrases and the names of the sources.
    Within one run two calls raise the same exception or return results that
    agree on every field except [timestamp] and [api_status].  In each case
    [api_status] agrees too whenever [use_apis] or [verbose] is false. *)
Theorem analyze_deterministic_across_runs {num : Type} {AR : Arith num}
        (RT1 RT2 : Runtime) (self : PlagiarismChecker) (w1 w2 : World)
        (text : str) (use_apis verbose : bool) :
  same_tables RT1 RT2 ->
  (exists r1 r2 : AnalysisResult R,
     snd (analyze (RT := RT1) self w1 text use_apis verbose) = Ok r1
     /\ snd (analyze (RT := RT2) self w2 text use_apis verbose) = Ok r2
     /\ overall_score r1 = overall_score r2
     /\ word_count r1 = word_count r2
     /\ unique_words r1 = unique_words r2
     /\ max_match r1 = max_match r2
     /\ sources_checked r1 = sources_checked r2
     /\ sources r1 = sources r2
     /\ key_phrases r1 = key_phrases r2
     /\ (use_apis && verbose = false -> api_status r1 = api_status r2))
  /\ (forall r1 r2 : AnalysisResult num,
        snd (analyze (RT := RT1) self w1 text use_apis verbose) = Ok r1 ->
        snd (analyze (RT := RT2) self w2 text use_apis verbose) = Ok r2 ->
        word_count r1 = word_count r2
        /\ unique_words r1 = unique_words r2
        /\ sources_checked r1 = sources_checked r2
        /\ key_phrases r1 = key_phrases r2
        /\ Permutation (map (fun s => (name s, source_type s)) (sources r1))
                       (map (fun s => (name s, source_type s)) (sources r2))
        /\ (use_apis && verbose = false -> api_status r1 = api_status r2))
  /\ match snd (analyze (RT := RT1) (num := num) self w1 text use_apis verbose),
           snd (analyze (RT := RT1) (num := num) self w2 text use_apis verbose)
     with
     | Ok r1, Ok r2 =>
         overall_score r1 = overall_score r2
         /\ word_count r1 = word_count r2
         /\ unique_words r1 = unique_words r2
         /\ max_match r1 = max_match r2
         /\ sources_checked r1 = sources_checked r2
         /\ sources r1 = sources r2
         /\ key_phrases r1 = key_phrases r2
         /\ (use_apis && verbose = false -> api_status r1 = api_status r2)
     | Raise e1, Raise e2 => e1 = e2
     | _, _ => False
     end.
Proof.
  intros HT. split; [|split].
  - unfold analyze.
    destruct (analyze_corpus_exact_across_runs RT1 RT2 ACADEMIC_REFERENCES
                self self w1 w2 text use_apis verbose use_apis verbose HT)
      as [r1 [r2 [H1 [H2 [Ho [Hm [Hw [Hu [Hc [Hs Hk]]]]]]]]]].
    exists r1, r2. repeat (split; [assumption|]).
    now apply (analyze_status_across_runs RT1 RT2 ACADEMIC_REFERENCES self
                 w1 w2 text use_apis verbose).
  - unfold analyze. intros r1 r2 H1 H2.
    destruct (analyze_corpus_counts_set_order RT1 RT2 ACADEMIC_REFERENCES
                self self w1 w2 text use_apis verbose use_apis verbose
                r1 r2 HT H1 H2) as [Hw [Hu [Hc [Hk Hn]]]].
    repeat (split; [assumption|]).
    now apply (analyze_status_across_runs RT1 RT2 ACADEMIC_REFERENCES self
                 w1 w2 text use_apis verbose).
  - apply (analyze_same_run (RT := RT1)).
Qed.

Lemma analyze_deterministic_across_runs_witness :
  same_tables ascii_runtime reversed_runtime
  /\ exists r1 r2 : AnalysisResult binary64,
       snd (analyze (RT := ascii_runtime) (new_checker zerogpt_only) world_up
              (lit "a b") true false) = Ok r1
       /\ snd (analyze (RT := reversed_runtime) (new_checker zerogpt_only)
                 world_down (lit "a b") true false) = Ok r2
       /\ unique_words r1 = unique_words r2
       /\ api_status r1 = api_status r2.
Proof.
  assert (HT : same_tables ascii_runtime reversed_runtime)
    by (repeat split; reflexivity).
  split; [exact HT|].
  eassert (E1 : snd (analyze (RT := ascii_runtime) (num := binary64)
                       (new_checker zerogpt_only) world_up (lit "a b")
                       true false) = Ok _)
    by (vm_compute; reflexivity).
  eassert (E2 : snd (analyze (RT := reversed_runtime) (num := binary64)
                       (new_checker zerogpt_only) world_down (lit "a b")
                       true false) = Ok _)
    by (vm_compute; reflexivity).
  eexists. eexists. split; [exact E1|]. split; [exact E2|].
  destruct (analyze_deterministic_across_runs (num := binary64)
              ascii_runtime reversed_runtime (new_checker zerogpt_only)
              world_up world_down (lit "a b") true false HT)
    as [_ [H _]].
  destruct (H _ _ E1 E2) as [_ [Hu [_ [_ [_ Hst]]]]].
  split; [exact Hu | apply Hst; reflexivity].
Defined.

(** C9 fails as stated, twice.  With a ZeroGPT key configured and both
    flags set, the same text gives 'Complete' when the service answers and
    'Error' when it does not.  And on the floats the scores depend on the
    order in which the vocabulary set is iterated, which changes from run to
    run: for "a b" the two orders give [overall_score]s that differ in the
    last bits. *)
Lemma analyze_depends_on_services_and_set_order :
  (exists r1 r2 : AnalysisResult binary64,
     snd (analyze (RT := ascii_runtime) (new_checker zerogpt_only) world_up
            (lit "a b") true true) = Ok r1
     /\ snd (analyze (RT := ascii_runtime) (new_checker zerogpt_only)
               world_down (lit "a b") true true) = Ok r2
     /\ now_isoformat world_up = now_isoformat world_down
     /\ dict_get (api_status r1) (lit "ZeroGPT") [] = lit "Complete"
     /\ dict_get (api_status r2) (lit "ZeroGPT") [] = lit "Error"
     /\ api_status r1 <> api_status r2)
  /\ same_tables ascii_runtime reversed_runtime
  /\ (exists r1 r2 : AnalysisResult binary64,
        snd (analyze (RT := ascii_runtime) (new_checker no_keys) world_up
               (lit "a b") false false) = Ok r1
        /\ snd (analyze (RT := reversed_runtime) (new_checker no_keys)
                  world_up (lit "a b") false false) = Ok r2
        /\ overall_score r1 = S754_finite false 6570963018567796 (-50)
        /\ overall_score r2 = S754_finite false 6570963018567798 (-50)
        /\ SFeqb (overall_score r1) (overall_score r2) = false
        /\ map similarity (sources r1) <> map similarity (sources r2)).
Proof.
  split; [|split].
  - eexists. eexists.
    split; [vm_compute; reflexivity|].
    split; [vm_compute; reflexivity|].
    split; [reflexivity|].
    split; [reflexivity|].
    split; [reflexivity|].
    vm_compute. discriminate.
  - repeat split; reflexivity.
  - eexists. eexists.
    split; [vm_compute; reflexivity|].
    split; [vm_compute; reflexivity|].
    split; [vm_compute; reflexivity|].
    split; [vm_compute; reflexivity|].
    split; [vm_compute; reflexivity|].
    vm_compute. discriminate.
Qed.

(** X15: the local analysis does not depend on the configuration, the
    flags or the services, and in exact arithmetic not on the order in which
    sets are iterated either.  Two calls on the same text and corpus with
    any two checkers, worlds and flag values: in exact arithmetic, between
    two runs, both return, with the same scores, counts, sources and key
    phrases; within one run, on any arithmetic, they raise the same
    exception or return results with the same such fields. *)
Theorem analyze_local_fields_independent {num : Type} {AR : Arith num}
        (RT1 RT2 : Runtime) (refs : list Reference)
        (self1 self2 : PlagiarismChecker) (w1 w2 : World) (text : str)
        (use_apis1 verbose1 use_apis2 verbose2 : bool) :
  same_tables RT1 RT2 ->
  (exists r1 r2 : AnalysisResult R,
     snd (analyze_corpus (RT := RT1) refs self1 w1 text use_apis1 verbose1)
     = Ok r1
     /\ snd (analyze_corpus (RT := RT2) refs self2 w2 text use_apis2 verbose2)
        = Ok r2
     /\ overall_score r1 = overall_score r2
     /\ max_match r1 = max_match r2
     /\ word_count r1 = word_count r2
     /\ unique_words r1 = unique_words r2
     /\ sources_checked r1 = sources_checked r2
     /\ sources r1 = sources r2
     /\ key_phrases r1 = key_phrases r2)
  /\ match snd (analyze_corpus (RT := RT1) (num := num) refs self1 w1 text
                  use_apis1 verbose1),
           snd (analyze_corpus (RT := RT1) (num := num) refs self2 w2 text
                  use_apis2 verbose2)
     with
     | Ok r1, Ok r2 =>
         overall_score r1 = overall_score r2
         /\ max_match r1 = max_match r2
         /\ word_count r1 = word_count r2
         /\ unique_words r1 = unique_words r2
         /\ sources_checked r1 = sources_checked r2
         /\ sources r1 = sources r2
         /\ key_phrases r1 = key_phrases r2
     | Raise e1, Raise e2 => e1 = e2
     | _, _ => False
     end.
Proof.
  intros HT. split.
  - now apply analyze_corpus_exact_across_runs.
  - unfold analyze_corpus.
    destruct (score_loop refs text [] zero) as [[srcs m]|e]; [|reflexivity].
    destruct (api_checks self1 w1 text use_apis1 verbose1
                (initial_status self1)) as [ev1 st1].
    destruct (api_checks self2 w2 text use_apis2 verbose2
                (initial_status self2)) as [ev2 st2].
    cbn [snd].
    destruct (if Py.nonempty _ then _ else _) as [o|e]; cbn [bind];
      [|reflexivity].
    cbn. repeat split.
Qed.

Lemma analyze_local_fields_independent_witness :
  same_tables ascii_runtime reversed_runtime
  /\ exists r1 r2 : AnalysisResult R,
       snd (analyze_corpus (RT := ascii_runtime) ACADEMIC_REFERENCES
              (new_checker no_keys) world_up (lit "a b") false false) = Ok r1
       /\ snd (analyze_corpus (RT := reversed_runtime) ACADEMIC_REFERENCES
                 (new_checker zerogpt_only) world_down (lit "a b") true true)
          = Ok r2
       /\ overall_score r1 = overall_score r2
       /\ sources r1 = sources r2.
Proof.
  assert (HT : same_tables ascii_runtime reversed_runtime)
    by (repeat split; reflexivity).
  split; [exact HT|].
  destruct (analyze_local_fields_independent (num := binary64)
              ascii_runtime reversed_runtime ACADEMIC_REFERENCES
              (new_checker no_keys) (new_checker zerogpt_only)
              world_up world_down (lit "a b") false false true true HT)
    as [[r1 [r2 [H1 [H2 [Ho [_ [_ [_ [_ [Hs _]]]]]]]]]] _].
  exists r1, r2. repeat (split; [assumption|]). exact Hs.
Defined.
